(** * Verification of the webcam capture package

    A shallow embedding of the Go package [webcam]:
    - [formats.go]: FourCC tags and their 32-bit codes;
    - [image.go]: the pixel decoders and [Compress], in the two revisions
      of the file that the repository holds;
    - [webcam.go]: the [Camera] session and its streaming state machine
      over the V4L2 transport.

    Go values are modelled as follows.  An unsigned 32-bit integer is a [Z]
    with the wrap-around written out ([uint32]); a [byte] read from a string
    is the [Z] code of its character; a [[]byte] frame is a [list byte]; a Go
    [string] is a [string]; the global [formats] map is a [gmap string _];
    a run-time panic (index out of range, a negative [make] length) is the
    [None] of an [option]; a Go [error] is [option string], [None] being
    [nil]. *)

From Stdlib Require Import ZArith String Ascii List Lia.
From Stdlib.Strings Require Import Byte.
From stdpp Require Import base option list strings pretty gmap.

Local Open Scope Z_scope.

(** ** Machine integers *)

(** Conversion to [uint32]: the value modulo [2^32]. *)
Definition uint32 (z : Z) : Z := z mod 2 ^ 32.

(** Conversion to [byte] (an alias of [uint8]): the value modulo [2^8]. *)
Definition uint8 (z : Z) : Z := z mod 2 ^ 8.

(** [x << k] on [uint32] operands. *)
Definition shl32 (x k : Z) : Z := uint32 (Z.shiftl x k).

(** [x >> k] on [uint32] operands. *)
Definition shr32 (x k : Z) : Z := Z.shiftr x k.

(** [x | y] and [x & y]. *)
Definition or32 (x y : Z) : Z := Z.lor x y.
Definition and32 (x y : Z) : Z := Z.land x y.

(** ** formats.go *)

Module Formats.

(** [type PixelFormat uint32] *)
Definition PixelFormat : Type := Z.

(** The byte value of a character of a Go string. *)
Definition byte_of_ascii (c : ascii) : Z := Z.of_N (N_of_ascii c).

(** [value[i]]: the [i]-th byte of the string.  Go panics when [i] is out
    of range; [EncodeFormat] guards every index with the length, so the
    default is never used there ([index_in_range] below). *)
Definition index (value : string) (i : nat) : Z :=
  match String.get i value with
  | Some c => byte_of_ascii c
  | None => 0
  end.

(** The byte of the space character, the initial value of [a], [b], [c]
    and [d]. *)
Definition space : Z := byte_of_ascii " ".

(** [func EncodeFormat(value string) PixelFormat] *)
Definition EncodeFormat (value : string) : PixelFormat :=
  let length := String.length value in
  let a := if (1 <=? length)%nat then uint8 (index value 0) else space in
  let b := if (2 <=? length)%nat then uint8 (index value 1) else space in
  let c := if (3 <=? length)%nat then uint8 (index value 2) else space in
  let d := if (4 <=? length)%nat then uint8 (index value 3) else space in
  let code :=
    or32 (or32 (or32 (uint32 a) (shl32 (uint32 b) 8))
               (shl32 (uint32 c) 16))
         (shl32 (uint32 d) 24) in
  code.

(** The verb [%c] of [fmt.Sprintf] applied to a byte: the character whose
    Unicode code point is the byte's value, written in UTF-8.  A value
    below [0x80] is one byte; a value from [0x80] to [0xff] is the two
    bytes [0xC0 | v>>6] and [0x80 | v&0x3F]. *)
Definition Sprintf_c (v : Z) : string :=
  if v <? 0x80 then
    String (ascii_of_N (Z.to_N v)) EmptyString
  else
    String (ascii_of_N (Z.to_N (Z.lor 0xC0 (Z.shiftr v 6))))
      (String (ascii_of_N (Z.to_N (Z.lor 0x80 (Z.land v 0x3F)))) EmptyString).

(** [func DecodeFormat(format PixelFormat) string] *)
Definition DecodeFormat (format : PixelFormat) : string :=
  let a := uint8 (and32 (uint32 format) 0xff) in
  let b := uint8 (and32 (shr32 (uint32 format) 8) 0xff) in
  let c := uint8 (and32 (shr32 (uint32 format) 16) 0xff) in
  let d := uint8 (and32 (shr32 (uint32 format) 24) 0xff) in
  (Sprintf_c a ++ Sprintf_c b ++ Sprintf_c c ++ Sprintf_c d)%string.

(** *** Vocabulary of the properties *)

(** Printable ASCII: the codes [0x20] to [0x7e]. *)
Definition printable_char (c : ascii) : bool :=
  (32 <=? byte_of_ascii c) && (byte_of_ascii c <=? 126).

Fixpoint printable (s : string) : bool :=
  match s with
  | EmptyString => true
  | String c s' => printable_char c && printable s'
  end.

Fixpoint spaces (n : nat) : string :=
  match n with
  | O => EmptyString
  | S n' => String " " (spaces n')
  end.

(** [s] right-padded with spaces to length 4. *)
Definition pad4 (s : string) : string :=
  (s ++ spaces (4 - String.length s))%string.

(** [type FrameSize struct]: six [uint32] fields. *)
Record FrameSize := {
  MinWidth : Z;
  MaxWidth : Z;
  StepWidth : Z;
  MinHeight : Z;
  MaxHeight : Z;
  StepHeight : Z
}.

(** The verb [%d] of [fmt.Sprintf] applied to a [uint32]: its decimal
    digits. *)
Definition Sprintf_d (v : Z) : string := pretty (Z.to_N v).

(** [func (s FrameSize) GetString() string] *)
Definition GetString (s : FrameSize) : string :=
  if (StepWidth s =? 0) && (StepHeight s =? 0) then
    Sprintf_d (MaxWidth s) +:+ "x" +:+ Sprintf_d (MaxHeight s)
  else
    "[" +:+ Sprintf_d (MinWidth s) +:+ "-" +:+ Sprintf_d (MaxWidth s)
      +:+ ";" +:+ Sprintf_d (StepWidth s) +:+ "]x["
      +:+ Sprintf_d (MinHeight s) +:+ "-" +:+ Sprintf_d (MaxHeight s)
      +:+ ";" +:+ Sprintf_d (StepHeight s) +:+ "]".

(** The first four bytes of a string (all of it when it is shorter). *)
Definition first4 (s : string) : string := String.substring 0 4 s.

(** The four bytes of a code, least significant first. *)
Definition code_bytes (code : Z) : list Z :=
  [ Z.land code 0xff;
    Z.land (Z.shiftr code 8) 0xff;
    Z.land (Z.shiftr code 16) 0xff;
    Z.land (Z.shiftr code 24) 0xff ].

(** The number of bytes of a code that are outside ASCII. *)
Definition high_bytes (code : Z) : nat :=
  length (filter (λ b, 0x80 ≤ b) (code_bytes code)).

End Formats.

(** ** Go run-time: slices, loops and panics *)

Module GoRt.

(** The type [int] on the 64-bit targets of the package (Linux V4L2):
    two's complement wrap-around to 64 bits. *)
Definition int (z : Z) : Z := (z + 2 ^ 63) mod 2 ^ 64 - 2 ^ 63.

(** [make([]uint8, n)]: [n] zero bytes; panics when [n] is negative. *)
Definition make (n : Z) : option (list byte) :=
  if n <? 0 then None else Some (replicate (Z.to_nat n) x00).

(** [buf[i] = v]: panics when [i] is out of range. *)
Definition store (buf : list byte) (i : nat) (v : byte) : option (list byte) :=
  if (i <? length buf)%nat then Some (<[i := v]> buf) else None.

(** [for _, i := range idx { body }] over a state [S], where the body may
    panic. *)
Fixpoint for_each {S : Type} (body : nat → S → option S) (idx : list nat)
    (s : S) : option S :=
  match idx with
  | [] => Some s
  | i :: rest => s' ← body i s; for_each body rest s'
  end.

(** [for i := range xs { body }]: the length of [xs] is read once, before
    the first iteration. *)
Definition for_range {S : Type} (n : nat) (body : nat → S → option S)
    (s : S) : option S :=
  for_each body (seq 0 n) s.

(** The shape of a plane-copy loop body over a state [S] with a byte plane
    [get]/[put]: [plane[i] = frame[i + off]], the offset read from the
    state. *)
Definition copy_body {S : Type} (get : S → list byte)
    (put : list byte → S → S) (off : S → nat) (frame : list byte)
    (i : nat) (s : S) : option S :=
  v ← frame !! (i + off s)%nat; l ← store (get s) i v; Some (put l s).

End GoRt.

(** ** The packages [image] and [rgb] as far as the decoders use them *)

Module GoImage.
Import GoRt.

(** [image.Rectangle], with [image.Rect(x0, y0, x1, y1)]. *)
Record Rectangle := { MinX : Z; MinY : Z; MaxX : Z; MaxY : Z }.

Definition Rect (x0 y0 x1 y1 : Z) : Rectangle :=
  let '(x0, x1) := if x0 >? x1 then (x1, x0) else (x0, x1) in
  let '(y0, y1) := if y0 >? y1 then (y1, y0) else (y0, y1) in
  {| MinX := x0; MinY := y0; MaxX := x1; MaxY := y1 |}.

Definition Dx (r : Rectangle) : Z := MaxX r - MinX r.
Definition Dy (r : Rectangle) : Z := MaxY r - MinY r.

(** [mul3NonNeg]: the product [x*y*z], or [-1] if an argument is negative
    or the product overflows [int]. *)
Definition mul3NonNeg (x y z : Z) : Z :=
  if (x <? 0) || (y <? 0) || (z <? 0) then -1
  else if 2 ^ 64 <=? x * y then -1
  else if 2 ^ 64 <=? x * y * z then -1
  else if 2 ^ 63 <=? x * y * z then -1
  else x * y * z.

(** [add2NonNeg]: the sum [x+y], or [-1] if an argument is negative or the
    sum overflows [int]. *)
Definition add2NonNeg (x y : Z) : Z :=
  if (x <? 0) || (y <? 0) then -1
  else if 2 ^ 63 <=? x + y then -1
  else x + y.

Inductive YCbCrSubsampleRatio :=
| YCbCrSubsampleRatio444
| YCbCrSubsampleRatio422
| YCbCrSubsampleRatio420.

(** [image.YCbCr]: three planes of one backing array, each slice capped at
    its own length, so that the planes are disjoint. *)
Record YCbCr := {
  Y : list byte;
  Cb : list byte;
  Cr : list byte;
  YStride : Z;
  CStride : Z;
  SubsampleRatio : YCbCrSubsampleRatio;
  YRect : Rectangle
}.

(** [yCbCrSize]: luma and chroma plane dimensions. *)
Definition yCbCrSize (r : Rectangle) (ratio : YCbCrSubsampleRatio)
    : Z * Z * Z * Z :=
  let w := Dx r in
  let h := Dy r in
  match ratio with
  | YCbCrSubsampleRatio422 =>
      (w, h, (MaxX r + 1) `quot` 2 - MinX r `quot` 2, h)
  | YCbCrSubsampleRatio420 =>
      (w, h, (MaxX r + 1) `quot` 2 - MinX r `quot` 2,
             (MaxY r + 1) `quot` 2 - MinY r `quot` 2)
  | YCbCrSubsampleRatio444 => (w, h, w, h)
  end.

(** [image.NewYCbCr]: zeroed planes; panics on huge or negative
    dimensions. *)
Definition NewYCbCr (r : Rectangle) (ratio : YCbCrSubsampleRatio)
    : option YCbCr :=
  let '(w, h, cw, ch) := yCbCrSize r ratio in
  let totalLength := add2NonNeg (mul3NonNeg 1 w h) (mul3NonNeg 2 cw ch) in
  if totalLength <? 0 then None
  else
    Some {| Y := replicate (Z.to_nat (w * h)) x00;
            Cb := replicate (Z.to_nat (cw * ch)) x00;
            Cr := replicate (Z.to_nat (cw * ch)) x00;
            YStride := w;
            CStride := cw;
            SubsampleRatio := ratio;
            YRect := r |}.

(** [image.RGBA] *)
Record RGBA := { Pix : list byte; Stride : Z; RGBARect : Rectangle }.

(** [image.NewRGBA]: panics when [4*w*h] overflows. *)
Definition NewRGBA (r : Rectangle) : option RGBA :=
  let totalLength := mul3NonNeg 4 (Dx r) (Dy r) in
  if totalLength <? 0 then None
  else Some {| Pix := replicate (Z.to_nat totalLength) x00;
               Stride := 4 * Dx r;
               RGBARect := r |}.

(** [rgb.Image] of go-libjpeg, and [rgb.NewImage]. *)
Record RGB := { RGBPix : list byte; RGBStride : Z; RGBRect : Rectangle }.

Definition NewRGB (r : Rectangle) : option RGB :=
  let w := Dx r in
  let h := Dy r in
  pix ← make (int (int (3 * w) * h));
  Some {| RGBPix := pix; RGBStride := int (3 * w); RGBRect := r |}.

(** Field updates of the in-place assignments. *)
Definition with_Y (l : list byte) (img : YCbCr) : YCbCr :=
  {| Y := l; Cb := Cb img; Cr := Cr img; YStride := YStride img;
     CStride := CStride img; SubsampleRatio := SubsampleRatio img;
     YRect := YRect img |}.
Definition with_Cb (l : list byte) (img : YCbCr) : YCbCr :=
  {| Y := Y img; Cb := l; Cr := Cr img; YStride := YStride img;
     CStride := CStride img; SubsampleRatio := SubsampleRatio img;
     YRect := YRect img |}.
Definition with_Cr (l : list byte) (img : YCbCr) : YCbCr :=
  {| Y := Y img; Cb := Cb img; Cr := l; YStride := YStride img;
     CStride := CStride img; SubsampleRatio := SubsampleRatio img;
     YRect := YRect img |}.

(** [img.Y[i] = v], [img.Cb[i] = v], [img.Cr[i] = v]. *)
Definition setY (img : YCbCr) (i : nat) (v : byte) : option YCbCr :=
  l ← store (Y img) i v; Some (with_Y l img).
Definition setCb (img : YCbCr) (i : nat) (v : byte) : option YCbCr :=
  l ← store (Cb img) i v; Some (with_Cb l img).
Definition setCr (img : YCbCr) (i : nat) (v : byte) : option YCbCr :=
  l ← store (Cr img) i v; Some (with_Cr l img).

(** The image with its two chroma planes exchanged. *)
Definition swap_chroma (img : YCbCr) : YCbCr :=
  {| Y := Y img; Cb := Cr img; Cr := Cb img; YStride := YStride img;
     CStride := CStride img; SubsampleRatio := SubsampleRatio img;
     YRect := YRect img |}.

(** The relation kept between a YU12 run and a YV12 run of the planar
    decoder: the planes are exchanged, and both chroma planes have one
    length. *)
Definition mirrored (s t : YCbCr) : Prop :=
  t = swap_chroma s ∧ length (Cb s) = length (Cr s).

(** The number of luma bytes [w*h] of a [w]x[h] image, and the number of
    bytes [ceil(w/2) * ceil(h/2)] of one of its 4:2:0 chroma planes. *)
Definition luma_size (w h : Z) : nat := Z.to_nat (w * h).
Definition chroma_size (w h : Z) : nat :=
  Z.to_nat (((w + 1) / 2) * ((h + 1) / 2)).

(** The values of the interface [image.Image] that the package builds, and
    the images that the [imaging] library returns. *)
Inductive Image :=
| ImageYCbCr (img : YCbCr)
| ImageRGBA (img : RGBA)
| ImageRGB (img : RGB)
| ImageNRGBA (pix : list byte) (stride : Z) (r : Rectangle).

End GoImage.

(** ** The external codecs

    [image/jpeg] and [github.com/disintegration/imaging] are collaborators
    of the package; so is the clock.  The pipeline is stated over any
    implementation of them. *)

Inductive ResampleFilter := Lanczos | CatmullRom | Box.

Class Codec := {
  (** [jpeg.Encode(buf, img, opts)]: the bytes written to [buf], or the
      error; [None] stands for [nil] options, [Some q] for
      [&jpeg.Options{Quality: q}]. *)
  jpeg_Encode : GoImage.Image → option Z → list byte + string;
  imaging_Rotate90 : GoImage.Image → GoImage.Image;
  imaging_Rotate180 : GoImage.Image → GoImage.Image;
  imaging_Rotate270 : GoImage.Image → GoImage.Image;
  imaging_Resize : GoImage.Image → Z → Z → ResampleFilter → GoImage.Image;
  (** [time.Since(start)] as [%s] prints it. *)
  time_Since : string
}.

(** ** image.go, earlier revision (the first document of [src/image.go]) *)

Module ImageV1.
Import GoRt GoImage.

(** One iteration of [for i := range frame] in [decodeRGBA]. *)
Definition decodeRGBA_body (frame : list byte) (f : string) (i : nat)
    (rgbabuf : list byte) : option (list byte) :=
  if (i mod 4 =? 0)%nat then
    if String.eqb f "RGB4" then
      v ← frame !! i; rgbabuf ← store rgbabuf i v;
      v ← frame !! (i + 1)%nat; rgbabuf ← store rgbabuf (i + 1) v;
      v ← frame !! (i + 2)%nat; rgbabuf ← store rgbabuf (i + 2) v;
      v ← frame !! (i + 3)%nat; store rgbabuf (i + 3) v
    else if String.eqb f "BGR4" then
      v ← frame !! (i + 2)%nat; rgbabuf ← store rgbabuf i v;
      v ← frame !! (i + 1)%nat; rgbabuf ← store rgbabuf (i + 1) v;
      v ← frame !! i; rgbabuf ← store rgbabuf (i + 2) v;
      v ← frame !! (i + 3)%nat; store rgbabuf (i + 3) v
    else Some rgbabuf
  else Some rgbabuf.

(** [decodeRGBA] up to its call of [encodeJPEG]: the image [rgba] with
    its pixel buffer [rgba.Pix = rgbabuf]. *)
Definition decodeRGBA_image (frame : list byte) (f : string)
    (width height : Z) : option RGBA :=
  rgba ← NewRGBA (Rect 0 0 (int width) (int height));
  rgbabuf ← make (int (int (4 * int width) * int height));
  rgbabuf ← for_range (length frame) (decodeRGBA_body frame f) rgbabuf;
  Some {| Pix := rgbabuf;
          Stride := int (4 * int width);
          RGBARect := RGBARect rgba |}.

(** The loop bodies of the earlier [decodePlanarYUV]: [luma_body] is
    [yuv.Y[i] = frame[i]]; [first_to_Cr] is
    [yuv.Cr[i] = frame[i+len(yuv.Y)]] and [second_to_Cb] is
    [yuv.Cb[i] = frame[i+len(yuv.Y)+len(yuv.Cr)]]. *)
Definition luma_body (frame : list byte) (i : nat) (yuv : YCbCr)
    : option YCbCr :=
  v ← frame !! i; setY yuv i v.
Definition first_to_Cr (frame : list byte) (i : nat) (yuv : YCbCr)
    : option YCbCr :=
  v ← frame !! (i + length (Y yuv))%nat; setCr yuv i v.
Definition second_to_Cb (frame : list byte) (i : nat) (yuv : YCbCr)
    : option YCbCr :=
  v ← frame !! (i + length (Y yuv) + length (Cr yuv))%nat; setCb yuv i v.

(** The loop bodies of the earlier NV12 and NV21 cases, which read
    [frame[i+len(yuv.Y)]] and [frame[i+len(yuv.Y)+1]]. *)
Definition nv12_body (frame : list byte) (i : nat) (yuv : YCbCr)
    : option YCbCr :=
  v ← frame !! (i + length (Y yuv))%nat; yuv ← setCb yuv i v;
  v ← frame !! (i + length (Y yuv) + 1)%nat; setCr yuv i v.
Definition nv21_body (frame : list byte) (i : nat) (yuv : YCbCr)
    : option YCbCr :=
  v ← frame !! (i + length (Y yuv))%nat; yuv ← setCr yuv i v;
  v ← frame !! (i + length (Y yuv) + 1)%nat; setCb yuv i v.

(** The earlier [decodePlanarYUV] up to its call of [encodeJPEG]: the
    image [yuv]. *)
Definition decodePlanarYUV_image (frame : list byte) (f : string)
    (width height : Z) : option YCbCr :=
  yuv ← NewYCbCr (Rect 0 0 (int width) (int height)) YCbCrSubsampleRatio420;
  (* Copy luma plane *)
  yuv ← for_range (length (Y yuv)) (luma_body frame) yuv;
  (* Copy chroma planes in format specific order *)
  if String.eqb f "YU12" then
    yuv ← for_range (length (Cr yuv)) (first_to_Cr frame) yuv;
    for_range (length (Cb yuv)) (second_to_Cb frame) yuv
  else if String.eqb f "YV12" then
    yuv ← for_range (length (Cr yuv)) (first_to_Cr frame) yuv;
    for_range (length (Cb yuv)) (second_to_Cb frame) yuv
  else if String.eqb f "I420" then
    yuv ← for_range (length (Cr yuv)) (first_to_Cr frame) yuv;
    for_range (length (Cb yuv)) (second_to_Cb frame) yuv
  else if String.eqb f "NV12" then
    for_range (length (Cr yuv)) (nv12_body frame) yuv
  else if String.eqb f "NV21" then
    for_range (length (Cr yuv)) (nv21_body frame) yuv
  else Some yuv.

Section WithCodec.
Context `{Codec}.

(** [func encodeJPEG(img image.Image) ([]byte, error)] *)
Definition encodeJPEG (img : Image) : list byte * option string :=
  match jpeg_Encode img None with
  | inr err => ([], Some err)
  | inl readBuf => (readBuf, None)
  end.

(** [func decodeRGBA(frame []byte, f string, width uint32, height uint32)
    ([]byte, error)] *)
Definition decodeRGBA (frame : list byte) (f : string) (width height : Z)
    : option (list byte * option string) :=
  rgba ← decodeRGBA_image frame f width height;
  match encodeJPEG (ImageRGBA rgba) with
  | (_, Some err) => Some ([], Some err)
  | (compressedImage, None) => Some (compressedImage, None)
  end.

(** [func decodePlanarYUV(frame []byte, f string, width uint32,
    height uint32) ([]byte, error)] *)
Definition decodePlanarYUV (frame : list byte) (f : string)
    (width height : Z) : option (list byte * option string) :=
  yuv ← decodePlanarYUV_image frame f width height;
  match encodeJPEG (ImageYCbCr yuv) with
  | (_, Some err) => Some ([], Some err)
  | (compressedImage, None) => Some (compressedImage, None)
  end.
End WithCodec.

End ImageV1.

(** ** image.go, later revision (the second document of [src/image.go]) *)

Module Image.
Import GoRt GoImage.

(** The element type of the global [formats]:
    [func([]byte, string, uint32, uint32) (image.Image, error)]; the
    outer [option] is a panic of the decoder. *)
Definition decoder : Type :=
  list byte → string → Z → Z → option (Image * option string).

Definition packedYUV : list string := ["YUYV"; "YVYU"; "UYVY"; "VYUY"].
Definition planarYUV : list string := ["YU12"; "YV12"; "NV12"; "NV21"].
Definition rgb : list string := ["RGB3"; "BGR3"].
Definition rgba : list string := ["RGB4"; "BGR4"].

(** One iteration of [for i := range yuyv.Cb] in [decodePackedYUV]. *)
Definition decodePackedYUV_body (frame : list byte) (f : string) (i : nat)
    (yuyv : YCbCr) : option YCbCr :=
  let ii := (i * 4)%nat in
  if String.eqb f "YUYV" then
    v ← frame !! ii; yuyv ← setY yuyv (i * 2) v;
    v ← frame !! (ii + 2)%nat; yuyv ← setY yuyv (i * 2 + 1) v;
    v ← frame !! (ii + 1)%nat; yuyv ← setCb yuyv i v;
    v ← frame !! (ii + 3)%nat; setCr yuyv i v
  else if String.eqb f "YVYU" then
    v ← frame !! ii; yuyv ← setY yuyv (i * 2) v;
    v ← frame !! (ii + 2)%nat; yuyv ← setY yuyv (i * 2 + 1) v;
    v ← frame !! (ii + 3)%nat; yuyv ← setCb yuyv i v;
    v ← frame !! (ii + 1)%nat; setCr yuyv i v
  else if String.eqb f "YUNV" then
    v ← frame !! ii; yuyv ← setY yuyv (i * 2) v;
    v ← frame !! (ii + 2)%nat; yuyv ← setY yuyv (i * 2 + 1) v;
    v ← frame !! (ii + 1)%nat; yuyv ← setCb yuyv i v;
    v ← frame !! (ii + 3)%nat; setCr yuyv i v
  else if String.eqb f "VYUY" then
    v ← frame !! (ii + 1)%nat; yuyv ← setY yuyv (i * 2) v;
    v ← frame !! (ii + 3)%nat; yuyv ← setY yuyv (i * 2 + 1) v;
    v ← frame !! (ii + 2)%nat; yuyv ← setCb yuyv i v;
    v ← frame !! ii; setCr yuyv i v
  else if String.eqb f "UYVY" then
    v ← frame !! (ii + 1)%nat; yuyv ← setY yuyv (i * 2) v;
    v ← frame !! (ii + 3)%nat; yuyv ← setY yuyv (i * 2 + 1) v;
    v ← frame !! ii; yuyv ← setCb yuyv i v;
    v ← frame !! (ii + 2)%nat; setCr yuyv i v
  else Some yuyv.

(** [decodePackedYUV] as a function to the concrete image type. *)
Definition decodePackedYUV_image (frame : list byte) (f : string)
    (width height : Z) : option YCbCr :=
  yuyv ← NewYCbCr (Rect 0 0 (int width) (int height)) YCbCrSubsampleRatio422;
  for_range (length (Cb yuyv)) (decodePackedYUV_body frame f) yuyv.

(** [func decodePackedYUV(frame []byte, f string, width uint32,
    height uint32) (image.Image, error)] *)
Definition decodePackedYUV : decoder := λ frame f width height,
  yuyv ← decodePackedYUV_image frame f width height;
  Some (ImageYCbCr yuyv, None).

(** The loop bodies of [decodePlanarYUV].  [luma_body] is
    [yuv.Y[i] = frame[i]]; the chroma bodies are named after the plane
    they read, [first] for [frame[i+len(yuv.Y)]] and [second] for
    [frame[i+len(yuv.Y)+len(yuv.Cr)]], and the plane they write. *)
Definition luma_body (frame : list byte) (i : nat) (yuv : YCbCr)
    : option YCbCr :=
  v ← frame !! i; setY yuv i v.
Definition first_to_Cb (frame : list byte) (i : nat) (yuv : YCbCr)
    : option YCbCr :=
  v ← frame !! (i + length (Y yuv))%nat; setCb yuv i v.
Definition first_to_Cr (frame : list byte) (i : nat) (yuv : YCbCr)
    : option YCbCr :=
  v ← frame !! (i + length (Y yuv))%nat; setCr yuv i v.
Definition second_to_Cb (frame : list byte) (i : nat) (yuv : YCbCr)
    : option YCbCr :=
  v ← frame !! (i + length (Y yuv) + length (Cr yuv))%nat; setCb yuv i v.
Definition second_to_Cr (frame : list byte) (i : nat) (yuv : YCbCr)
    : option YCbCr :=
  v ← frame !! (i + length (Y yuv) + length (Cr yuv))%nat; setCr yuv i v.

(** The loop bodies of the interleaved formats NV12 and NV21. *)
Definition nv12_body (frame : list byte) (i : nat) (yuv : YCbCr)
    : option YCbCr :=
  let ii := (2 * i)%nat in
  v ← frame !! (length (Y yuv) + ii)%nat; yuv ← setCb yuv i v;
  v ← frame !! (length (Y yuv) + ii + 1)%nat; setCr yuv i v.
Definition nv21_body (frame : list byte) (i : nat) (yuv : YCbCr)
    : option YCbCr :=
  let ii := (2 * i)%nat in
  v ← frame !! (length (Y yuv) + ii + 1)%nat; yuv ← setCb yuv i v;
  v ← frame !! (length (Y yuv) + ii)%nat; setCr yuv i v.

(** [decodePlanarYUV] as a function to the concrete image type. *)
Definition decodePlanarYUV_image (frame : list byte) (f : string)
    (width height : Z) : option YCbCr :=
  yuv ← NewYCbCr (Rect 0 0 (int width) (int height)) YCbCrSubsampleRatio420;
  (* Copy luma plane *)
  yuv ← for_range (length (Y yuv)) (luma_body frame) yuv;
  (* Copy chroma planes in format specific order *)
  if String.eqb f "YU12" then
    yuv ← for_range (length (Cr yuv)) (first_to_Cb frame) yuv;
    for_range (length (Cb yuv)) (second_to_Cr frame) yuv
  else if String.eqb f "YV12" then
    yuv ← for_range (length (Cb yuv)) (first_to_Cr frame) yuv;
    for_range (length (Cr yuv)) (second_to_Cb frame) yuv
  else if String.eqb f "I420" then
    yuv ← for_range (length (Cb yuv)) (first_to_Cb frame) yuv;
    for_range (length (Cr yuv)) (second_to_Cr frame) yuv
  else if String.eqb f "NV12" then
    for_range (length (Cr yuv)) (nv12_body frame) yuv
  else if String.eqb f "NV21" then
    for_range (length (Cr yuv)) (nv21_body frame) yuv
  else Some yuv.

(** [func decodePlanarYUV(frame []byte, f string, width uint32,
    height uint32) (image.Image, error)] *)
Definition decodePlanarYUV : decoder := λ frame f width height,
  yuv ← decodePlanarYUV_image frame f width height;
  Some (ImageYCbCr yuv, None).

(** One iteration of [for i := range frame] in [decodeRGB]. *)
Definition decodeRGB_body (frame : list byte) (f : string) (i : nat)
    (pix : list byte) : option (list byte) :=
  if (i mod 3 =? 0)%nat then
    if String.eqb f "RGB3" then
      v ← frame !! i; pix ← store pix i v;
      v ← frame !! (i + 1)%nat; pix ← store pix (i + 1) v;
      v ← frame !! (i + 2)%nat; store pix (i + 2) v
    else if String.eqb f "BGR3" then
      v ← frame !! (i + 2)%nat; pix ← store pix i v;
      v ← frame !! (i + 1)%nat; pix ← store pix (i + 1) v;
      v ← frame !! i; store pix (i + 2) v
    else Some pix
  else Some pix.

(** [func decodeRGB(frame []byte, f string, width uint32, height uint32)
    (image.Image, error)] *)
Definition decodeRGB : decoder := λ frame f width height,
  rgb ← NewRGB (Rect 0 0 (int width) (int height));
  pix ← for_range (length frame) (decodeRGB_body frame f) (RGBPix rgb);
  Some (ImageRGB {| RGBPix := pix; RGBStride := RGBStride rgb;
                    RGBRect := RGBRect rgb |}, None).

(** One iteration of [for i := range frame] in [decodeRGBA]. *)
Definition decodeRGBA_body (frame : list byte) (f : string) (i : nat)
    (rgbabuf : list byte) : option (list byte) :=
  if (i mod 4 =? 0)%nat then
    if String.eqb f "RGB4" then
      v ← frame !! (i + 2)%nat; rgbabuf ← store rgbabuf i v;
      v ← frame !! (i + 1)%nat; rgbabuf ← store rgbabuf (i + 1) v;
      v ← frame !! i; rgbabuf ← store rgbabuf (i + 2) v;
      v ← frame !! (i + 3)%nat; store rgbabuf (i + 3) v
    else if String.eqb f "BGR4" then
      v ← frame !! i; rgbabuf ← store rgbabuf i v;
      v ← frame !! (i + 1)%nat; rgbabuf ← store rgbabuf (i + 1) v;
      v ← frame !! (i + 2)%nat; rgbabuf ← store rgbabuf (i + 2) v;
      v ← frame !! (i + 3)%nat; store rgbabuf (i + 3) v
    else Some rgbabuf
  else Some rgbabuf.

(** [decodeRGBA] as a function to the concrete image type. *)
Definition decodeRGBA_image (frame : list byte) (f : string)
    (width height : Z) : option RGBA :=
  rgba ← NewRGBA (Rect 0 0 (int width) (int height));
  rgbabuf ← make (int (int (4 * int width) * int height));
  rgbabuf ← for_range (length frame) (decodeRGBA_body frame f) rgbabuf;
  Some {| Pix := rgbabuf;
          Stride := int (4 * int width);
          RGBARect := RGBARect rgba |}.

(** [func decodeRGBA(frame []byte, f string, width uint32, height uint32)
    (image.Image, error)] *)
Definition decodeRGBA : decoder := λ frame f width height,
  rgba ← decodeRGBA_image frame f width height;
  Some (ImageRGBA rgba, None).

(** [func init()]: the value of the global [formats] after package
    initialisation.  Each loop [for _, format := range names
    { formats[format] = d }] is a left fold of insertions. *)
Definition register (d : decoder) (names : list string)
    (formats : gmap string decoder) : gmap string decoder :=
  foldl (λ formats format, <[format := d]> formats) formats names.

Definition init : gmap string decoder :=
  let formats := ∅ in
  let formats := register decodePackedYUV packedYUV formats in
  let formats := register decodePlanarYUV planarYUV formats in
  let formats := register decodeRGB rgb formats in
  let formats := register decodeRGBA rgba formats in
  formats.

Section WithCodec.
Context `{Codec}.

(** [func rotateImage(img image.Image, rotation string) image.Image] *)
Definition rotateImage (img : Image) (rotation : string) : Image :=
  if existsb (String.eqb rotation)
       ["90"; "90CW"; "90cw"; "270ccw"; "270CCW"] then
    imaging_Rotate90 img
  else if existsb (String.eqb rotation)
       ["180"; "180cw"; "180CW"; "180ccw"; "180CCW"] then
    imaging_Rotate180 img
  else if existsb (String.eqb rotation)
       ["270"; "270CW"; "270cw"; "90ccw"; "90CCW"] then
    imaging_Rotate270 img
  else img.

(** [func resizeImage(img image.Image, width int, height int,
    quality uint32) image.Image] *)
Definition resizeImage (img : Image) (width height quality : Z) : Image :=
  if 75 <=? quality then imaging_Resize img width height Lanczos
  else if 50 <=? quality then imaging_Resize img width height CatmullRom
  else imaging_Resize img width height Box.

(** [func encodeJPEG(img image.Image, quality uint32) ([]byte, error)] *)
Definition encodeJPEG (img : Image) (quality : Z)
    : list byte * option string :=
  match jpeg_Encode img (Some (int quality)) with
  | inr err => ([], Some err)
  | inl readBuf => (readBuf, None)
  end.

(** [func CompressionAvailable(format string) bool] *)
Definition CompressionAvailable (formats : gmap string decoder)
    (format : string) : bool :=
  match formats !! format with
  | Some _ => true
  | None => false
  end.

(** The three results of [Compress] that carry an error. *)
Definition UnsupportedFormatError (format : string) : string :=
  "format " +:+ format +:+ " is not supported by this encoder".
Definition CompressionInputError : string := "input error".

(** [func Compress(frame []byte, format string, width uint32,
    height uint32, quality uint32, rotation string, rwidth int,
    rheight int) ([]byte, string, error)], reading the global [formats].
    The result is [None] when the selected decoder panics. *)
Definition Compress (formats : gmap string decoder) (frame : list byte)
    (format : string) (width height quality : Z) (rotation : string)
    (rwidth rheight : Z) : option (list byte * string * option string) :=
  (* Check we actually support this format *)
  match formats !! format with
  | None =>
      if String.eqb format "JPEG" || String.eqb format "MJPG" then
        Some (frame,
              "hardware compressed " +:+ format +:+ " of length "
                +:+ pretty (length frame) +:+ "; resolution "
                +:+ pretty width +:+ " x " +:+ pretty height,
              None)
      else
        Some ([], "error encoding", Some (UnsupportedFormatError format))
  | Some encoder =>
      (* Make sure the input values are sane *)
      if (width <=? 10) || (height <=? 10)
         || (length frame <=? 10)%nat then
        Some ([], "error encoding", Some CompressionInputError)
      else
        '(decodedImage, err) ← encoder frame format width height;
        match err with
        | Some err => Some ([], "error encoding", Some err)
        | None =>
            (* Rotate *)
            let decodedImage := rotateImage decodedImage rotation in
            (* Resize *)
            let decodedImage :=
              if negb (rwidth =? 0) then
                resizeImage decodedImage rwidth rheight quality
              else decodedImage in
            (* Compress to jpeg *)
            match encodeJPEG decodedImage quality with
            | (_, Some err) => Some ([], "error compressing", Some err)
            | (compressedImage, None) =>
                Some (compressedImage,
                      "Encoded image format " +:+ format +:+ "; length "
                        +:+ pretty (length frame) +:+ "; resolution "
                        +:+ pretty width +:+ " x " +:+ pretty height
                        +:+ "; to jpeg of length "
                        +:+ pretty (length compressedImage) +:+ " in "
                        +:+ time_Since,
                      None)
            end
        end
  end.
End WithCodec.

(** For the two tags of the later [decodeRGBA], the offsets in a frame
    pixel of the bytes that go to the bytes 0, 1, 2 and 3 of the image
    pixel. *)
Definition rgba_order (f : string) : option (nat * nat * nat * nat) :=
  if String.eqb f "RGB4" then Some (2, 1, 0, 3)%nat
  else if String.eqb f "BGR4" then Some (0, 1, 2, 3)%nat
  else None.

(** One case of the [switch] of [decodeRGBA], with the offsets as
    parameters. *)
Definition rgba_pixel (frame : list byte) (o0 o1 o2 o3 : nat) (i : nat)
    (rgbabuf : list byte) : option (list byte) :=
  if (i mod 4 =? 0)%nat then
    v ← frame !! (i + o0)%nat; rgbabuf ← store rgbabuf i v;
    v ← frame !! (i + o1)%nat; rgbabuf ← store rgbabuf (i + 1) v;
    v ← frame !! (i + o2)%nat; rgbabuf ← store rgbabuf (i + 2) v;
    v ← frame !! (i + o3)%nat; store rgbabuf (i + 3) v
  else Some rgbabuf.

(** The state of the loop of [decodeRGBA] after the indices below [k]: the
    buffer keeps its length [l], the pixels that start below [k] are in
    place, and the bytes from the next pixel on are still zero. *)
Definition pixels_done (frame : list byte) (o0 o1 o2 o3 : nat) (l : nat)
    (k : nat) (buf : list byte) : Prop :=
  length buf = l
  ∧ (∀ p : nat, (4 * p < k)%nat →
       buf !! (4 * p)%nat = frame !! (4 * p + o0)%nat
       ∧ buf !! (4 * p + 1)%nat = frame !! (4 * p + o1)%nat
       ∧ buf !! (4 * p + 2)%nat = frame !! (4 * p + o2)%nat
       ∧ buf !! (4 * p + 3)%nat = frame !! (4 * p + o3)%nat)
  ∧ (∀ j : nat, (j < l)%nat →
       (∀ p : nat, (4 * p < k)%nat → (4 * p + 4 ≤ j)%nat) →
       buf !! j = Some x00).

(** For the two tags of [decodeRGB], the offsets in a frame pixel of the
    bytes that go to the bytes 0, 1 and 2 of the image pixel. *)
Definition rgb_order (f : string) : option (nat * nat * nat) :=
  if String.eqb f "RGB3" then Some (0, 1, 2)%nat
  else if String.eqb f "BGR3" then Some (2, 1, 0)%nat
  else None.

(** One case of the [switch] of [decodeRGB], with the offsets as
    parameters. *)
Definition rgb_pixel (frame : list byte) (o0 o1 o2 : nat) (i : nat)
    (pix : list byte) : option (list byte) :=
  if (i mod 3 =? 0)%nat then
    v ← frame !! (i + o0)%nat; pix ← store pix i v;
    v ← frame !! (i + o1)%nat; pix ← store pix (i + 1) v;
    v ← frame !! (i + o2)%nat; store pix (i + 2) v
  else Some pix.

(** The state of the loop of [decodeRGB] after the indices below [k]: the
    buffer keeps its length [l], the pixels that start below [k] are in
    place, and the bytes from the next pixel on are still zero. *)
Definition triples_done (frame : list byte) (o0 o1 o2 : nat) (l : nat)
    (k : nat) (buf : list byte) : Prop :=
  length buf = l
  ∧ (∀ p : nat, (3 * p < k)%nat →
       buf !! (3 * p)%nat = frame !! (3 * p + o0)%nat
       ∧ buf !! (3 * p + 1)%nat = frame !! (3 * p + o1)%nat
       ∧ buf !! (3 * p + 2)%nat = frame !! (3 * p + o2)%nat)
  ∧ (∀ j : nat, (j < l)%nat →
       (∀ p : nat, (3 * p < k)%nat → (3 * p + 3 ≤ j)%nat) →
       buf !! j = Some x00).

(** The plane lengths [(ly, lc, lc)], which every loop body of the planar
    decoder keeps. *)
Definition sized (ly lc : nat) (s : YCbCr) : Prop :=
  length (Y s) = ly ∧ length (Cb s) = lc ∧ length (Cr s) = lc.

(** The state of the NV12 loop after the pairs below [k]: the luma plane
    [y] is untouched, and every chroma pair below [k] is in place. *)
Definition pairs_done (frame : list byte) (y : list byte) (lc : nat)
    (k : nat) (s : YCbCr) : Prop :=
  Y s = y ∧ length (Cb s) = lc ∧ length (Cr s) = lc
  ∧ ∀ i : nat, (i < k)%nat →
      Cb s !! i = frame !! (length y + 2 * i)%nat
      ∧ Cr s !! i = frame !! (length y + 2 * i + 1)%nat.

(** The byte offsets, inside a four-byte group, of the two luma samples, of
    Cb and of Cr, for the tags that [decodePackedYUV] has a case for. *)
Definition packed_offsets (f : string) : option (nat * nat * nat * nat) :=
  if String.eqb f "YUYV" then Some (0, 2, 1, 3)%nat
  else if String.eqb f "YVYU" then Some (0, 2, 3, 1)%nat
  else if String.eqb f "YUNV" then Some (0, 2, 1, 3)%nat
  else if String.eqb f "VYUY" then Some (1, 3, 2, 0)%nat
  else if String.eqb f "UYVY" then Some (1, 3, 0, 2)%nat
  else None.

(** One case of the [switch] of [decodePackedYUV], with the offsets as
    parameters. *)
Definition packed_group (frame : list byte) (y0 y1 cb cr : nat) (i : nat)
    (yuyv : YCbCr) : option YCbCr :=
  v ← frame !! (i * 4 + y0)%nat; yuyv ← setY yuyv (i * 2) v;
  v ← frame !! (i * 4 + y1)%nat; yuyv ← setY yuyv (i * 2 + 1) v;
  v ← frame !! (i * 4 + cb)%nat; yuyv ← setCb yuyv i v;
  v ← frame !! (i * 4 + cr)%nat; setCr yuyv i v.

(** The number of four-byte groups of a [w]x[h] image in 4:2:2:
    [ceil(w/2) * h]. *)
Definition group_count (w h : Z) : nat := Z.to_nat (((w + 1) / 2) * h).

(** The state of the packed decoder after the groups below [k]: the planes
    keep the lengths [ly] and [lc], and every group below [k] is in
    place. *)
Definition groups_done (frame : list byte) (y0 y1 cb cr : nat)
    (ly lc : nat) (k : nat) (s : YCbCr) : Prop :=
  length (Y s) = ly ∧ length (Cb s) = lc ∧ length (Cr s) = lc
  ∧ ∀ i : nat, (i < k)%nat →
      Y s !! (i * 2)%nat = frame !! (i * 4 + y0)%nat
      ∧ Y s !! (i * 2 + 1)%nat = frame !! (i * 4 + y1)%nat
      ∧ Cb s !! i = frame !! (i * 4 + cb)%nat
      ∧ Cr s !! i = frame !! (i * 4 + cr)%nat.

End Image.

(** ** webcam.go *)

Module Webcam.

(** A [[]byte] over mapped device memory: the slice header that [gobytes]
    builds from the mapping's address and length.  The [nil] slice is
    the zero header. *)
Record Slice := { Data : Z; Len : Z; Cap : Z }.

Definition nil_slice : Slice := {| Data := 0; Len := 0; Cap := 0 |}.

(** The calls into the V4L2 transport, as the kernel observes them. *)
Inductive Call :=
| CallSetImageFormat (fd code width height : Z)
| CallRequestBuffers (fd count : Z)
| CallQueryBuffer (fd index : Z)
| CallEnqueueBuffer (fd index : Z)
| CallStartStreaming (fd : Z)
| CallStopStreaming (fd : Z)
| CallReleaseBuffer (buffer : Slice).

(** The transport functions of the package that [webcam.go] calls, over a
    device state [K].  An argument passed by pointer comes back as a
    component of the result: the value the transport left in it.  An
    error is [Some] of its text. *)
Class Transport (K : Type) := {
  (** [setImageFormat(fd, &code, &width, &height) error] *)
  setImageFormat : Z → Z → Z → Z → K → (option string * (Z * Z * Z)) * K;
  (** [mmapRequestBuffers(fd, &count) error] *)
  mmapRequestBuffers : Z → Z → K → (option string * Z) * K;
  (** [mmapQueryBuffer(fd, index, &length) ([]byte, error)] *)
  mmapQueryBuffer : Z → Z → K → (Slice * option string * Z) * K;
  (** [mmapEnqueueBuffer(fd, index) error] *)
  mmapEnqueueBuffer : Z → Z → K → option string * K;
  (** [startStreaming(fd) error] *)
  startStreaming : Z → K → option string * K;
  (** [stopStreaming(fd) error] *)
  stopStreaming : Z → K → option string * K;
  (** [mmapReleaseBuffer(buffer) error] *)
  mmapReleaseBuffer : Slice → K → option string * K
}.

(** The world outside the session: the device state and the calls made
    so far, oldest first. *)
Record World (K : Type) := { kernel : K; calls : list Call }.
Arguments kernel {K} _.
Arguments calls {K} _.

(** Computations that call the transport. *)
Definition M (K A : Type) : Type := World K → A * World K.

#[global] Instance M_ret {K} : MRet (M K) := λ A a world, (a, world).
#[global] Instance M_bind {K} : MBind (M K) := λ A B f m world,
  let '(a, world') := m world in f a world'.

(** A transport call: record it, run it on the device state. *)
Definition invoke {K A} (c : Call) (op : K → A * K) : M K A := λ world,
  let '(a, k) := op (kernel world) in
  (a, {| kernel := k; calls := calls world ++ [c] |}).

(** [type Camera struct] *)
Record Camera := {
  fd : Z;
  bufcount : Z;
  buffers : list Slice;
  streaming : bool
}.

Definition with_bufcount (n : Z) (w : Camera) : Camera :=
  {| fd := fd w; bufcount := n; buffers := buffers w;
     streaming := streaming w |}.
Definition with_buffers (bs : list Slice) (w : Camera) : Camera :=
  {| fd := fd w; bufcount := bufcount w; buffers := bs;
     streaming := streaming w |}.
Definition with_streaming (b : bool) (w : Camera) : Camera :=
  {| fd := fd w; bufcount := bufcount w; buffers := buffers w;
     streaming := b |}.

(** [func (w *Camera) SetBufferCount(count uint32) error] *)
Definition SetBufferCount (w : Camera) (count : Z)
    : option string * Camera :=
  if streaming w then
    (Some "Cannot set buffer count when streaming", w)
  else
    (None, with_bufcount count w).

Section WithTransport.
Context {K : Type} `{Transport K}.

(** [func (w *Camera) SetImageFormat(f PixelFormat, width, height uint32)
    (PixelFormat, uint32, uint32, error)] *)
Definition SetImageFormat (w : Camera) (f : Formats.PixelFormat)
    (width height : Z) : M K (Z * Z * Z * option string) :=
  let code := uint32 f in
  let cw := width in
  let ch := height in
  '(err, (code, width, height)) ←
    invoke (CallSetImageFormat (fd w) code width height)
           (setImageFormat (fd w) code width height);
  match err with
  | Some err => mret (0, 0, 0, Some err)
  | None => mret (code, cw, ch, None)
  end.

(** The first loop of [StartStreaming]:
    [for index, _ := range w.buffers], mapping each buffer. *)
Fixpoint map_buffers (w : Camera) (idx : list nat)
    : M K (option string * Camera) :=
  match idx with
  | [] => mret (None, w)
  | index :: rest =>
      '(buffer, err, length) ←
        invoke (CallQueryBuffer (fd w) (uint32 (Z.of_nat index)))
               (mmapQueryBuffer (fd w) (uint32 (Z.of_nat index)));
      match err with
      | Some err => mret (Some ("Failed to map memory: " +:+ err), w)
      | None =>
          map_buffers (with_buffers (<[index := buffer]> (buffers w)) w)
                      rest
      end
  end.

(** The second loop of [StartStreaming]: enqueue every buffer. *)
Fixpoint enqueue_buffers (w : Camera) (idx : list nat)
    : M K (option string) :=
  match idx with
  | [] => mret None
  | index :: rest =>
      err ← invoke (CallEnqueueBuffer (fd w) (uint32 (Z.of_nat index)))
                   (mmapEnqueueBuffer (fd w) (uint32 (Z.of_nat index)));
      match err with
      | Some err => mret (Some ("Failed to enqueue buffer: " +:+ err))
      | None => enqueue_buffers w rest
      end
  end.

(** [func (w *Camera) StartStreaming() error] *)
Definition StartStreaming (w : Camera) : M K (option string * Camera) :=
  if streaming w then
    mret (Some "Already streaming", w)
  else
    '(err, count) ← invoke (CallRequestBuffers (fd w) (bufcount w))
                           (mmapRequestBuffers (fd w) (bufcount w));
    let w := with_bufcount count w in
    match err with
    | Some err =>
        mret (Some ("Failed to map request buffers: " +:+ err), w)
    | None =>
        let w :=
          with_buffers (replicate (Z.to_nat (bufcount w)) nil_slice) w in
        '(err, w) ← map_buffers w (seq 0 (length (buffers w)));
        match err with
        | Some err => mret (Some err, w)
        | None =>
            err ← enqueue_buffers w (seq 0 (length (buffers w)));
            match err with
            | Some err => mret (Some err, w)
            | None =>
                err ← invoke (CallStartStreaming (fd w))
                             (startStreaming (fd w));
                match err with
                | Some err =>
                    mret (Some ("Failed to start streaming: " +:+ err), w)
                | None => mret (None, with_streaming true w)
                end
            end
        end
    end.

(** The loop of [StopStreaming]:
    [for _, buffer := range w.buffers], returning at the first error. *)
Fixpoint release_buffers (bs : list Slice) : M K (option string) :=
  match bs with
  | [] => mret None
  | buffer :: rest =>
      err ← invoke (CallReleaseBuffer buffer) (mmapReleaseBuffer buffer);
      match err with
      | Some err => mret (Some err)
      | None => release_buffers rest
      end
  end.

(** [func (w *Camera) StopStreaming() error] *)
Definition StopStreaming (w : Camera) : M K (option string * Camera) :=
  if negb (streaming w) then
    mret (Some "Request to stop streaming when not streaming", w)
  else
    let w := with_streaming false w in
    err ← release_buffers (buffers w);
    match err with
    | Some err => mret (Some err, w)
    | None =>
        err ← invoke (CallStopStreaming (fd w)) (stopStreaming (fd w));
        mret (err, w)
    end.

(** [released bs world world']: starting in [world], the buffers [bs] are
    unmapped one after the other, each call succeeds, and the world is
    then [world']. *)
Inductive released : list Slice → World K → World K → Prop :=
| released_nil (world : World K) : released [] world world
| released_cons (b : Slice) (bs : list Slice) (world world' : World K)
    (k : K) :
    mmapReleaseBuffer b (kernel world) = (None, k) →
    released bs {| kernel := k;
                   calls := calls world ++ [CallReleaseBuffer b] |} world' →
    released (b :: bs) world world'.

End WithTransport.

(** The element type of [queryControls]: [id], [name], [min], [max]. *)
Record control := {
  c_id : Z;
  c_name : string;
  c_min : Z;
  c_max : Z
}.

(** [type Control struct] *)
Record Control := { Name : string; Min : Z; Max : Z }.

(** The error values of [WaitForFrame]: an error of the transport, or
    [new(Timeout)]. *)
Inductive wait_error :=
| WaitFailed (err : string)
| Timeout.

(** The remaining transport functions that [webcam.go] calls, and the two
    system calls of package [unix], over the device state [K]. *)
Class Device (K : Type) := {
  (** [unix.Open(path, unix.O_RDWR|unix.O_NONBLOCK, 0666)] *)
  unix_Open : string → K → (Z * option string) * K;
  (** [unix.Close(fd)] *)
  unix_Close : Z → K → option string * K;
  (** [checkCapabilities(fd) (bool, bool, error)] *)
  checkCapabilities : Z → K → (bool * bool * option string) * K;
  (** [getPixelFormat(fd, index) (uint32, string, error)] *)
  getPixelFormat : Z → Z → K → (Z * string * option string) * K;
  (** [getFrameSize(fd, index, code) (FrameSize, error)] *)
  getFrameSize : Z → Z → Z → K → (Formats.FrameSize * option string) * K;
  (** [queryControls(fd) []control] *)
  queryControls : Z → K → list control * K;
  (** [getControl(fd, id) (int32, error)] *)
  getControl : Z → Z → K → (Z * option string) * K;
  (** [setControl(fd, id, value) error] *)
  setControl : Z → Z → Z → K → option string * K;
  (** [mmapDequeueBuffer(fd, &index, &length) error] *)
  mmapDequeueBuffer : Z → Z → Z → K → (option string * (Z * Z)) * K;
  (** [waitForFrame(fd, timeout) (int, error)] *)
  waitForFrame : Z → Z → K → (Z * option string) * K;
  (** The constant [V4L2_CID_AUTO_WHITE_BALANCE]. *)
  V4L2_CID_AUTO_WHITE_BALANCE : Z
}.

(** A call of [Device]: run it on the device state. *)
Definition lift {K A} (op : K → A * K) : M K A := λ world,
  let '(a, k) := op (kernel world) in
  (a, {| kernel := k; calls := calls world |}).

(** Conversion to [uintptr]: the value modulo [2^64]. *)
Definition uintptr (z : Z) : Z := z mod 2 ^ 64.

(** [b[:length]]: panics when [length] exceeds the capacity. *)
Definition reslice (b : Slice) (length : Z) : option Slice :=
  if (0 <=? length) && (length <=? Cap b) then
    Some {| Data := Data b; Len := length; Cap := Cap b |}
  else None.

Section WithDevice.
Context {K : Type} `{Transport K} `{Device K}.

(** [func Open(path string)], returning a [*Camera] and an [error]; the
    [nil] pointer is [None]. *)
Definition Open (path : string) : M K (option Camera * option string) :=
  '(handle, err) ← lift (unix_Open path);
  let fd := uintptr handle in
  if (fd <? 0) || bool_decide (is_Some err) then mret (None, err)
  else
    '(supportsVideoCapture, supportsVideoStreaming, err) ←
      lift (checkCapabilities fd);
    match err with
    | Some err => mret (None, Some err)
    | None =>
        if negb supportsVideoCapture then
          mret (None, Some "Not a video capture device")
        else if negb supportsVideoStreaming then
          mret (None,
                Some "Device does not support the streaming I/O method")
        else
          mret (Some {| fd := uintptr fd; bufcount := 256; buffers := [];
                        streaming := false |}, None)
    end.

(** The loop of [GetSupportedFormats]:
    [for index = 0; err == nil; index++], leaving at the first error.  The
    loop has no bound of its own; [fuel] bounds the iterations of the
    model, and [None] is "out of fuel". *)
Fixpoint formats_loop (fuel : nat) (w : Camera) (index : Z)
    (result : gmap Z string) : M K (option (gmap Z string)) :=
  match fuel with
  | O => mret None
  | S fuel =>
      '(code, desc, err) ← lift (getPixelFormat (fd w) index);
      match err with
      | Some _ => mret (Some result)
      | None =>
          formats_loop fuel w (uint32 (index + 1)) (<[code := desc]> result)
      end
  end.

(** [func (w *Camera) GetSupportedFormats() map[PixelFormat]string] *)
Definition GetSupportedFormats (fuel : nat) (w : Camera)
    : M K (option (gmap Z string)) :=
  formats_loop fuel w 0 ∅.

(** The loop of [GetSupportedFrameSizes].  Its condition tests an [err]
    that the body shadows, so the loop is left by [break] only. *)
Fixpoint sizes_loop (fuel : nat) (w : Camera) (f : Z) (index : Z)
    (result : list Formats.FrameSize)
    : M K (option (list Formats.FrameSize)) :=
  match fuel with
  | O => mret None
  | S fuel =>
      '(s, err) ← lift (getFrameSize (fd w) index (uint32 f));
      match err with
      | Some _ => mret (Some result)
      | None => sizes_loop fuel w f (uint32 (index + 1)) (result ++ [s])
      end
  end.

(** [func (w *Camera) GetSupportedFrameSizes(f PixelFormat) []FrameSize] *)
Definition GetSupportedFrameSizes (fuel : nat) (w : Camera) (f : Z)
    : M K (option (list Formats.FrameSize)) :=
  sizes_loop fuel w f 0 [].

(** [func (w *Camera) GetControls() map[ControlID]Control] *)
Definition GetControls (w : Camera) : M K (gmap Z Control) :=
  cs ← lift (queryControls (fd w));
  mret (foldl (λ cmap c,
                 <[uint32 (c_id c) :=
                     {| Name := c_name c; Min := c_min c; Max := c_max c |}]>
                   cmap)
              ∅ cs).

(** [func (w *Camera) GetControl(id ControlID) (int32, error)] *)
Definition GetControl (w : Camera) (id : Z) : M K (Z * option string) :=
  lift (getControl (fd w) (uint32 id)).

(** [func (w *Camera) SetControl(id ControlID, value int32) error] *)
Definition SetControl (w : Camera) (id value : Z) : M K (option string) :=
  lift (setControl (fd w) (uint32 id) value).

(** [func (w *Camera) GetFrame() ([]byte, uint32, error)]; [None] is a
    panic of the index or slice expression. *)
Definition GetFrame (w : Camera)
    : M K (option (Slice * Z * option string)) :=
  '(err, (index, length)) ← lift (mmapDequeueBuffer (fd w) 0 0);
  match err with
  | Some err => mret (Some (nil_slice, 0, Some err))
  | None =>
      mret (buffer ← buffers w !! Z.to_nat (GoRt.int index);
            frame ← reslice buffer length;
            Some (frame, index, None))
  end.

(** [func (w *Camera) ReleaseFrame(index uint32) error] *)
Definition ReleaseFrame (w : Camera) (index : Z) : M K (option string) :=
  invoke (CallEnqueueBuffer (fd w) index) (mmapEnqueueBuffer (fd w) index).

(** [func (w *Camera) ReadFrame() ([]byte, error)] *)
Definition ReadFrame (w : Camera) : M K (option (Slice * option string)) :=
  r ← GetFrame w;
  match r with
  | None => mret None
  | Some (result, index, err) =>
      match err with
      | None => _ ← ReleaseFrame w index; mret (Some (result, err))
      | Some _ => mret (Some (result, err))
      end
  end.

(** [func (w *Camera) WaitForFrame(timeout uint32) error] *)
Definition WaitForFrame (w : Camera) (timeout : Z)
    : M K (option wait_error) :=
  '(count, err) ← lift (waitForFrame (fd w) timeout);
  if (count <? 0) || bool_decide (is_Some err) then
    mret (WaitFailed <$> err)
  else if count =? 0 then mret (Some Timeout)
  else mret None.

(** [func (w *Camera) Close() error] *)
Definition Close (w : Camera) : M K (option string * Camera) :=
  w ← (if streaming w then '(_, w) ← StopStreaming w; mret w else mret w);
  err ← lift (unix_Close (GoRt.int (fd w)));
  mret (err, w).

(** [func (w *Camera) SetAutoWhiteBalance(val bool) error] *)
Definition SetAutoWhiteBalance (w : Camera) (val : bool)
    : M K (option string) :=
  let v := if val then 1 else 0 in
  lift (setControl (fd w) V4L2_CID_AUTO_WHITE_BALANCE v).

(** [formats_listed index l world index' world']: from [world], the
    queries at [index], [index+1], ... succeed with the entries of [l], and
    leave the next index [index'] and the world [world']. *)
Inductive formats_listed (w : Camera)
    : Z → list (Z * string) → World K → Z → World K → Prop :=
| formats_listed_nil (index : Z) (world : World K) :
    formats_listed w index [] world index world
| formats_listed_cons (index index' code : Z) (desc : string)
    (l : list (Z * string)) (world world' : World K) (k : K) :
    getPixelFormat (fd w) index (kernel world) = ((code, desc, None), k) →
    formats_listed w (uint32 (index + 1)) l
      {| kernel := k; calls := calls world |} index' world' →
    formats_listed w index ((code, desc) :: l) world index' world'.

(** The same for the frame sizes of the format [f]. *)
Inductive sizes_listed (w : Camera) (f : Z)
    : Z → list Formats.FrameSize → World K → Z → World K → Prop :=
| sizes_listed_nil (index : Z) (world : World K) :
    sizes_listed w f index [] world index world
| sizes_listed_cons (index index' : Z) (s : Formats.FrameSize)
    (l : list Formats.FrameSize) (world world' : World K) (k : K) :
    getFrameSize (fd w) index (uint32 f) (kernel world) = ((s, None), k) →
    sizes_listed w f (uint32 (index + 1)) l
      {| kernel := k; calls := calls world |} index' world' →
    sizes_listed w f index (s :: l) world index' world'.

End WithDevice.

(** The calls that unmap a buffer. *)
Definition is_release (c : Call) : bool :=
  match c with
  | CallReleaseBuffer _ => true
  | _ => false
  end.

(** The [Control] that [GetControls] stores for an element of
    [queryControls]. *)
Definition Control_of (c : control) : Control :=
  {| Name := c_name c; Min := c_min c; Max := c_max c |}.

End Webcam.

(** ** Concrete collaborators used to exercise the statements *)

Module Examples.
Import Webcam.

(** A device that grants at most 640x480 and at most four buffers, maps
    buffer [i] at address [4096 * (i + 1)], and refuses to unmap the
    [nil] slice. *)
#[global] Instance vga_device : Transport unit := {|
  setImageFormat := λ fd code width height k,
    ((None, (code, Z.min width 640, Z.min height 480)), k);
  mmapRequestBuffers := λ fd count k, ((None, Z.min count 4), k);
  mmapQueryBuffer := λ fd index k,
    (({| Data := 4096 * (index + 1); Len := 1024; Cap := 1024 |},
      None, 1024), k);
  mmapEnqueueBuffer := λ fd index k, (None, k);
  startStreaming := λ fd k, (None, k);
  stopStreaming := λ fd k, (None, k);
  mmapReleaseBuffer := λ buffer k,
    (if Data buffer =? 0 then Some "invalid argument" else None, k)
|}.

(** The same device for the rest of the transport: the node
    [/dev/video0] opens as descriptor 3; it lists two formats, one frame
    size and two controls; buffer 1 is ready with 512 bytes; a wait with
    timeout 0 times out. *)
#[global] Instance vga_node : Device unit := {|
  unix_Open := λ path k,
    if String.eqb path "/dev/video0" then ((3, None), k)
    else ((-1, Some "no such file or directory"), k);
  unix_Close := λ fd k, (None, k);
  checkCapabilities := λ fd k, ((true, true, None), k);
  getPixelFormat := λ fd index k,
    if index =? 0 then ((0x56595559, "YUYV 4:2:2", None), k)
    else if index =? 1 then ((0x47504a4d, "Motion-JPEG", None), k)
    else ((0, "", Some "invalid argument"), k);
  getFrameSize := λ fd index code k,
    if index =? 0 then
      (({| Formats.MinWidth := 640; Formats.MaxWidth := 640;
           Formats.StepWidth := 0; Formats.MinHeight := 480;
           Formats.MaxHeight := 480; Formats.StepHeight := 0 |}, None), k)
    else
      (({| Formats.MinWidth := 0; Formats.MaxWidth := 0;
           Formats.StepWidth := 0; Formats.MinHeight := 0;
           Formats.MaxHeight := 0; Formats.StepHeight := 0 |},
        Some "invalid argument"), k);
  queryControls := λ fd k,
    ([ {| c_id := 0x00980900; c_name := "Brightness"; c_min := 0;
          c_max := 255 |};
       {| c_id := 0x0098090c; c_name := "White Balance, Automatic";
          c_min := 0; c_max := 1 |} ], k);
  getControl := λ fd id k, ((0, None), k);
  setControl := λ fd id value k, (None, k);
  mmapDequeueBuffer := λ fd index length k, ((None, (1, 512)), k);
  waitForFrame := λ fd timeout k,
    ((if timeout =? 0 then 0 else 1, None), k);
  V4L2_CID_AUTO_WHITE_BALANCE := 0x0098090c
|}.

(** A device that grants two buffers and fails to map the second. *)
Definition faulty_device : Transport unit := {|
  setImageFormat := λ fd code width height k,
    ((None, (code, width, height)), k);
  mmapRequestBuffers := λ fd count k, ((None, Z.min count 2), k);
  mmapQueryBuffer := λ fd index k,
    if index =? 1 then ((nil_slice, Some "out of memory", 0), k)
    else (({| Data := 4096 * (index + 1); Len := 1024; Cap := 1024 |},
           None, 1024), k);
  mmapEnqueueBuffer := λ fd index k, (None, k);
  startStreaming := λ fd k, (None, k);
  stopStreaming := λ fd k, (None, k);
  mmapReleaseBuffer := λ buffer k, (None, k)
|}.

(** A device whose format query answers YUYV at every index. *)
Definition endless_node : Device unit := {|
  unix_Open := λ path k, ((3, None), k);
  unix_Close := λ fd k, (None, k);
  checkCapabilities := λ fd k, ((true, true, None), k);
  getPixelFormat := λ fd index k, ((0x56595559, "YUYV 4:2:2", None), k);
  getFrameSize := λ fd index code k,
    (({| Formats.MinWidth := 640; Formats.MaxWidth := 640;
         Formats.StepWidth := 0; Formats.MinHeight := 480;
         Formats.MaxHeight := 480; Formats.StepHeight := 0 |}, None), k);
  queryControls := λ fd k, ([], k);
  getControl := λ fd id k, ((0, None), k);
  setControl := λ fd id value k, (None, k);
  mmapDequeueBuffer := λ fd index length k, ((None, (0, 0)), k);
  waitForFrame := λ fd timeout k, ((1, None), k);
  V4L2_CID_AUTO_WHITE_BALANCE := 0x0098090c
|}.

Definition boot : World unit := {| kernel := tt; calls := [] |}.

Definition buffer_at (addr : Z) : Slice :=
  {| Data := addr; Len := 1024; Cap := 1024 |}.

(** A session in the Streaming state whose second buffer is [nil]. *)
Definition streaming_camera : Camera :=
  {| fd := 3; bufcount := 3;
     buffers := [buffer_at 4096; nil_slice; buffer_at 12288];
     streaming := true |}.

(** The session that [StartStreaming] yields on the example device. *)
Definition started_camera : Camera :=
  {| fd := 3; bufcount := 4;
     buffers := [buffer_at 4096; buffer_at 8192; buffer_at 12288;
                 buffer_at 16384];
     streaming := true |}.

Definition idle_camera : Camera :=
  {| fd := 3; bufcount := 256; buffers := []; streaming := false |}.

(** A 2x2 planar 4:2:0 frame: four luma bytes and two chroma planes of one
    byte. *)
Definition planar_2x2 : list byte := [x10; x11; x12; x13; xa0; xb0].

(** One RGBA pixel with four distinct bytes. *)
Definition one_pixel : list byte := [x01; x02; x03; x04].

(** A codec that writes nothing and leaves images as they are. *)
#[global] Instance null_codec : Codec := {|
  jpeg_Encode := λ img opts, inl [];
  imaging_Rotate90 := λ img, img;
  imaging_Rotate180 := λ img, img;
  imaging_Rotate270 := λ img, img;
  imaging_Resize := λ img width height filter, img;
  time_Since := "0s"
|}.

End Examples.

(** * Properties *)

(** ** formats.go: the FourCC round trip *)

Module FormatsSpec.
Import Formats.

Lemma byte_of_ascii_range (c : ascii) : 0 ≤ byte_of_ascii c < 256.
Proof.
  unfold byte_of_ascii. pose proof (N_ascii_bounded c). lia.
Qed.

(** Inside the length, [value[i]] is a byte of the string: the guards of
    [EncodeFormat] keep every index there. *)
Lemma index_in_range (value : string) (i : nat) :
  (i < String.length value)%nat →
  ∃ c : ascii, String.get i value = Some c ∧ index value i = byte_of_ascii c.
Proof.
  unfold index. revert i.
  induction value as [| c value IH]; intros i Hi; cbn [String.length] in Hi.
  - lia.
  - destruct i as [| i]; cbn [String.get].
    + exists c. split; reflexivity.
    + apply IH. lia.
Qed.

(** The code of YUYV, and a byte above [0x7f], which [%c] prints as two
    bytes: the round trip needs the ASCII range. *)
Example EncodeFormat_YUYV : EncodeFormat "YUYV" = 0x56595559.
Proof. reflexivity. Qed.

Example DecodeFormat_YUYV : DecodeFormat 0x56595559 = "YUYV".
Proof. reflexivity. Qed.

Example DecodeFormat_high_byte : String.length (DecodeFormat 0x202020ff) = 5%nat.
Proof. reflexivity. Qed.

Lemma printable_char_range (c : ascii) :
  printable_char c = true → 32 ≤ byte_of_ascii c ≤ 126.
Proof. unfold printable_char. lia. Qed.

(** A shifted value has no bit in common with a value below the shift. *)
Lemma lor_shiftl_add (a b k : Z) :
  0 ≤ k → 0 ≤ a < 2 ^ k → Z.lor a (Z.shiftl b k) = a + b * 2 ^ k.
Proof.
  intros Hk Ha.
  assert (Hdisj : Z.land a (Z.shiftl b k) = 0).
  { apply Z.bits_inj'. intros n Hn.
    rewrite Z.land_spec, Z.bits_0, Z.shiftl_spec by lia.
    destruct (Z.lt_ge_cases n k) as [Hlt | Hge].
    - rewrite (Z.testbit_neg_r b) by lia. apply andb_false_r.
    - rewrite <- (Z.mod_small a (2 ^ k)) by lia.
      rewrite Z.mod_pow2_bits_high by lia. reflexivity. }
  rewrite <- Z.lxor_lor by exact Hdisj.
  rewrite <- Z.add_nocarry_lxor by exact Hdisj.
  rewrite Z.shiftl_mul_pow2 by lia. reflexivity.
Qed.

(** The packed code of four bytes, as a number. *)
Lemma pack_value (a b c d : Z) :
  0 ≤ a < 256 → 0 ≤ b < 256 → 0 ≤ c < 256 → 0 ≤ d < 256 →
  or32 (or32 (or32 (uint32 a) (shl32 (uint32 b) 8)) (shl32 (uint32 c) 16))
       (shl32 (uint32 d) 24)
  = a + b * 2 ^ 8 + c * 2 ^ 16 + d * 2 ^ 24
  ∧ Z.lor (Z.lor (Z.lor a (Z.shiftl b 8)) (Z.shiftl c 16)) (Z.shiftl d 24)
  = a + b * 2 ^ 8 + c * 2 ^ 16 + d * 2 ^ 24.
Proof.
  intros Ha Hb Hc Hd. unfold or32, shl32, uint32.
  rewrite (Z.mod_small a), (Z.mod_small b), (Z.mod_small c),
    (Z.mod_small d) by lia.
  rewrite (Z.mod_small (Z.shiftl b 8)), (Z.mod_small (Z.shiftl c 16)),
    (Z.mod_small (Z.shiftl d 24)) by (rewrite Z.shiftl_mul_pow2; lia).
  rewrite (lor_shiftl_add a b 8) by lia.
  rewrite (lor_shiftl_add (a + b * 2 ^ 8) c 16) by lia.
  rewrite (lor_shiftl_add (a + b * 2 ^ 8 + c * 2 ^ 16) d 24) by lia.
  split; reflexivity.
Qed.

(** The four bytes that [DecodeFormat] extracts from a packed code. *)
Lemma unpack_value (a b c d : Z) :
  0 ≤ a < 256 → 0 ≤ b < 256 → 0 ≤ c < 256 → 0 ≤ d < 256 →
  let code := a + b * 2 ^ 8 + c * 2 ^ 16 + d * 2 ^ 24 in
  uint8 (and32 (uint32 code) 0xff) = a
  ∧ uint8 (and32 (shr32 (uint32 code) 8) 0xff) = b
  ∧ uint8 (and32 (shr32 (uint32 code) 16) 0xff) = c
  ∧ uint8 (and32 (shr32 (uint32 code) 24) 0xff) = d.
Proof.
  intros Ha Hb Hc Hd code. unfold uint8, and32, shr32, uint32.
  change 0xff with (Z.ones 8).
  rewrite !Z.land_ones, !Z.shiftr_div_pow2 by lia.
  rewrite (Z.mod_small code) by (unfold code; lia).
  rewrite !Z.mod_mod by lia.
  unfold code.
  change (2 ^ 8) with 256. change (2 ^ 16) with 65536.
  change (2 ^ 24) with 16777216.
  repeat split; Z.div_mod_to_equations; lia.
Qed.

Lemma Sprintf_c_ascii (c : ascii) :
  byte_of_ascii c < 128 → Sprintf_c (byte_of_ascii c) = String c EmptyString.
Proof.
  intros Hc. unfold Sprintf_c.
  destruct (Z.ltb_spec (byte_of_ascii c) 0x80) as [_ | Hge]; [| lia].
  unfold byte_of_ascii. rewrite N2Z.id, ascii_N_embedding. reflexivity.
Qed.

(** Encoding then decoding four ASCII bytes gives the four characters
    back. *)
Lemma roundtrip4 (c0 c1 c2 c3 : ascii) :
  byte_of_ascii c0 < 128 → byte_of_ascii c1 < 128 →
  byte_of_ascii c2 < 128 → byte_of_ascii c3 < 128 →
  let code :=
    or32 (or32 (or32 (uint32 (byte_of_ascii c0))
                     (shl32 (uint32 (byte_of_ascii c1)) 8))
               (shl32 (uint32 (byte_of_ascii c2)) 16))
         (shl32 (uint32 (byte_of_ascii c3)) 24) in
  DecodeFormat code
  = String c0 (String c1 (String c2 (String c3 EmptyString))).
Proof.
  intros H0 H1 H2 H3 code.
  pose proof (byte_of_ascii_range c0). pose proof (byte_of_ascii_range c1).
  pose proof (byte_of_ascii_range c2). pose proof (byte_of_ascii_range c3).
  unfold code.
  destruct (pack_value (byte_of_ascii c0) (byte_of_ascii c1)
              (byte_of_ascii c2) (byte_of_ascii c3)) as [-> _]; try lia.
  destruct (unpack_value (byte_of_ascii c0) (byte_of_ascii c1)
              (byte_of_ascii c2) (byte_of_ascii c3))
    as (Ea & Eb & Ec & Ed); try lia.
  unfold DecodeFormat. cbv zeta in Ea, Eb, Ec, Ed.
  rewrite Ea, Eb, Ec, Ed.
  rewrite !Sprintf_c_ascii by assumption. reflexivity.
Qed.

Lemma uint8_byte (c : ascii) : uint8 (byte_of_ascii c) = byte_of_ascii c.
Proof.
  unfold uint8. apply Z.mod_small. pose proof (byte_of_ascii_range c). lia.
Qed.

Lemma printable_cons (c : ascii) (s : string) :
  printable (String c s) = true →
  byte_of_ascii c < 128 ∧ printable s = true.
Proof.
  cbn [printable]. intros [Hc Hs]%andb_prop.
  apply printable_char_range in Hc. split; [lia | exact Hs].
Qed.

(** C4: for every string [s] of one to four printable ASCII characters,
    [EncodeFormat s] is the little-endian packing
    [byte0 | byte1<<8 | byte2<<16 | byte3<<24] of the bytes of [s]
    right-padded with spaces to length four, and
    [DecodeFormat (EncodeFormat s)] is that padded string. *)
Theorem EncodeFormat_DecodeFormat_roundtrip (s : string) :
  (1 ≤ String.length s ≤ 4)%nat →
  printable s = true →
  EncodeFormat s
  = Z.lor (Z.lor (Z.lor (index (pad4 s) 0) (Z.shiftl (index (pad4 s) 1) 8))
                 (Z.shiftl (index (pad4 s) 2) 16))
          (Z.shiftl (index (pad4 s) 3) 24)
  ∧ DecodeFormat (EncodeFormat s) = pad4 s.
Proof.
  intros Hlen Hp.
  assert (Hsp : byte_of_ascii " " < 128) by (vm_compute; reflexivity).
  destruct s as [| c0 [| c1 [| c2 [| c3 [| c4 s]]]]];
    cbn [String.length] in Hlen; try lia;
    repeat match goal with
           | Hq : printable (String _ _) = true |- _ =>
               apply printable_cons in Hq; destruct Hq as [? Hq]
           end;
    unfold EncodeFormat, pad4, index, space;
    cbn [String.length Nat.leb Nat.sub spaces String.append String.get];
    rewrite ?uint8_byte;
    (split;
     [ match goal with
       | |- or32 (or32 (or32 (uint32 ?a) (shl32 (uint32 ?b) 8))
                       (shl32 (uint32 ?c) 16)) (shl32 (uint32 ?d) 24) = _ =>
           pose proof (byte_of_ascii_range " ");
           destruct (pack_value a b c d) as [-> <-];
           auto using byte_of_ascii_range
       end
     | apply roundtrip4; assumption ]).
Qed.

(** The tag ["YUV"] is a witness: three printable characters. *)
Lemma EncodeFormat_DecodeFormat_roundtrip_witness :
  DecodeFormat (EncodeFormat "YUV") = "YUV ".
Proof.
  apply (EncodeFormat_DecodeFormat_roundtrip "YUV");
    [cbn; lia | reflexivity].
Defined.

End FormatsSpec.

(** ** image.go: the format registry and the pipeline *)

Module ImageSpec.
Import GoRt GoImage Image Examples.

(** After a registration loop, the registered names map to the decoder and
    every other key is as before. *)
Lemma register_lookup (d : decoder) (names : list string)
    (formats : gmap string decoder) (k : string) :
  register d names formats !! k
  = if decide (k ∈ names) then Some d else formats !! k.
Proof.
  unfold register. revert formats.
  induction names as [| name names IH]; intros formats; cbn [foldl].
  - case_decide; [set_solver | reflexivity].
  - rewrite IH, lookup_insert.
    destruct (decide (k ∈ names)) as [Hin | Hnin].
    + rewrite decide_True by (right; exact Hin). reflexivity.
    + destruct (decide (name = k)) as [-> | Hne].
      * rewrite decide_True by left. reflexivity.
      * rewrite decide_False; [reflexivity |].
        intros [-> | Hin]%elem_of_cons; [apply Hne | apply Hnin]; done.
Qed.

(** The registry after [init]: exactly the twelve listed tags. *)
Lemma init_lookup (format : string) :
  init !! format
  = if decide (format ∈ rgba) then Some decodeRGBA
    else if decide (format ∈ rgb) then Some decodeRGB
    else if decide (format ∈ planarYUV) then Some decodePlanarYUV
    else if decide (format ∈ packedYUV) then Some decodePackedYUV
    else None.
Proof.
  unfold init. cbv zeta. rewrite !register_lookup, lookup_empty.
  reflexivity.
Qed.

Lemma init_YUNV : init !! "YUNV" = None.
Proof. rewrite init_lookup. reflexivity. Qed.

Lemma init_JPEG : init !! "JPEG" = None.
Proof. rewrite init_lookup. reflexivity. Qed.

Lemma init_MJPG : init !! "MJPG" = None.
Proof. rewrite init_lookup. reflexivity. Qed.

Lemma init_YUYV : init !! "YUYV" = Some decodePackedYUV.
Proof. rewrite init_lookup. reflexivity. Qed.

(** *** The packed 4:2:2 decoder *)

(** The decoder itself has a case for YUNV, with the byte order of YUYV. *)
Lemma decodePackedYUV_YUNV_as_YUYV (frame : list byte) (width height : Z) :
  decodePackedYUV frame "YUNV" width height
  = decodePackedYUV frame "YUYV" width height.
Proof. reflexivity. Qed.

(** C3, as the code behaves: [init] registers the four names of
    [packedYUV] only, so [Compress] answers the tag YUNV with the
    unsupported-format error, for every frame and every other argument,
    although [decodePackedYUV] decodes YUNV exactly as it decodes YUYV. *)
Theorem Compress_YUNV_unsupported `{Codec} (frame : list byte)
    (width height quality : Z) (rotation : string) (rwidth rheight : Z) :
  CompressionAvailable init "YUNV" = false
  ∧ Compress init frame "YUNV" width height quality rotation rwidth rheight
    = Some ([], "error encoding",
            Some "format YUNV is not supported by this encoder")
  ∧ decodePackedYUV frame "YUNV" width height
    = decodePackedYUV frame "YUYV" width height.
Proof.
  pose proof init_YUNV as HY.
  unfold CompressionAvailable, Compress, decoder in *. rewrite HY.
  repeat split; reflexivity.
Qed.

(** *** Input validation *)

(** C8: whatever decoder the registry holds for the format, an input with
    width at most 10, height at most 10 or at most 10 bytes is answered
    with [CompressionInputError]; the decoder, which may be any function,
    one that panics included, has no part in the result. *)
Theorem Compress_rejects_small_input `{Codec}
    (formats : gmap string decoder) (encoder : decoder) (frame : list byte)
    (format : string) (width height quality : Z) (rotation : string)
    (rwidth rheight : Z) :
  formats !! format = Some encoder →
  width ≤ 10 ∨ height ≤ 10 ∨ (length frame ≤ 10)%nat →
  Compress formats frame format width height quality rotation rwidth rheight
  = Some ([], "error encoding", Some CompressionInputError).
Proof.
  intros Hfmt Hsmall. unfold Compress, decoder in *. rewrite Hfmt.
  assert ((width <=? 10) || (height <=? 10) || (length frame <=? 10)%nat
          = true) as ->; [| reflexivity].
  destruct Hsmall as [Hw | [Hh | Hl]].
  - apply Z.leb_le in Hw. rewrite Hw. reflexivity.
  - apply Z.leb_le in Hh. rewrite Hh, orb_true_r. reflexivity.
  - apply Nat.leb_le in Hl. rewrite Hl, !orb_true_r. reflexivity.
Qed.

(** A 5x480 YUYV frame, of any content, is a witness for the registry of
    [init]. *)
Lemma Compress_rejects_small_input_witness :
  Compress init (replicate 4800 x00) "YUYV" 5 480 80 "" 0 0
  = Some ([], "error encoding", Some "input error").
Proof.
  apply (Compress_rejects_small_input init decodePackedYUV
           (replicate 4800 x00) "YUYV" 5 480 80 "" 0 0).
  - exact init_YUYV.
  - left. lia.
Defined.

(** *** Hardware-compressed frames *)

(** C9: for the tags JPEG and MJPG, [Compress] returns the input frame
    itself and no error, for every frame, every size and every codec: no
    decoder is looked up, and the rotation, the resize and the JPEG encoder
    have no part in the result. *)
Theorem Compress_passthrough `{Codec} (frame : list byte)
    (width height quality : Z) (rotation : string) (rwidth rheight : Z) :
  Compress init frame "JPEG" width height quality rotation rwidth rheight
  = Some (frame,
          "hardware compressed JPEG of length " +:+ pretty (length frame)
            +:+ "; resolution " +:+ pretty width +:+ " x " +:+ pretty height,
          None)
  ∧ Compress init frame "MJPG" width height quality rotation rwidth rheight
    = Some (frame,
            "hardware compressed MJPG of length " +:+ pretty (length frame)
              +:+ "; resolution " +:+ pretty width +:+ " x "
              +:+ pretty height,
            None).
Proof.
  pose proof init_JPEG as HJ. pose proof init_MJPG as HM.
  unfold Compress, decoder in *. rewrite HJ, HM. split; reflexivity.
Qed.

(** *** The two revisions of the RGBA decoder *)

(** C10 as stated fails on one pixel: for the frame [1, 2, 3, 4] the
    earlier revision keeps the byte order under RGB4 where the later one
    exchanges bytes 0 and 2, and the other way round under BGR4. *)
Lemma decodeRGBA_revisions_differ :
  Pix <$> ImageV1.decodeRGBA_image one_pixel "RGB4" 1 1
    = Some [x01; x02; x03; x04]
  ∧ Pix <$> Image.decodeRGBA_image one_pixel "RGB4" 1 1
    = Some [x03; x02; x01; x04]
  ∧ Pix <$> ImageV1.decodeRGBA_image one_pixel "BGR4" 1 1
    = Some [x03; x02; x01; x04]
  ∧ Pix <$> Image.decodeRGBA_image one_pixel "BGR4" 1 1
    = Some [x01; x02; x03; x04]
  ∧ ¬ (∀ (frame : list byte) (width height : Z),
         ImageV1.decodeRGBA_image frame "RGB4" width height
         = Image.decodeRGBA_image frame "RGB4" width height
         ∧ ImageV1.decodeRGBA_image frame "BGR4" width height
           = Image.decodeRGBA_image frame "BGR4" width height).
Proof.
  do 4 (split; [vm_compute; reflexivity |]).
  intros Hsame.
  destruct (Hsame one_pixel 1 1) as [Hrgb _].
  vm_compute in Hrgb. discriminate Hrgb.
Qed.

(** C10, amended: the later revision exchanged the byte orders of the two
    tags.  For every frame, width and height, panics included, the later
    [decodeRGBA] under RGB4 builds the image that the earlier one builds
    under BGR4, and the later one under BGR4 the image of the earlier one
    under RGB4. *)
Theorem decodeRGBA_revisions_swapped (frame : list byte) (width height : Z) :
  Image.decodeRGBA_image frame "RGB4" width height
  = ImageV1.decodeRGBA_image frame "BGR4" width height
  ∧ Image.decodeRGBA_image frame "BGR4" width height
    = ImageV1.decodeRGBA_image frame "RGB4" width height.
Proof. split; reflexivity. Qed.

(** *** Pixel decode exactness on one 4:2:2 group *)

(** C5: the 2x1 frame [Y0, U, Y1, V] decodes under YUYV to the luma plane
    [Y0, Y1] with [Cb[0] = U] and [Cr[0] = V], and under YVYU to the same
    luma plane with [Cb[0] = V] and [Cr[0] = U]. *)
Theorem decodePackedYUV_2x1 (Y0 U Y1 V : byte) :
  (∃ img : YCbCr,
      decodePackedYUV [Y0; U; Y1; V] "YUYV" 2 1 = Some (ImageYCbCr img, None)
      ∧ Y img = [Y0; Y1] ∧ Cb img = [U] ∧ Cr img = [V])
  ∧ (∃ img : YCbCr,
      decodePackedYUV [Y0; U; Y1; V] "YVYU" 2 1 = Some (ImageYCbCr img, None)
      ∧ Y img = [Y0; Y1] ∧ Cb img = [V] ∧ Cr img = [U]).
Proof.
  split; eexists; (split; [vm_compute; reflexivity |]);
    repeat split; reflexivity.
Qed.

End ImageSpec.

(** ** Reasoning about the decoder loops *)

Module LoopLemmas.
Import GoRt.

Lemma store_Some (buf : list byte) (i : nat) (v : byte) :
  (i < length buf)%nat → store buf i v = Some (<[i := v]> buf).
Proof.
  intros Hi. unfold store.
  destruct (Nat.ltb_spec i (length buf)); [reflexivity | lia].
Qed.

Lemma store_length (buf buf' : list byte) (i : nat) (v : byte) :
  store buf i v = Some buf' → length buf' = length buf.
Proof.
  unfold store. destruct (i <? length buf)%nat; [| discriminate].
  intros [= <-]. apply length_insert.
Qed.

Section Loops.
Context {St : Type}.

(** Pointwise equal bodies give equal loops. *)
Lemma for_each_ext (body body' : nat → St → option St) (idx : list nat) :
  (∀ i s, body i s = body' i s) →
  ∀ s, for_each body idx s = for_each body' idx s.
Proof.
  intros Hext. induction idx as [| i idx IH]; intros s; cbn [for_each].
  - reflexivity.
  - rewrite Hext. destruct (body' i s) as [s' |]; cbn; [apply IH | reflexivity].
Qed.

(** A property preserved by the body holds after the loop. *)
Lemma for_each_inv (I : St → Prop) (body : nat → St → option St)
    (idx : list nat) :
  (∀ i s s', I s → body i s = Some s' → I s') →
  ∀ s s', I s → for_each body idx s = Some s' → I s'.
Proof.
  intros Hstep. induction idx as [| i idx IH]; intros s s' Hs; cbn [for_each].
  - intros [= <-]. exact Hs.
  - destruct (body i s) as [s1 |] eqn:Hb; cbn; [| discriminate].
    apply IH. eapply Hstep; eassumption.
Qed.

(** Two loops whose bodies keep a relation between their states run in
    lock step: both panic, or both finish in related states. *)
Lemma for_each_sim (R : St → St → Prop) (body1 body2 : nat → St → option St)
    (idx : list nat) :
  (∀ i s t, R s t → option_Forall2 R (body1 i s) (body2 i t)) →
  ∀ s t, R s t →
    option_Forall2 R (for_each body1 idx s) (for_each body2 idx t).
Proof.
  intros Hstep. induction idx as [| i idx IH]; intros s t HR; cbn [for_each].
  - constructor. exact HR.
  - destruct (Hstep i s t HR) as [s1 t1 HR1 |]; cbn.
    + apply IH. exact HR1.
    + constructor.
Qed.

(** A copy loop over a plane of the state, when no index is out of range:
    the plane receives the bytes of the frame from the offset on. *)
Section Copy.
Variables (get : St → list byte) (put : list byte → St → St) (off : St → nat).
Variable frame : list byte.
Hypothesis get_put : ∀ l s, get (put l s) = l.
Hypothesis put_put : ∀ l l' s, put l (put l' s) = put l s.
Hypothesis put_get : ∀ s, put (get s) s = s.
Hypothesis off_put :
  ∀ l s, length l = length (get s) → off (put l s) = off s.

Lemma for_each_copy (n : nat) :
  ∀ (a : nat) (s : St),
    (a + n ≤ length (get s))%nat →
    (off s + a + n ≤ length frame)%nat →
    for_each (copy_body get put off frame) (seq a n) s
    = Some (put (take a (get s) ++ take n (drop (a + off s) frame)
                   ++ drop (a + n) (get s)) s).
Proof.
  induction n as [| n IH]; intros a s Hbuf Hframe; cbn [seq for_each].
  - rewrite take_0, app_nil_l, Nat.add_0_r, take_drop, put_get.
    reflexivity.
  - destruct (lookup_lt_is_Some_2 frame (a + off s)) as [v Hv]; [lia |].
    assert (Hstep : copy_body get put off frame a s
                    = Some (put (<[a := v]> (get s)) s)).
    { unfold copy_body. rewrite Hv. cbn [mbind option_bind].
      rewrite store_Some by lia. reflexivity. }
    rewrite Hstep. cbn [mbind option_bind].
    assert (Hlen : length (<[a := v]> (get s)) = length (get s))
      by apply length_insert.
    rewrite IH.
    2:{ rewrite get_put, Hlen. lia. }
    2:{ rewrite off_put by (rewrite Hlen; reflexivity). lia. }
    rewrite put_put, get_put, off_put by (rewrite Hlen; reflexivity).
    do 2 f_equal.
    rewrite (take_S_r _ a v) by (apply list_lookup_insert_eq; lia).
    rewrite take_insert_ge by lia.
    rewrite drop_insert_lt by lia.
    rewrite (drop_S frame v (a + off s)) by exact Hv.
    rewrite <- app_assoc. cbn [app take].
    replace (Datatypes.S a + n)%nat with (a + Datatypes.S n)%nat by lia.
    replace (Datatypes.S a + off s)%nat with (Datatypes.S (a + off s))
      by lia.
    reflexivity.
Qed.

(** The loop over the whole plane. *)
Lemma for_range_copy (s : St) :
  (off s + length (get s) ≤ length frame)%nat →
  for_range (length (get s)) (copy_body get put off frame) s
  = Some (put (take (length (get s)) (drop (off s) frame)) s).
Proof.
  intros Hframe. unfold for_range.
  rewrite for_each_copy by lia.
  rewrite take_0, app_nil_l, !Nat.add_0_l.
  rewrite (drop_ge (get s)) by lia. rewrite app_nil_r. reflexivity.
Qed.

End Copy.
End Loops.

End LoopLemmas.

(** ** image.go: the planar 4:2:0 decoder under YU12 and YV12 *)

Module PlanarSpec.
Import GoRt GoImage Image LoopLemmas.

Lemma int_small (z : Z) : - 2 ^ 63 ≤ z < 2 ^ 63 → int z = z.
Proof. intros Hz. unfold int. rewrite Z.mod_small by lia. lia. Qed.

(** A fresh image has equal (zeroed) chroma planes. *)
Lemma NewYCbCr_chroma (r : Rectangle) (ratio : YCbCrSubsampleRatio)
    (img : YCbCr) :
  NewYCbCr r ratio = Some img → Cb img = Cr img.
Proof.
  unfold NewYCbCr. destruct (yCbCrSize r ratio) as [[[w h] cw] ch].
  destruct (_ <? 0); [discriminate |]. intros [= <-]. reflexivity.
Qed.

(** The planes that [NewYCbCr] allocates for a [w]x[h] image in 4:2:0. *)
Lemma NewYCbCr_420 (w h : Z) :
  0 ≤ w < 2 ^ 32 → 0 ≤ h < 2 ^ 32 →
  w * h + 2 * (((w + 1) / 2) * ((h + 1) / 2)) < 2 ^ 63 →
  ∃ img : YCbCr,
    NewYCbCr (Rect 0 0 (int w) (int h)) YCbCrSubsampleRatio420 = Some img
    ∧ Y img = replicate (Z.to_nat (w * h)) x00
    ∧ Cb img = replicate (Z.to_nat (((w + 1) / 2) * ((h + 1) / 2))) x00
    ∧ Cr img = replicate (Z.to_nat (((w + 1) / 2) * ((h + 1) / 2))) x00.
Proof.
  intros Hw Hh Htotal.
  rewrite !int_small by lia.
  unfold NewYCbCr, Rect.
  destruct (Z.gtb_spec 0 w) as [? | _]; [lia |].
  destruct (Z.gtb_spec 0 h) as [? | _]; [lia |].
  unfold yCbCrSize, Dx, Dy. cbn [MinX MinY MaxX MaxY].
  change (0 `quot` 2) with 0. rewrite !Z.sub_0_r.
  rewrite !Z.quot_div_nonneg by lia.
  set (cw := (w + 1) / 2) in *. set (ch := (h + 1) / 2) in *.
  assert (0 ≤ cw < 2 ^ 32) by (unfold cw; split;
    [apply Z.div_pos | apply Z.div_lt_upper_bound]; lia).
  assert (0 ≤ ch < 2 ^ 32) by (unfold ch; split;
    [apply Z.div_pos | apply Z.div_lt_upper_bound]; lia).
  assert (0 ≤ w * h) by nia. assert (0 ≤ cw * ch) by nia.
  assert (Hm1 : mul3NonNeg 1 w h = w * h).
  { unfold mul3NonNeg.
    destruct (Z.ltb_spec 1 0); [lia |].
    destruct (Z.ltb_spec w 0); [lia |].
    destruct (Z.ltb_spec h 0); [lia |]. cbn [orb].
    destruct (Z.leb_spec (2 ^ 64) (1 * w)); [lia |].
    destruct (Z.leb_spec (2 ^ 64) (1 * w * h)); [lia |].
    destruct (Z.leb_spec (2 ^ 63) (1 * w * h)); lia. }
  assert (Hm2 : mul3NonNeg 2 cw ch = 2 * (cw * ch)).
  { unfold mul3NonNeg.
    destruct (Z.ltb_spec 2 0); [lia |].
    destruct (Z.ltb_spec cw 0); [lia |].
    destruct (Z.ltb_spec ch 0); [lia |]. cbn [orb].
    destruct (Z.leb_spec (2 ^ 64) (2 * cw)); [lia |].
    destruct (Z.leb_spec (2 ^ 64) (2 * cw * ch)); [lia |].
    destruct (Z.leb_spec (2 ^ 63) (2 * cw * ch)); lia. }
  rewrite Hm1, Hm2. unfold add2NonNeg.
  destruct (Z.ltb_spec (w * h) 0); [lia |].
  destruct (Z.ltb_spec (2 * (cw * ch)) 0); [lia |]. cbn [orb].
  destruct (Z.leb_spec (2 ^ 63) (w * h + 2 * (cw * ch))); [lia |].
  destruct (Z.ltb_spec (w * h + 2 * (cw * ch)) 0); [lia |].
  eexists. split; [reflexivity |]. cbn [Y Cb Cr]. auto.
Qed.

Lemma first_plane_mirrored (frame : list byte) (i : nat) (s t : YCbCr) :
  mirrored s t →
  option_Forall2 mirrored (first_to_Cb frame i s) (first_to_Cr frame i t).
Proof.
  intros [-> Hlen]. unfold first_to_Cb, first_to_Cr.
  cbn [swap_chroma Y].
  destruct (frame !! _) as [v |]; cbn; [| constructor].
  unfold setCb, setCr, store. cbn [swap_chroma Cb Cr].
  destruct (i <? length (Cb s))%nat; cbn; constructor.
  split; [reflexivity |]. cbn. rewrite length_insert. exact Hlen.
Qed.

Lemma second_plane_mirrored (frame : list byte) (i : nat) (s t : YCbCr) :
  mirrored s t →
  option_Forall2 mirrored (second_to_Cr frame i s) (second_to_Cb frame i t).
Proof.
  intros [-> Hlen]. unfold second_to_Cr, second_to_Cb.
  cbn [swap_chroma Y Cr]. rewrite Hlen.
  destruct (frame !! _) as [v |]; cbn; [| constructor].
  unfold setCb, setCr, store. cbn [swap_chroma Cb Cr].
  destruct (i <? length (Cr s))%nat; cbn; constructor.
  split; [reflexivity |]. cbn. rewrite length_insert. exact Hlen.
Qed.

Lemma luma_body_chroma (frame : list byte) (i : nat) (s s' : YCbCr) :
  Cb s = Cr s → luma_body frame i s = Some s' → Cb s' = Cr s'.
Proof.
  intros Heq. unfold luma_body, setY.
  destruct (frame !! i) as [v |]; cbn; [| discriminate].
  destruct (store (Y s) i v) as [l |]; cbn; [| discriminate].
  intros [= <-]. exact Heq.
Qed.

(** For every frame and size, panics included, the YV12 run is the YU12
    run with the chroma planes exchanged. *)
Lemma YV12_swaps_YU12 (frame : list byte) (width height : Z) :
  decodePlanarYUV_image frame "YV12" width height
  = swap_chroma <$> decodePlanarYUV_image frame "YU12" width height.
Proof.
  unfold decodePlanarYUV_image.
  destruct (NewYCbCr _ _) as [yuv0 |] eqn:Hnew; cbn; [| reflexivity].
  destruct (for_range (length (Y yuv0)) (luma_body frame) yuv0)
    as [yuv1 |] eqn:Hluma; cbn; [| reflexivity].
  assert (Hchroma : Cb yuv1 = Cr yuv1).
  { eapply (for_each_inv (λ s, Cb s = Cr s)); [| | exact Hluma].
    - intros i s s'. apply luma_body_chroma.
    - eapply NewYCbCr_chroma. exact Hnew. }
  assert (Hm : mirrored yuv1 yuv1).
  { split; [| rewrite Hchroma; reflexivity].
    destruct yuv1; cbn in *. subst. reflexivity. }
  pose proof (for_each_sim mirrored (first_to_Cb frame) (first_to_Cr frame)
                (seq 0 (length (Cr yuv1))) (first_plane_mirrored frame)
                yuv1 yuv1 Hm) as H1.
  unfold for_range. rewrite Hchroma at 1.
  inversion H1 as [a1 b1 Hm1 Ha Hb | Ha Hb]; cbn; [| reflexivity].
  pose proof (for_each_sim mirrored (second_to_Cr frame)
                (second_to_Cb frame) (seq 0 (length (Cb a1)))
                (second_plane_mirrored frame) a1 b1 Hm1) as H2.
  destruct Hm1 as [Hb1 Hlen1].
  replace (length (Cr b1)) with (length (Cb a1))
    by (rewrite Hb1; reflexivity).
  inversion H2 as [a2 b2 [-> _] Ha2 Hb2 | Ha2 Hb2]; cbn; reflexivity.
Qed.

(** The three copy loops of the YU12 case, when the frame is long enough. *)
Lemma luma_loop (frame : list byte) (s : YCbCr) :
  (length (Y s) ≤ length frame)%nat →
  for_range (length (Y s)) (luma_body frame) s
  = Some (with_Y (take (length (Y s)) frame) s).
Proof.
  intros Hlen. unfold for_range.
  rewrite (for_each_ext _ (copy_body Y with_Y (λ _, 0%nat) frame)).
  - apply (for_range_copy Y with_Y (λ _, 0%nat) frame); try reflexivity.
    + intros []; reflexivity.
    + cbn. lia.
  - intros i t. unfold luma_body, copy_body, setY.
    rewrite Nat.add_0_r. reflexivity.
Qed.

Lemma first_to_Cb_loop (frame : list byte) (s : YCbCr) :
  (length (Y s) + length (Cb s) ≤ length frame)%nat →
  for_range (length (Cb s)) (first_to_Cb frame) s
  = Some (with_Cb (take (length (Cb s)) (drop (length (Y s)) frame)) s).
Proof.
  intros Hlen.
  apply (for_range_copy Cb with_Cb (λ s, length (Y s)) frame);
    try reflexivity; [intros []; reflexivity | exact Hlen].
Qed.

Lemma second_to_Cr_loop (frame : list byte) (s : YCbCr) :
  (length (Y s) + length (Cr s) + length (Cr s) ≤ length frame)%nat →
  for_range (length (Cr s)) (second_to_Cr frame) s
  = Some (with_Cr (take (length (Cr s))
                     (drop (length (Y s) + length (Cr s)) frame)) s).
Proof.
  intros Hlen. unfold for_range.
  rewrite (for_each_ext _
             (copy_body Cr with_Cr (λ s, length (Y s) + length (Cr s))%nat
                frame)).
  - apply (for_range_copy Cr with_Cr
             (λ s, length (Y s) + length (Cr s))%nat frame);
      try reflexivity; [intros []; reflexivity | | exact Hlen].
    intros l t Hl. cbn. rewrite Hl. reflexivity.
  - intros i t. unfold second_to_Cr, copy_body, setCr.
    rewrite Nat.add_assoc. reflexivity.
Qed.

(** Under YU12 a long enough frame is decoded without panic: the luma
    plane is the first [w*h] bytes, Cb the chroma plane that follows and Cr
    the one after it. *)
Lemma YU12_planes (frame : list byte) (width height : Z) :
  0 ≤ width < 2 ^ 32 → 0 ≤ height < 2 ^ 32 →
  (luma_size width height + 2 * chroma_size width height
   ≤ length frame)%nat →
  Z.of_nat (length frame) < 2 ^ 63 →
  ∃ yu : YCbCr,
    decodePlanarYUV_image frame "YU12" width height = Some yu
    ∧ Y yu = take (luma_size width height) frame
    ∧ Cb yu = take (chroma_size width height)
                (drop (luma_size width height) frame)
    ∧ Cr yu = take (chroma_size width height)
                (drop (luma_size width height + chroma_size width height)
                   frame).
Proof.
  intros Hw Hh Hframe Hmax. unfold luma_size, chroma_size in *.
  set (cw := (width + 1) / 2) in *. set (ch := (height + 1) / 2) in *.
  assert (0 ≤ cw) by (apply Z.div_pos; lia).
  assert (0 ≤ ch) by (apply Z.div_pos; lia).
  assert (0 ≤ width * height) by nia. assert (0 ≤ cw * ch) by nia.
  destruct (NewYCbCr_420 width height) as (yuv0 & Hnew & HY & HCb & HCr);
    [lia | lia | fold cw ch; lia |].
  fold cw ch in HCb, HCr.
  set (n := Z.to_nat (width * height)) in *.
  set (c := Z.to_nat (cw * ch)) in *.
  unfold decodePlanarYUV_image. rewrite Hnew. cbn [mbind option_bind].
  assert (HlY : length (Y yuv0) = n) by (rewrite HY; apply length_replicate).
  assert (HlCb : length (Cb yuv0) = c)
    by (rewrite HCb; apply length_replicate).
  assert (HlCr : length (Cr yuv0) = c)
    by (rewrite HCr; apply length_replicate).
  rewrite luma_loop by lia. cbn [mbind option_bind String.eqb Ascii.eqb
    Bool.eqb].
  set (yuv1 := with_Y (take (length (Y yuv0)) frame) yuv0).
  assert (HlY1 : length (Y yuv1) = n)
    by (unfold yuv1; cbn [with_Y Y]; rewrite length_take; lia).
  assert (HlCb1 : length (Cb yuv1) = c) by exact HlCb.
  assert (HlCr1 : length (Cr yuv1) = c) by exact HlCr.
  rewrite HlCr1, <- HlCb1.
  rewrite first_to_Cb_loop by lia.
  cbn [mbind option_bind].
  rewrite HlY1, HlCb1.
  set (yuv2 := with_Cb (take c (drop n frame)) yuv1).
  assert (HlY2 : length (Y yuv2) = n) by exact HlY1.
  assert (HlCr2 : length (Cr yuv2) = c) by exact HlCr1.
  assert (HlCb2 : length (Cb yuv2) = c).
  { unfold yuv2. cbn [with_Cb Cb]. rewrite length_take, length_drop. lia. }
  rewrite HlCb2, <- HlCr2.
  rewrite second_to_Cr_loop by lia.
  rewrite HlY2, HlCr2.
  eexists. split; [reflexivity |].
  cbn [with_Cr Y Cb Cr]. unfold yuv2. cbn [with_Cb Y Cb].
  unfold yuv1. cbn [with_Y Y]. rewrite HlY.
  repeat split; reflexivity.
Qed.

(** C6: on a frame that holds the three planes, the decoder returns under
    both tags; under YU12 the Cb plane is the first chroma plane after the
    [w*h] luma bytes and Cr the second, under YV12 Cr is the first and Cb
    the second; so Cb under YU12 is Cr under YV12 and the other way round.
    ([YV12_swaps_YU12] extends the exchange to every frame, the ones on
    which the decoder panics included.) *)
Theorem decodePlanarYUV_YU12_YV12 (frame : list byte) (width height : Z) :
  0 ≤ width < 2 ^ 32 → 0 ≤ height < 2 ^ 32 →
  (luma_size width height + 2 * chroma_size width height
   ≤ length frame)%nat →
  Z.of_nat (length frame) < 2 ^ 63 →
  ∃ yu yv : YCbCr,
    decodePlanarYUV frame "YU12" width height = Some (ImageYCbCr yu, None)
    ∧ decodePlanarYUV frame "YV12" width height = Some (ImageYCbCr yv, None)
    ∧ Y yu = take (luma_size width height) frame
    ∧ Y yv = take (luma_size width height) frame
    ∧ Cb yu = take (chroma_size width height)
                (drop (luma_size width height) frame)
    ∧ Cr yu = take (chroma_size width height)
                (drop (luma_size width height + chroma_size width height)
                   frame)
    ∧ Cr yv = take (chroma_size width height)
                (drop (luma_size width height) frame)
    ∧ Cb yv = take (chroma_size width height)
                (drop (luma_size width height + chroma_size width height)
                   frame)
    ∧ Cb yu = Cr yv
    ∧ Cr yu = Cb yv.
Proof.
  intros Hw Hh Hframe Hmax.
  destruct (YU12_planes frame width height Hw Hh Hframe Hmax)
    as (yu & Hyu & HY & HCb & HCr).
  exists yu, (swap_chroma yu).
  unfold decodePlanarYUV. rewrite YV12_swaps_YU12, Hyu.
  cbn [fmap option_fmap option_map mbind option_bind swap_chroma Y Cb Cr].
  rewrite HY, HCb, HCr. repeat split; reflexivity.
Qed.

(** A 2x2 frame: four luma bytes, then one byte for each chroma plane. *)
Lemma decodePlanarYUV_YU12_YV12_witness :
  ∃ yu yv : YCbCr,
    decodePlanarYUV Examples.planar_2x2 "YU12" 2 2
    = Some (ImageYCbCr yu, None)
    ∧ decodePlanarYUV Examples.planar_2x2 "YV12" 2 2
      = Some (ImageYCbCr yv, None)
    ∧ Cb yu = [xa0] ∧ Cr yu = [xb0] ∧ Cr yv = [xa0] ∧ Cb yv = [xb0].
Proof.
  destruct (decodePlanarYUV_YU12_YV12 Examples.planar_2x2 2 2)
    as (yu & yv & Hyu & Hyv & _ & _ & HCbu & HCru & HCrv & HCbv & _);
    [lia | lia | vm_compute; lia | vm_compute; reflexivity |].
  exists yu, yv. repeat split; assumption.
Defined.

End PlanarSpec.

(** ** webcam.go: format negotiation and the streaming state machine *)

Module WebcamSpec.
Import Webcam Examples.

Section WithTransport.
Context {K : Type} `{Transport K}.

(** What [SetImageFormat] returns on success, for any transport: the code
    that the transport wrote back, with the caller's own width and
    height. *)
Lemma SetImageFormat_success (w : Camera) (f width height : Z)
    (world : World K) (code' width' height' : Z) (k' : K) :
  setImageFormat (fd w) (uint32 f) width height (kernel world)
  = ((None, (code', width', height')), k') →
  fst (SetImageFormat w f width height world) = (code', width, height, None).
Proof.
  intros Hcall. unfold SetImageFormat, mbind, M_bind, invoke.
  rewrite Hcall. reflexivity.
Qed.

(** The unmap loop on a pool whose buffers all unmap. *)
Lemma release_buffers_released (bs : list Slice) (world world' : World K) :
  released bs world world' → release_buffers bs world = (None, world').
Proof.
  induction 1 as [world | b bs world world' k Hcall Hrest IH].
  - reflexivity.
  - cbn [release_buffers]. unfold mbind, M_bind, invoke at 1.
    rewrite Hcall. exact IH.
Qed.

(** The calls of a successful run of the loop: one unmap for each buffer,
    in pool order. *)
Lemma released_calls (bs : list Slice) (world world' : World K) :
  released bs world world' →
  calls world' = calls world ++ map CallReleaseBuffer bs.
Proof.
  induction 1 as [world | b bs world world' k Hcall Hrest IH].
  - cbn [map]. rewrite app_nil_r. reflexivity.
  - rewrite IH. cbn [calls map]. rewrite <- app_assoc. reflexivity.
Qed.

(** The unmap loop stops at the first buffer that fails to unmap. *)
Lemma release_buffers_fails (bs1 bs2 : list Slice) (b : Slice)
    (world world1 : World K) (e : string) (k2 : K) :
  released bs1 world world1 →
  mmapReleaseBuffer b (kernel world1) = (Some e, k2) →
  release_buffers (bs1 ++ b :: bs2) world
  = (Some e, {| kernel := k2;
                calls := calls world1 ++ [CallReleaseBuffer b] |}).
Proof.
  intros Hok Hfail.
  induction Hok as [world | b1 bs world world' k Hcall Hrest IH].
  - cbn [app release_buffers]. unfold mbind, M_bind, invoke at 1.
    rewrite Hfail. reflexivity.
  - cbn [app release_buffers]. unfold mbind, M_bind, invoke at 1.
    rewrite Hcall. apply IH. exact Hfail.
Qed.

(** A successful [StartStreaming] leaves the session Streaming. *)
Lemma StartStreaming_success (w w' : Camera) (world world' : World K) :
  StartStreaming w world = ((None, w'), world') → streaming w' = true.
Proof.
  unfold StartStreaming. destruct (streaming w); [discriminate |].
  unfold mbind, M_bind, invoke, mret, M_ret.
  destruct (mmapRequestBuffers _ _ _) as [[[e1 |] count] k1];
    [discriminate |].
  destruct (map_buffers _ _ _) as [[[e2 |] w2] world2]; [discriminate |].
  destruct (enqueue_buffers _ _ _) as [[e3 |] world3]; [discriminate |].
  destruct (startStreaming _ _) as [[e4 |] k4]; [discriminate |].
  intros [= <- _]. reflexivity.
Qed.

(** C7: the streaming flag gates the operations.  On a Streaming session
    [StartStreaming] fails and leaves the session (buffers and buffer count
    included) and the device as they were, and so does [SetBufferCount]; on
    an Idle session [StopStreaming] fails likewise; and after a successful
    [StartStreaming] a second call fails without any change. *)
Theorem streaming_flag_gates (ws wi : Camera) (world : World K) (count : Z) :
  streaming ws = true →
  streaming wi = false →
  StartStreaming ws world = ((Some "Already streaming", ws), world)
  ∧ SetBufferCount ws count
    = (Some "Cannot set buffer count when streaming", ws)
  ∧ StopStreaming wi world
    = ((Some "Request to stop streaming when not streaming", wi), world)
  ∧ (∀ (w' : Camera) (world' : World K),
       StartStreaming wi world = ((None, w'), world') →
       StartStreaming w' world' = ((Some "Already streaming", w'), world')
       ∧ SetBufferCount w' count
         = (Some "Cannot set buffer count when streaming", w')).
Proof.
  intros Hs Hi. repeat apply conj.
  - unfold StartStreaming. rewrite Hs. reflexivity.
  - unfold SetBufferCount. rewrite Hs. reflexivity.
  - unfold StopStreaming. rewrite Hi. reflexivity.
  - intros w' world' Hstart. apply StartStreaming_success in Hstart.
    unfold StartStreaming, SetBufferCount. rewrite Hstart.
    split; reflexivity.
Qed.

(** C2, amended: on a Streaming session [StopStreaming] sets the state to
    Idle first; it then unmaps the buffers in pool order; at the first
    buffer whose unmapping fails it returns that error, having made no
    further call; when every buffer unmaps it issues the stream-stop call
    and returns its result.  In every case the state is Idle afterwards. *)
Theorem StopStreaming_unmaps_in_order (w : Camera) (world : World K) :
  streaming w = true →
  (∀ (bs1 bs2 : list Slice) (b : Slice) (world1 : World K) (e : string)
     (k2 : K),
     buffers w = bs1 ++ b :: bs2 →
     released bs1 world world1 →
     mmapReleaseBuffer b (kernel world1) = (Some e, k2) →
     StopStreaming w world
     = ((Some e, with_streaming false w),
        {| kernel := k2;
           calls := calls world ++ map CallReleaseBuffer (bs1 ++ [b]) |}))
  ∧ (∀ (world1 : World K) (err : option string) (k2 : K),
       released (buffers w) world world1 →
       stopStreaming (fd w) (kernel world1) = (err, k2) →
       StopStreaming w world
       = ((err, with_streaming false w),
          {| kernel := k2;
             calls := calls world ++ map CallReleaseBuffer (buffers w)
                        ++ [CallStopStreaming (fd w)] |}))
  ∧ streaming (snd (fst (StopStreaming w world))) = false.
Proof.
  intros Hs. unfold StopStreaming. rewrite Hs. cbn [negb].
  unfold mbind, M_bind. cbn [buffers with_streaming fd].
  repeat apply conj.
  - intros bs1 bs2 b world1 e k2 Hpool Hok Hfail. rewrite Hpool.
    rewrite (release_buffers_fails bs1 bs2 b world world1 e k2 Hok Hfail).
    rewrite (released_calls bs1 world world1 Hok).
    rewrite map_app, app_assoc. reflexivity.
  - intros world1 err k2 Hok Hstop.
    rewrite (release_buffers_released _ world world1 Hok).
    unfold invoke. rewrite Hstop.
    rewrite (released_calls _ world world1 Hok), app_assoc. reflexivity.
  - destruct (release_buffers (buffers w) world) as [[e |] world1].
    + reflexivity.
    + destruct (invoke _ _ world1) as [err world2]. reflexivity.
Qed.

End WithTransport.

(** C1, as the code behaves: the device grants 640x480 for a request of
    1920x1080 and writes that back, and [SetImageFormat] returns the
    negotiated code with the requested 1920 and 1080. *)
Theorem SetImageFormat_returns_requested_size :
  setImageFormat 3 (Formats.EncodeFormat "YUYV") 1920 1080 tt
  = ((None, (Formats.EncodeFormat "YUYV", 640, 480)), tt)
  ∧ fst (SetImageFormat idle_camera (Formats.EncodeFormat "YUYV") 1920 1080
           boot)
    = (Formats.EncodeFormat "YUYV", 1920, 1080, None).
Proof. split; vm_compute; reflexivity. Qed.

(** A first [StartStreaming] on the example device succeeds with the four
    granted buffers, so the second-call clause of C7 is not vacuous. *)
Lemma StartStreaming_idle_camera :
  fst (StartStreaming idle_camera boot)
  = (None,
     {| fd := 3; bufcount := 4;
        buffers := [buffer_at 4096; buffer_at 8192; buffer_at 12288;
                    buffer_at 16384];
        streaming := true |}).
Proof. vm_compute. reflexivity. Qed.

(** The guards on the example sessions: one Streaming, one Idle. *)
Lemma streaming_flag_gates_witness :
  StartStreaming streaming_camera boot
  = ((Some "Already streaming", streaming_camera), boot)
  ∧ SetBufferCount streaming_camera 8
    = (Some "Cannot set buffer count when streaming", streaming_camera)
  ∧ StopStreaming idle_camera boot
    = ((Some "Request to stop streaming when not streaming", idle_camera),
       boot).
Proof.
  destruct (streaming_flag_gates streaming_camera idle_camera boot 8)
    as (Hstart & Hcount & Hstop & _); [reflexivity | reflexivity |].
  repeat apply conj; assumption.
Defined.

(** C2 as stated fails: the second buffer of the example session does not
    unmap, the call returns that error, and the session is Idle all the
    same; so the state does not flip exactly when the call succeeds. *)
Lemma StopStreaming_failure_flips_state :
  streaming streaming_camera = true
  ∧ StopStreaming streaming_camera boot
    = ((Some "invalid argument", with_streaming false streaming_camera),
       {| kernel := tt;
          calls := [CallReleaseBuffer (buffer_at 4096);
                    CallReleaseBuffer nil_slice] |})
  ∧ ¬ (∀ (w : Camera) (world : World unit),
         streaming w = true →
         streaming (snd (fst (StopStreaming w world))) = false
         ↔ fst (fst (StopStreaming w world)) = None).
Proof.
  split; [reflexivity |]. split; [vm_compute; reflexivity |].
  intros Hiff.
  destruct (Hiff streaming_camera boot eq_refl) as [Hflip _].
  specialize (Hflip eq_refl). vm_compute in Hflip. discriminate Hflip.
Qed.

(** The example session: the first buffer unmaps, the second does not, the
    third is never passed to the transport, and no stream-stop call is
    made. *)
Lemma StopStreaming_unmaps_in_order_witness :
  StopStreaming streaming_camera boot
  = ((Some "invalid argument", with_streaming false streaming_camera),
     {| kernel := tt;
        calls := [CallReleaseBuffer (buffer_at 4096);
                  CallReleaseBuffer nil_slice] |}).
Proof.
  destruct (StopStreaming_unmaps_in_order streaming_camera boot eq_refl)
    as (Hfail & _ & _).
  apply (Hfail [buffer_at 4096] [buffer_at 12288] nil_slice
           {| kernel := tt; calls := [CallReleaseBuffer (buffer_at 4096)] |}
           "invalid argument" tt).
  - reflexivity.
  - eapply released_cons; [reflexivity | apply released_nil].
  - reflexivity.
Defined.

End WebcamSpec.

(** ** formats.go: further properties of the tags and of [GetString] *)

Module FormatsExtra.
Import Formats FormatsSpec.

Lemma uint8_range (z : Z) : 0 ≤ uint8 z < 256.
Proof. unfold uint8. apply Z.mod_pos_bound. reflexivity. Qed.

(** Every code is the little-endian number of four bytes. *)
Lemma EncodeFormat_value (s : string) :
  ∃ a b c d : Z,
    (0 ≤ a < 256 ∧ 0 ≤ b < 256 ∧ 0 ≤ c < 256 ∧ 0 ≤ d < 256)
    ∧ EncodeFormat s = a + b * 2 ^ 8 + c * 2 ^ 16 + d * 2 ^ 24.
Proof.
  unfold EncodeFormat. cbv zeta.
  assert (Hsp : 0 ≤ space < 256) by (unfold space; apply byte_of_ascii_range).
  set (a := if (1 <=? _)%nat then _ else _).
  set (b := if (2 <=? _)%nat then _ else _).
  set (c := if (3 <=? _)%nat then _ else _).
  set (d := if (4 <=? _)%nat then _ else _).
  assert (Ha : 0 ≤ a < 256)
    by (unfold a; destruct (1 <=? _)%nat; [apply uint8_range | exact Hsp]).
  assert (Hb : 0 ≤ b < 256)
    by (unfold b; destruct (2 <=? _)%nat; [apply uint8_range | exact Hsp]).
  assert (Hc : 0 ≤ c < 256)
    by (unfold c; destruct (3 <=? _)%nat; [apply uint8_range | exact Hsp]).
  assert (Hd : 0 ≤ d < 256)
    by (unfold d; destruct (4 <=? _)%nat; [apply uint8_range | exact Hsp]).
  exists a, b, c, d. split; [auto |].
  destruct (pack_value a b c d Ha Hb Hc Hd) as [-> _]. reflexivity.
Qed.

(** X1: [EncodeFormat] reads at most four bytes: the code of a string is
    the code of its first four bytes, and it is below [2^32] whatever the
    bytes are. *)
Theorem EncodeFormat_first_four (s : string) :
  0 ≤ EncodeFormat s < 2 ^ 32
  ∧ EncodeFormat (first4 s) = EncodeFormat s.
Proof.
  split.
  - destruct (EncodeFormat_value s) as (a & b & c & d & Hr & ->). lia.
  - destruct s as [| c0 [| c1 [| c2 [| c3 s]]]]; reflexivity.
Qed.

Lemma byte_of_ascii_of_byte (v : Z) :
  0 ≤ v < 256 → byte_of_ascii (ascii_of_N (Z.to_N v)) = v.
Proof.
  intros Hv. unfold byte_of_ascii.
  rewrite N_ascii_embedding by lia. lia.
Qed.

(** A [uint32] is the little-endian number of its four bytes. *)
Lemma code_bytes_value (code : Z) :
  0 ≤ code < 2 ^ 32 →
  ∃ a b c d : Z,
    code_bytes code = [a; b; c; d]
    ∧ (0 ≤ a < 256 ∧ 0 ≤ b < 256 ∧ 0 ≤ c < 256 ∧ 0 ≤ d < 256)
    ∧ code = a + b * 2 ^ 8 + c * 2 ^ 16 + d * 2 ^ 24.
Proof.
  intros Hc. unfold code_bytes. change 0xff with (Z.ones 8).
  rewrite !Z.land_ones, !Z.shiftr_div_pow2 by lia.
  do 4 eexists. split; [reflexivity |].
  change (2 ^ 8) with 256. change (2 ^ 16) with 65536.
  change (2 ^ 24) with 16777216. change (2 ^ 32) with 4294967296 in Hc.
  repeat split; Z.div_mod_to_equations; lia.
Qed.

(** What [DecodeFormat] prints for a code with the bytes [a], [b], [c],
    [d]. *)
Lemma DecodeFormat_bytes (a b c d : Z) :
  0 ≤ a < 256 → 0 ≤ b < 256 → 0 ≤ c < 256 → 0 ≤ d < 256 →
  DecodeFormat (a + b * 2 ^ 8 + c * 2 ^ 16 + d * 2 ^ 24)
  = (Sprintf_c a ++ Sprintf_c b ++ Sprintf_c c ++ Sprintf_c d)%string.
Proof.
  intros Ha Hb Hc Hd. unfold DecodeFormat.
  destruct (unpack_value a b c d Ha Hb Hc Hd) as (-> & -> & -> & ->).
  reflexivity.
Qed.

Lemma Sprintf_c_low (v : Z) :
  0 ≤ v < 0x80 → Sprintf_c v = String (ascii_of_N (Z.to_N v)) EmptyString.
Proof.
  intros Hv. unfold Sprintf_c.
  destruct (Z.ltb_spec v 0x80); [reflexivity | lia].
Qed.

Lemma append_single (c : ascii) (s : string) :
  (String c EmptyString ++ s)%string = String c s.
Proof. reflexivity. Qed.

Lemma high_bytes_zero (a b c d : Z) :
  length (filter (λ v, 0x80 ≤ v) [a; b; c; d]) = 0%nat →
  a < 0x80 ∧ b < 0x80 ∧ c < 0x80 ∧ d < 0x80.
Proof.
  rewrite !filter_cons, filter_nil.
  repeat case_decide; cbn [length]; intros; try lia.
Qed.

(** X2: a [uint32] whose four bytes are ASCII is the code of the tag that
    [DecodeFormat] prints for it. *)
Theorem DecodeFormat_EncodeFormat_roundtrip (code : Z) :
  0 ≤ code < 2 ^ 32 →
  high_bytes code = 0%nat →
  EncodeFormat (DecodeFormat code) = code.
Proof.
  intros Hcode Hhigh. unfold high_bytes in Hhigh.
  destruct (code_bytes_value code Hcode)
    as (a & b & c & d & Hbytes & (Ha & Hb & Hc & Hd) & Hval).
  rewrite Hbytes in Hhigh. apply high_bytes_zero in Hhigh.
  destruct Hhigh as (Ha' & Hb' & Hc' & Hd').
  rewrite Hval at 1. rewrite DecodeFormat_bytes by assumption.
  rewrite !Sprintf_c_low by lia.
  rewrite !append_single. unfold EncodeFormat, index.
  cbn [String.length Nat.leb String.get].
  rewrite !uint8_byte, !byte_of_ascii_of_byte by lia.
  destruct (pack_value a b c d Ha Hb Hc Hd) as [-> _].
  symmetry. exact Hval.
Qed.

Lemma DecodeFormat_EncodeFormat_roundtrip_witness :
  EncodeFormat (DecodeFormat 0x47504a4d) = 0x47504a4d.
Proof.
  apply DecodeFormat_EncodeFormat_roundtrip; [lia | reflexivity].
Defined.

Lemma Sprintf_c_length (v : Z) :
  String.length (Sprintf_c v) = if decide (0x80 ≤ v) then 2%nat else 1%nat.
Proof.
  unfold Sprintf_c.
  destruct (Z.ltb_spec v 0x80); case_decide; try lia; reflexivity.
Qed.

Lemma string_length_app (s t : string) :
  String.length (s ++ t) = (String.length s + String.length t)%nat.
Proof.
  induction s as [| c s IH]; [reflexivity |].
  change (S (String.length (s ++ t))
          = S (String.length s + String.length t)).
  rewrite IH. reflexivity.
Qed.

(** X3: the tag that [DecodeFormat] prints has four bytes plus one more for
    every byte of the code that is not ASCII; so it is a four-character tag
    exactly when the code has no such byte. *)
Theorem DecodeFormat_length (code : Z) :
  0 ≤ code < 2 ^ 32 →
  String.length (DecodeFormat code) = (4 + high_bytes code)%nat.
Proof.
  intros Hcode. unfold high_bytes.
  destruct (code_bytes_value code Hcode)
    as (a & b & c & d & Hbytes & (Ha & Hb & Hc & Hd) & Hval).
  rewrite Hbytes. rewrite Hval at 1.
  rewrite DecodeFormat_bytes by assumption.
  rewrite !string_length_app, !Sprintf_c_length.
  rewrite !filter_cons, filter_nil.
  repeat case_decide; reflexivity.
Qed.

Lemma DecodeFormat_length_witness :
  String.length (DecodeFormat 0xff595559) = 5%nat.
Proof.
  apply (DecodeFormat_length 0xff595559). lia.
Defined.

Lemma byte_of_ascii_inj (c c' : ascii) :
  byte_of_ascii c = byte_of_ascii c' → c = c'.
Proof.
  unfold byte_of_ascii. intros Heq%N2Z.inj.
  rewrite <- (ascii_N_embedding c), <- (ascii_N_embedding c'), Heq.
  reflexivity.
Qed.

(** The code of a tag of four characters. *)
Lemma EncodeFormat_four (c0 c1 c2 c3 : ascii) :
  EncodeFormat (String c0 (String c1 (String c2 (String c3 EmptyString))))
  = byte_of_ascii c0 + byte_of_ascii c1 * 2 ^ 8 + byte_of_ascii c2 * 2 ^ 16
    + byte_of_ascii c3 * 2 ^ 24.
Proof.
  unfold EncodeFormat, index. cbn [String.length Nat.leb String.get].
  rewrite !uint8_byte.
  destruct (pack_value (byte_of_ascii c0) (byte_of_ascii c1)
              (byte_of_ascii c2) (byte_of_ascii c3)) as [-> _];
    auto using byte_of_ascii_range.
Qed.

Lemma pad4_four (s : string) :
  (String.length s ≤ 4)%nat →
  ∃ c0 c1 c2 c3 : ascii,
    pad4 s = String c0 (String c1 (String c2 (String c3 EmptyString)))
    ∧ EncodeFormat s = EncodeFormat (pad4 s).
Proof.
  intros Hlen.
  destruct s as [| c0 [| c1 [| c2 [| c3 [| c4 s]]]]];
    cbn [String.length] in Hlen; try lia;
    do 4 eexists; split; reflexivity.
Qed.

(** X4: two tags of at most four characters have the same code exactly
    when they are equal after padding with spaces: the padding is the only
    information that [EncodeFormat] loses on them. *)
Theorem EncodeFormat_eq_iff (s t : string) :
  (String.length s ≤ 4)%nat →
  (String.length t ≤ 4)%nat →
  EncodeFormat s = EncodeFormat t ↔ pad4 s = pad4 t.
Proof.
  intros Hs Ht.
  destruct (pad4_four s Hs) as (a0 & a1 & a2 & a3 & Hps & ->).
  destruct (pad4_four t Ht) as (b0 & b1 & b2 & b3 & Hpt & ->).
  rewrite Hps, Hpt. split; [| intros ->; reflexivity].
  rewrite !EncodeFormat_four. intros Heq.
  pose proof (byte_of_ascii_range a0). pose proof (byte_of_ascii_range a1).
  pose proof (byte_of_ascii_range a2). pose proof (byte_of_ascii_range a3).
  pose proof (byte_of_ascii_range b0). pose proof (byte_of_ascii_range b1).
  pose proof (byte_of_ascii_range b2). pose proof (byte_of_ascii_range b3).
  assert (byte_of_ascii a0 = byte_of_ascii b0) as ->%byte_of_ascii_inj by lia.
  assert (byte_of_ascii a1 = byte_of_ascii b1) as ->%byte_of_ascii_inj by lia.
  assert (byte_of_ascii a2 = byte_of_ascii b2) as ->%byte_of_ascii_inj by lia.
  assert (byte_of_ascii a3 = byte_of_ascii b3) as ->%byte_of_ascii_inj by lia.
  reflexivity.
Qed.

(** The tags ["YUV"] and ["YUV "] share a code. *)
Lemma EncodeFormat_eq_iff_witness :
  EncodeFormat "YUV" = EncodeFormat "YUV " ↔ pad4 "YUV" = pad4 "YUV ".
Proof.
  apply (EncodeFormat_eq_iff "YUV" "YUV "); cbn; lia.
Defined.

(** No decimal numeral starts with an opening bracket. *)
Lemma pretty_N_go_no_bracket (x : N) (s s' : string) :
  s ≠ String "[" s' → pretty_N_go x s ≠ String "[" s'.
Proof.
  revert s. induction (N.lt_wf_0 x) as [x _ IH]. intros s Hs.
  destruct (N.eq_0_gt_0_cases x) as [-> | Hpos].
  - rewrite pretty_N_go_0. exact Hs.
  - rewrite pretty_N_go_step by exact Hpos.
    apply IH; [apply N.div_lt; [exact Hpos | reflexivity] |].
    unfold pretty_N_char. repeat case_match; discriminate.
Qed.

Lemma Sprintf_d_no_bracket (v : Z) (t : string) :
  String.prefix "[" (Sprintf_d v +:+ "x" +:+ t) = false.
Proof.
  unfold Sprintf_d, pretty, pretty_N.
  case_decide as Hz; [reflexivity |].
  pose proof (pretty_N_go_no_bracket (Z.to_N v) "" ) as Hnb.
  destruct (pretty_N_go (Z.to_N v) "") as [| c p]; [reflexivity |].
  change (String c p +:+ "x" +:+ t) with (String c (p +:+ "x" +:+ t)).
  cbn [String.prefix].
  destruct (ascii_dec "[" c) as [<- | _]; [| reflexivity].
  exfalso. apply (Hnb p); [discriminate | reflexivity].
Qed.

(** X5: the two renderings of [GetString] cannot be confused: the text
    starts with an opening bracket exactly when the size is rendered
    stepwise, that is when one of the two steps is not zero. *)
Theorem GetString_bracket (s : FrameSize) :
  String.prefix "[" (GetString s)
  = negb ((StepWidth s =? 0) && (StepHeight s =? 0)).
Proof.
  unfold GetString.
  destruct ((StepWidth s =? 0) && (StepHeight s =? 0)); cbn [negb].
  - apply Sprintf_d_no_bracket.
  - match goal with
    | |- String.prefix _ ("[" +:+ ?rest) = _ =>
        change ("[" +:+ rest) with (String "[" rest)
    end.
    cbn [String.prefix].
    destruct (ascii_dec "[" "[") as [_ | Hne]; [| congruence].
    destruct (_ +:+ _); reflexivity.
Qed.

End FormatsExtra.

(** ** image.go: further properties of the registry and of [Compress] *)

Module CompressExtra.
Import GoRt GoImage Image ImageSpec.

(** The four name lists are disjoint: no registration overwrites an earlier
    one. *)
Lemma families_disjoint (format : string) :
  (format ∈ packedYUV →
   (format ∉ planarYUV) ∧ (format ∉ rgb) ∧ (format ∉ rgba))
  ∧ (format ∈ planarYUV → (format ∉ rgb) ∧ (format ∉ rgba))
  ∧ (format ∈ rgb → format ∉ rgba).
Proof.
  unfold packedYUV, planarYUV, rgb, rgba.
  repeat apply conj; intros Hin;
    repeat (apply elem_of_cons in Hin as [-> | Hin]);
    try (by apply elem_of_nil in Hin);
    repeat apply conj; intros Hin';
    repeat (apply elem_of_cons in Hin' as [? | Hin']);
    try discriminate; by apply elem_of_nil in Hin'.
Qed.

(** Each registered name is bound to the decoder of its own family. *)
Lemma init_dispatch (format : string) :
  init !! format
  = if decide (format ∈ packedYUV) then Some decodePackedYUV
    else if decide (format ∈ planarYUV) then Some decodePlanarYUV
    else if decide (format ∈ rgb) then Some decodeRGB
    else if decide (format ∈ rgba) then Some decodeRGBA
    else None.
Proof.
  pose proof (families_disjoint format) as (Hp & Hl & Hr).
  pose proof (init_lookup format) as Hinit.
  unfold decoder in *. rewrite Hinit.
  repeat case_decide; try reflexivity; exfalso; tauto.
Qed.

(** The tags that [Compress] accepts: the twelve registered names. *)
Lemma init_None (format : string) :
  format ∉ packedYUV ++ planarYUV ++ rgb ++ rgba → init !! format = None.
Proof.
  rewrite !elem_of_app. intros Hnot.
  pose proof (init_dispatch format) as Hinit.
  unfold decoder in *. rewrite Hinit.
  repeat case_decide; try reflexivity; exfalso; tauto.
Qed.

(** X6: the registry that [init] builds.  A tag is available exactly when
    it is one of the twelve listed names, and each name is bound to the
    decoder of its own family. *)
Theorem init_registry (format : string) :
  CompressionAvailable init format
  = bool_decide (format ∈ packedYUV ++ planarYUV ++ rgb ++ rgba)
  ∧ init !! format
    = if decide (format ∈ packedYUV) then Some decodePackedYUV
      else if decide (format ∈ planarYUV) then Some decodePlanarYUV
      else if decide (format ∈ rgb) then Some decodeRGB
      else if decide (format ∈ rgba) then Some decodeRGBA
      else None.
Proof.
  split; [| apply init_dispatch].
  pose proof (init_dispatch format) as Hinit.
  unfold CompressionAvailable, decoder in *. rewrite Hinit.
  repeat case_decide; symmetry;
    (apply bool_decide_eq_true || apply bool_decide_eq_false);
    rewrite !elem_of_app; tauto.
Qed.

Section WithCodec.
Context `{Codec}.

(** X7: every tag other than the twelve registered names and the two
    hardware tags is answered with the unsupported-format error that names
    it, whatever the frame and the sizes are: the tag is checked before the
    frame, and [I420], which [decodePlanarYUV] handles, is among the
    rejected tags. *)
Theorem Compress_unsupported (frame : list byte) (format : string)
    (width height quality : Z) (rotation : string) (rwidth rheight : Z) :
  format ∉ packedYUV ++ planarYUV ++ rgb ++ rgba →
  format ≠ "JPEG" →
  format ≠ "MJPG" →
  Compress init frame format width height quality rotation rwidth rheight
  = Some ([], "error encoding",
          Some ("format " +:+ format
                  +:+ " is not supported by this encoder")).
Proof.
  intros Hnot HJ HM. pose proof (init_None format Hnot) as Hinit.
  unfold Compress, decoder in *. rewrite Hinit.
  apply String.eqb_neq in HJ, HM. rewrite HJ, HM. reflexivity.
Qed.

(** X8: whenever [Compress] returns an error it returns no bytes, and its
    message is one of the two fixed error texts. *)
Theorem Compress_error_no_output (formats : gmap string decoder)
    (frame : list byte) (format : string) (width height quality : Z)
    (rotation : string) (rwidth rheight : Z) (out : list byte)
    (msg err : string) :
  Compress formats frame format width height quality rotation rwidth rheight
  = Some (out, msg, Some err) →
  out = [] ∧ (msg = "error encoding" ∨ msg = "error compressing").
Proof.
  unfold Compress, decoder in *.
  destruct (formats !! format) as [encoder |].
  - destruct (_ || _); [intros Heq; inversion Heq; auto |].
    destruct (encoder frame format width height) as [[img [e |]] |];
      cbn [mbind option_bind];
      [intros Heq; inversion Heq; auto | | discriminate].
    destruct (encodeJPEG _ _) as [bytes [e |]];
      [intros Heq; inversion Heq; auto | discriminate].
  - destruct (_ || _); [discriminate | intros Heq; inversion Heq; auto].
Qed.

End WithCodec.

(** The tag I420 on an empty frame of size zero. *)
Lemma Compress_unsupported_witness :
  Compress init [] "I420" 0 0 0 "" 0 0
  = Some ([], "error encoding",
          Some "format I420 is not supported by this encoder").
Proof.
  apply (Compress_unsupported [] "I420" 0 0 0 "" 0 0);
    [| discriminate | discriminate].
  unfold packedYUV, planarYUV, rgb, rgba. cbn [app].
  intros Hin. repeat (apply elem_of_cons in Hin as [Heq | Hin]);
    try discriminate. by apply elem_of_nil in Hin.
Defined.

(** A frame that is too small: the error comes with no bytes. *)
Lemma Compress_error_no_output_witness :
  Compress init [] "YUYV" 640 480 80 "" 0 0
  = Some ([], "error encoding", Some "input error")
  ∧ ([] : list byte) = []
  ∧ ("error encoding" = "error encoding"
     ∨ "error encoding" = "error compressing").
Proof.
  assert (Hrun : Compress init [] "YUYV" 640 480 80 "" 0 0
                 = Some ([], "error encoding", Some "input error")).
  { pose proof init_YUYV as Hinit.
    unfold Compress, decoder in *. rewrite Hinit. reflexivity. }
  split; [exact Hrun |].
  exact (Compress_error_no_output init [] "YUYV" 640 480 80 "" 0 0
           [] "error encoding" "input error" Hrun).
Defined.

End CompressExtra.

(** ** Further reasoning about the decoder loops *)

Module LoopExtra.
Import GoRt.

(** Membership in a list that is written out. *)
Ltac solve_elem := apply list_elem_of_In; cbn; auto 10.

Section Loops.
Context {St : Type}.

(** A loop over [a, a+n) that keeps an invariant indexed by the number of
    iterations done, and whose body does not panic under it, returns. *)
Lemma for_each_seq_inv (P : nat → St → Prop) (body : nat → St → option St)
    (n : nat) :
  ∀ (a : nat) (s : St),
    P a s →
    (∀ i s, (a ≤ i < a + n)%nat → P i s →
            ∃ s', body i s = Some s' ∧ P (Datatypes.S i) s') →
    ∃ s', for_each body (seq a n) s = Some s' ∧ P (a + n)%nat s'.
Proof.
  induction n as [| n IH]; intros a s Hs Hstep; cbn [seq for_each].
  - exists s. rewrite Nat.add_0_r. auto.
  - destruct (Hstep a s) as (s1 & Hb & Hs1); [lia | exact Hs |].
    rewrite Hb. cbn [mbind option_bind].
    destruct (IH (Datatypes.S a) s1 Hs1) as (s' & Hloop & Hs').
    + intros i t Hi. apply Hstep. lia.
    + exists s'. split; [exact Hloop |].
      replace (a + Datatypes.S n)%nat with (Datatypes.S a + n)%nat by lia.
      exact Hs'.
Qed.

(** A loop panics as soon as one of its iterations panics in every state
    that the loop can reach. *)
Lemma for_each_fails (I : St → Prop) (body : nat → St → option St)
    (idx : list nat) (i0 : nat) :
  (∀ i s s', I s → body i s = Some s' → I s') →
  i0 ∈ idx →
  (∀ t, I t → body i0 t = None) →
  ∀ s, I s → for_each body idx s = None.
Proof.
  intros Hinv Hin Hfail.
  induction idx as [| i idx IH]; intros s Hs; [by apply elem_of_nil in Hin |].
  cbn [for_each]. apply elem_of_cons in Hin as [<- | Hin].
  - rewrite (Hfail s Hs). reflexivity.
  - destruct (body i s) as [s1 |] eqn:Hb; cbn [mbind option_bind];
      [| reflexivity].
    apply (IH Hin). eapply Hinv; eassumption.
Qed.

End Loops.

End LoopExtra.

(** ** image.go: the packed 4:2:2 decoder on frames of any size *)

Module PackedExtra.
Import GoRt GoImage Image LoopLemmas LoopExtra PlanarSpec ImageSpec.

(** The planes of a fresh 4:2:2 image, when [NewYCbCr] returns. *)
Lemma NewYCbCr_422_planes (w h : Z) (img : YCbCr) :
  0 ≤ w < 2 ^ 32 → 0 ≤ h < 2 ^ 32 →
  NewYCbCr (Rect 0 0 (int w) (int h)) YCbCrSubsampleRatio422 = Some img →
  length (Y img) = Z.to_nat (w * h)
  ∧ length (Cb img) = group_count w h
  ∧ length (Cr img) = group_count w h.
Proof.
  intros Hw Hh. rewrite !int_small by lia.
  unfold NewYCbCr, Rect, group_count.
  destruct (Z.gtb_spec 0 w) as [? | _]; [lia |].
  destruct (Z.gtb_spec 0 h) as [? | _]; [lia |].
  unfold yCbCrSize, Dx, Dy. cbn [MinX MinY MaxX MaxY].
  change (0 `quot` 2) with 0. rewrite !Z.sub_0_r.
  rewrite !Z.quot_div_nonneg by lia.
  destruct (_ <? 0); [discriminate |]. intros [= <-].
  cbn [Y Cb Cr]. rewrite !length_replicate. auto.
Qed.

(** [NewYCbCr] returns when the planes fit in an [int]. *)
Lemma NewYCbCr_422_Some (w h : Z) :
  0 ≤ w < 2 ^ 32 → 0 ≤ h < 2 ^ 32 →
  w * h + 2 * (((w + 1) / 2) * h) < 2 ^ 63 →
  is_Some (NewYCbCr (Rect 0 0 (int w) (int h)) YCbCrSubsampleRatio422).
Proof.
  intros Hw Hh Htotal. rewrite !int_small by lia.
  unfold NewYCbCr, Rect.
  destruct (Z.gtb_spec 0 w) as [? | _]; [lia |].
  destruct (Z.gtb_spec 0 h) as [? | _]; [lia |].
  unfold yCbCrSize, Dx, Dy. cbn [MinX MinY MaxX MaxY].
  change (0 `quot` 2) with 0. rewrite !Z.sub_0_r.
  rewrite !Z.quot_div_nonneg by lia.
  set (cw := (w + 1) / 2) in *.
  assert (0 ≤ cw < 2 ^ 32) by (unfold cw; split;
    [apply Z.div_pos | apply Z.div_lt_upper_bound]; lia).
  assert (0 ≤ w * h) by nia. assert (0 ≤ cw * h) by nia.
  assert (Hm1 : mul3NonNeg 1 w h = w * h).
  { unfold mul3NonNeg.
    destruct (Z.ltb_spec 1 0); [lia |].
    destruct (Z.ltb_spec w 0); [lia |].
    destruct (Z.ltb_spec h 0); [lia |]. cbn [orb].
    destruct (Z.leb_spec (2 ^ 64) (1 * w)); [lia |].
    destruct (Z.leb_spec (2 ^ 64) (1 * w * h)); [lia |].
    destruct (Z.leb_spec (2 ^ 63) (1 * w * h)); lia. }
  assert (Hm2 : mul3NonNeg 2 cw h = 2 * (cw * h)).
  { unfold mul3NonNeg.
    destruct (Z.ltb_spec 2 0); [lia |].
    destruct (Z.ltb_spec cw 0); [lia |].
    destruct (Z.ltb_spec h 0); [lia |]. cbn [orb].
    destruct (Z.leb_spec (2 ^ 64) (2 * cw)); [lia |].
    destruct (Z.leb_spec (2 ^ 64) (2 * cw * h)); [lia |].
    destruct (Z.leb_spec (2 ^ 63) (2 * cw * h)); lia. }
  rewrite Hm1, Hm2. unfold add2NonNeg.
  destruct (Z.ltb_spec (w * h) 0); [lia |].
  destruct (Z.ltb_spec (2 * (cw * h)) 0); [lia |]. cbn [orb].
  destruct (Z.leb_spec (2 ^ 63) (w * h + 2 * (cw * h))); [lia |].
  destruct (Z.ltb_spec (w * h + 2 * (cw * h)) 0); [lia |].
  eexists. reflexivity.
Qed.

(** The offsets of a known tag are a permutation of 0, 1, 2, 3, and the
    case of the tag in [decodePackedYUV] is the group copy at them. *)
Lemma packed_offsets_body (frame : list byte) (f : string)
    (y0 y1 cb cr : nat) :
  packed_offsets f = Some (y0, y1, cb, cr) →
  (y0 ≤ 3 ∧ y1 ≤ 3 ∧ cb ≤ 3 ∧ cr ≤ 3)%nat
  ∧ 3%nat ∈ [y0; y1; cb; cr]
  ∧ ∀ i s, decodePackedYUV_body frame f i s
           = packed_group frame y0 y1 cb cr i s.
Proof.
  unfold packed_offsets, decodePackedYUV_body, packed_group.
  repeat (destruct (String.eqb f _);
          [intros [= <- <- <- <-];
           (split; [lia |]); (split; [solve_elem |]);
           intros i s; rewrite ?Nat.add_0_r; reflexivity |]).
  discriminate.
Qed.

Lemma setY_Some (s : YCbCr) (i : nat) (v : byte) :
  (i < length (Y s))%nat → setY s i v = Some (with_Y (<[i := v]> (Y s)) s).
Proof. intros Hi. unfold setY. rewrite store_Some by exact Hi. reflexivity. Qed.

Lemma setCb_Some (s : YCbCr) (i : nat) (v : byte) :
  (i < length (Cb s))%nat →
  setCb s i v = Some (with_Cb (<[i := v]> (Cb s)) s).
Proof.
  intros Hi. unfold setCb. rewrite store_Some by exact Hi. reflexivity.
Qed.

Lemma setCr_Some (s : YCbCr) (i : nat) (v : byte) :
  (i < length (Cr s))%nat →
  setCr s i v = Some (with_Cr (<[i := v]> (Cr s)) s).
Proof.
  intros Hi. unfold setCr. rewrite store_Some by exact Hi. reflexivity.
Qed.

(** One group of the packed decoder, when the frame holds it. *)
Lemma packed_group_step (frame : list byte) (y0 y1 cb cr lc i : nat)
    (s : YCbCr) :
  (y0 ≤ 3 ∧ y1 ≤ 3 ∧ cb ≤ 3 ∧ cr ≤ 3)%nat →
  (i < lc)%nat → (4 * lc ≤ length frame)%nat →
  groups_done frame y0 y1 cb cr (2 * lc) lc i s →
  ∃ s', packed_group frame y0 y1 cb cr i s = Some s'
        ∧ groups_done frame y0 y1 cb cr (2 * lc) lc (Datatypes.S i) s'.
Proof.
  intros Hoff Hi Hframe (HlY & HlCb & HlCr & Hdone).
  destruct (lookup_lt_is_Some_2 frame (i * 4 + y0)) as [v0 Hv0]; [lia |].
  destruct (lookup_lt_is_Some_2 frame (i * 4 + y1)) as [v1 Hv1]; [lia |].
  destruct (lookup_lt_is_Some_2 frame (i * 4 + cb)) as [v2 Hv2]; [lia |].
  destruct (lookup_lt_is_Some_2 frame (i * 4 + cr)) as [v3 Hv3]; [lia |].
  unfold packed_group. rewrite Hv0. cbn [mbind option_bind].
  rewrite setY_Some by lia. cbn [mbind option_bind].
  rewrite Hv1. cbn [mbind option_bind].
  rewrite setY_Some by (cbn [with_Y Y]; rewrite length_insert; lia).
  cbn [mbind option_bind with_Y Y Cb Cr]. rewrite Hv2.
  cbn [mbind option_bind].
  rewrite setCb_Some by (cbn [with_Y Cb]; lia).
  cbn [mbind option_bind with_Y with_Cb Y Cb Cr]. rewrite Hv3.
  cbn [mbind option_bind].
  rewrite setCr_Some by (cbn [with_Cb with_Y Cr]; lia).
  eexists. split; [reflexivity |].
  unfold groups_done. cbn [with_Y with_Cb with_Cr Y Cb Cr].
  rewrite !length_insert. repeat (split; [assumption |]).
  intros j Hj. destruct (decide (j = i)) as [-> | Hne].
  - rewrite list_lookup_insert_ne by lia.
    rewrite !list_lookup_insert_eq by (rewrite ?length_insert; lia).
    auto.
  - rewrite !list_lookup_insert_ne by lia. apply Hdone. lia.
Qed.

(** The whole loop on a frame that holds every group. *)
Lemma packed_loop (frame : list byte) (f : string) (y0 y1 cb cr lc : nat)
    (s : YCbCr) :
  packed_offsets f = Some (y0, y1, cb, cr) →
  length (Y s) = (2 * lc)%nat → length (Cb s) = lc → length (Cr s) = lc →
  (4 * lc ≤ length frame)%nat →
  ∃ s', for_range (length (Cb s)) (decodePackedYUV_body frame f) s = Some s'
        ∧ groups_done frame y0 y1 cb cr (2 * lc) lc lc s'.
Proof.
  intros Hoffs HlY HlCb HlCr Hframe.
  destruct (packed_offsets_body frame f y0 y1 cb cr Hoffs)
    as (Hoff & _ & Hbody).
  unfold for_range. rewrite HlCb.
  rewrite (for_each_ext _ (packed_group frame y0 y1 cb cr)) by exact Hbody.
  destruct (for_each_seq_inv (groups_done frame y0 y1 cb cr (2 * lc) lc)
              (packed_group frame y0 y1 cb cr) lc 0 s)
    as (s' & Hloop & Hdone).
  - repeat (split; [assumption |]). intros i Hi. lia.
  - intros i t Hi. apply packed_group_step; [exact Hoff | lia | exact Hframe].
  - exists s'. auto.
Qed.

(** X9: for each of the five tags of [decodePackedYUV], an image of even
    width and a frame that holds all its four-byte groups are decoded
    without panic, and group [i] of the frame lands where the tag says:
    its two luma bytes at [Y[2i]] and [Y[2i+1]], its chroma bytes at
    [Cb[i]] and [Cr[i]]. *)
Theorem decodePackedYUV_groups (frame : list byte) (f : string)
    (width height : Z) (y0 y1 cb cr : nat) :
  packed_offsets f = Some (y0, y1, cb, cr) →
  0 ≤ width < 2 ^ 32 → 0 ≤ height < 2 ^ 32 →
  Z.even width = true →
  (4 * group_count width height ≤ length frame)%nat →
  Z.of_nat (length frame) < 2 ^ 63 →
  ∃ img : YCbCr,
    decodePackedYUV frame f width height = Some (ImageYCbCr img, None)
    ∧ length (Y img) = Z.to_nat (width * height)
    ∧ length (Cb img) = group_count width height
    ∧ length (Cr img) = group_count width height
    ∧ ∀ i : nat, (i < group_count width height)%nat →
        Y img !! (i * 2)%nat = frame !! (i * 4 + y0)%nat
        ∧ Y img !! (i * 2 + 1)%nat = frame !! (i * 4 + y1)%nat
        ∧ Cb img !! i = frame !! (i * 4 + cb)%nat
        ∧ Cr img !! i = frame !! (i * 4 + cr)%nat.
Proof.
  intros Hoffs Hw Hh Heven Hframe Hmax.
  apply Z.even_spec in Heven as [k ->].
  assert (Hcw : (2 * k + 1) / 2 = k) by (Z.div_mod_to_equations; lia).
  assert (Hlc : group_count (2 * k) height = Z.to_nat (k * height))
    by (unfold group_count; rewrite Hcw; reflexivity).
  assert (0 ≤ k * height) by nia.
  assert (HlY : Z.to_nat (2 * k * height)
                = (2 * group_count (2 * k) height)%nat)
    by (rewrite Hlc; lia).
  destruct (NewYCbCr_422_Some (2 * k) height) as [yuyv Hnew];
    [lia | lia | rewrite Hcw; lia |].
  destruct (NewYCbCr_422_planes (2 * k) height yuyv Hw Hh Hnew)
    as (HY & HCb & HCr).
  destruct (packed_loop frame f y0 y1 cb cr (group_count (2 * k) height)
              yuyv Hoffs) as (img & Hloop & Hdone); try lia.
  exists img. unfold decodePackedYUV, decodePackedYUV_image.
  rewrite Hnew. cbn [mbind option_bind]. rewrite Hloop.
  cbn [mbind option_bind]. split; [reflexivity |].
  destruct Hdone as (H1 & H2 & H3 & H4). rewrite HlY. auto.
Qed.

(** A 2x2 UYVY frame: two groups. *)
Lemma decodePackedYUV_groups_witness :
  ∃ img : YCbCr,
    decodePackedYUV [x01; x02; x03; x04; x05; x06; x07; x08] "UYVY" 2 2
    = Some (ImageYCbCr img, None)
    ∧ length (Y img) = 4%nat.
Proof.
  destruct (decodePackedYUV_groups
              [x01; x02; x03; x04; x05; x06; x07; x08] "UYVY" 2 2 1 3 0 2)
    as (img & Himg & HlY & _);
    [reflexivity | lia | lia | reflexivity | vm_compute; lia
    | vm_compute; reflexivity |].
  exists img. split; [exact Himg | exact HlY].
Defined.

(** The plane lengths do not change in a group copy. *)
Lemma packed_group_lengths (frame : list byte) (y0 y1 cb cr i : nat)
    (s s' : YCbCr) :
  packed_group frame y0 y1 cb cr i s = Some s' →
  length (Y s') = length (Y s) ∧ length (Cb s') = length (Cb s)
  ∧ length (Cr s') = length (Cr s).
Proof.
  unfold packed_group, setY, setCb, setCr.
  destruct (frame !! (i * 4 + y0)%nat) as [v0 |]; cbn [mbind option_bind];
    [| discriminate].
  destruct (store (Y s) (i * 2) v0) as [l0 |] eqn:E0;
    cbn [mbind option_bind]; [| discriminate].
  destruct (frame !! (i * 4 + y1)%nat) as [v1 |]; cbn [mbind option_bind];
    [| discriminate].
  cbn [with_Y Y].
  destruct (store l0 (i * 2 + 1) v1) as [l1 |] eqn:E1;
    cbn [mbind option_bind]; [| discriminate].
  destruct (frame !! (i * 4 + cb)%nat) as [v2 |]; cbn [mbind option_bind];
    [| discriminate].
  cbn [with_Y Cb].
  destruct (store (Cb s) i v2) as [l2 |] eqn:E2; cbn [mbind option_bind];
    [| discriminate].
  destruct (frame !! (i * 4 + cr)%nat) as [v3 |]; cbn [mbind option_bind];
    [| discriminate].
  cbn [with_Y with_Cb Cr].
  destruct (store (Cr s) i v3) as [l3 |] eqn:E3; cbn [mbind option_bind];
    [| discriminate].
  intros [= <-]. cbn [with_Y with_Cb with_Cr Y Cb Cr].
  apply store_length in E0, E1, E2, E3. repeat split; congruence.
Qed.

(** A group that the frame does not hold, or whose second luma byte falls
    outside the luma plane, makes the group copy panic. *)
Lemma packed_group_None (frame : list byte) (y0 y1 cb cr i : nat)
    (s : YCbCr) :
  3%nat ∈ [y0; y1; cb; cr] →
  (length frame ≤ i * 4 + 3 ∨ length (Y s) ≤ i * 2 + 1)%nat →
  packed_group frame y0 y1 cb cr i s = None.
Proof.
  intros Hthree Hout. unfold packed_group, setY.
  destruct (frame !! (i * 4 + y0)%nat) as [v0 |] eqn:E0;
    cbn [mbind option_bind]; [| reflexivity].
  destruct (store (Y s) (i * 2) v0) as [l0 |] eqn:S0;
    cbn [mbind option_bind]; [| reflexivity].
  destruct (frame !! (i * 4 + y1)%nat) as [v1 |] eqn:E1;
    cbn [mbind option_bind]; [| reflexivity].
  cbn [with_Y Y].
  destruct (store l0 (i * 2 + 1) v1) as [l1 |] eqn:S1;
    cbn [mbind option_bind]; [| reflexivity].
  apply store_length in S0 as Hl0.
  assert (Hin : (i * 2 + 1 < length l0)%nat).
  { unfold store in S1. destruct (Nat.ltb_spec (i * 2 + 1) (length l0));
      [assumption | discriminate]. }
  destruct Hout as [Hshort | Hodd]; [| lia].
  apply lookup_lt_Some in E0, E1.
  destruct (frame !! (i * 4 + cb)%nat) as [v2 |] eqn:E2;
    cbn [mbind option_bind]; [| reflexivity].
  destruct (setCb _ i v2) as [s2 |]; cbn [mbind option_bind];
    [| reflexivity].
  destruct (frame !! (i * 4 + cr)%nat) as [v3 |] eqn:E3;
    cbn [mbind option_bind]; [| reflexivity].
  apply lookup_lt_Some in E2, E3.
  exfalso.
  repeat (apply elem_of_cons in Hthree as [Heq | Hthree]; [subst; lia |]).
  by apply elem_of_nil in Hthree.
Qed.

(** The decoder panics when the frame lacks a group or when the luma plane
    is shorter than two bytes for each group. *)
Lemma decodePackedYUV_panics (frame : list byte) (f : string)
    (width height : Z) (y0 y1 cb cr : nat) :
  packed_offsets f = Some (y0, y1, cb, cr) →
  0 ≤ width < 2 ^ 32 → 0 ≤ height < 2 ^ 32 →
  (1 ≤ group_count width height)%nat →
  (length frame < 4 * group_count width height
   ∨ Z.to_nat (width * height) < 2 * group_count width height)%nat →
  decodePackedYUV frame f width height = None.
Proof.
  intros Hoffs Hw Hh Hpos Hout.
  destruct (packed_offsets_body frame f y0 y1 cb cr Hoffs)
    as (_ & Hthree & Hbody).
  unfold decodePackedYUV, decodePackedYUV_image.
  destruct (NewYCbCr _ _) as [yuyv |] eqn:Hnew; cbn [mbind option_bind];
    [| reflexivity].
  destruct (NewYCbCr_422_planes width height yuyv Hw Hh Hnew)
    as (HY & HCb & HCr).
  set (lc := group_count width height) in *.
  unfold for_range.
  rewrite (for_each_ext _ (packed_group frame y0 y1 cb cr)) by exact Hbody.
  rewrite (for_each_fails
             (λ s, length (Y s) = Z.to_nat (width * height))
             (packed_group frame y0 y1 cb cr) _ (lc - 1)).
  - reflexivity.
  - intros i s s' Hs Hstep.
    apply packed_group_lengths in Hstep as (-> & _ & _). exact Hs.
  - rewrite HCb. apply elem_of_seq. lia.
  - intros t Ht. apply packed_group_None; [exact Hthree |]. lia.
  - exact HY.
Qed.

Section WithCodec.
Context `{Codec}.

Lemma packedYUV_offsets (format : string) :
  format ∈ packedYUV →
  init !! format = Some decodePackedYUV
  ∧ ∃ y0 y1 cb cr, packed_offsets format = Some (y0, y1, cb, cr).
Proof.
  intros Hin. split.
  - pose proof (CompressExtra.init_dispatch format) as Hinit.
    unfold decoder in *. rewrite Hinit.
    rewrite decide_True by exact Hin. reflexivity.
  - unfold packedYUV in Hin.
    repeat (apply elem_of_cons in Hin as [-> | Hin];
            [do 4 eexists; reflexivity |]).
    by apply elem_of_nil in Hin.
Qed.

(** A panic of the selected decoder is a panic of [Compress]. *)
Lemma Compress_decoder_panics (frame : list byte) (format : string)
    (d : decoder) (width height quality : Z) (rotation : string)
    (rwidth rheight : Z) :
  init !! format = Some d →
  10 < width → 10 < height → (10 < length frame)%nat →
  d frame format width height = None →
  Compress init frame format width height quality rotation rwidth rheight
  = None.
Proof.
  intros Hinit Hw Hh Hl Hpanic. unfold Compress, decoder in *.
  rewrite Hinit.
  destruct (Z.leb_spec width 10); [lia |].
  destruct (Z.leb_spec height 10); [lia |].
  destruct (Nat.leb_spec (length frame) 10); [lia |].
  cbn [orb]. rewrite Hpanic. reflexivity.
Qed.

(** X10: [Compress] does not compare the frame with the image size.  For
    the four packed tags, a frame that passes the input check but has fewer
    than four bytes for each of the [ceil(w/2) * h] groups makes the
    decoder index out of range: [Compress] panics instead of returning an
    error. *)
Theorem Compress_packed_short_frame (frame : list byte) (format : string)
    (width height quality : Z) (rotation : string) (rwidth rheight : Z) :
  format ∈ packedYUV →
  10 < width < 2 ^ 32 → 10 < height < 2 ^ 32 →
  (10 < length frame < 4 * group_count width height)%nat →
  Compress init frame format width height quality rotation rwidth rheight
  = None.
Proof.
  intros Hin Hw Hh Hlen.
  destruct (packedYUV_offsets format Hin)
    as (Hinit & y0 & y1 & cb & cr & Hoffs).
  apply (Compress_decoder_panics _ _ decodePackedYUV); try lia;
    [exact Hinit |].
  apply (decodePackedYUV_panics frame format width height y0 y1 cb cr);
    try lia; exact Hoffs.
Qed.

(** X11: for the four packed tags an odd width always panics, whatever the
    frame holds: the image has [ceil(w/2)] groups in each row but only [w]
    luma bytes, and the last group writes past the luma plane. *)
Theorem Compress_packed_odd_width (frame : list byte) (format : string)
    (width height quality : Z) (rotation : string) (rwidth rheight : Z) :
  format ∈ packedYUV →
  10 < width < 2 ^ 32 → 10 < height < 2 ^ 32 →
  Z.odd width = true →
  (10 < length frame)%nat →
  Compress init frame format width height quality rotation rwidth rheight
  = None.
Proof.
  intros Hin Hw Hh Hodd Hlen.
  destruct (packedYUV_offsets format Hin)
    as (Hinit & y0 & y1 & cb & cr & Hoffs).
  apply (Compress_decoder_panics _ _ decodePackedYUV); try lia;
    [exact Hinit |].
  apply Z.odd_spec in Hodd as [k ->].
  assert (Hcw : (2 * k + 1 + 1) / 2 = k + 1)
    by (Z.div_mod_to_equations; lia).
  assert (Hlc : group_count (2 * k + 1) height
                = Z.to_nat ((k + 1) * height))
    by (unfold group_count; rewrite Hcw; reflexivity).
  assert (0 ≤ k) by lia.
  apply (decodePackedYUV_panics frame format _ height y0 y1 cb cr).
  - exact Hoffs.
  - lia.
  - lia.
  - rewrite Hlc. nia.
  - right. rewrite Hlc. nia.
Qed.

End WithCodec.

(** A 12x12 YUYV frame of 11 bytes instead of 288. *)
Lemma Compress_packed_short_frame_witness :
  Compress init (replicate 11 x00) "YUYV" 12 12 80 "" 0 0 = None.
Proof.
  apply (Compress_packed_short_frame (replicate 11 x00) "YUYV" 12 12 80 ""
           0 0); [left | lia | lia | vm_compute; lia].
Defined.

(** An 11x12 YUYV frame with room for every group. *)
Lemma Compress_packed_odd_width_witness :
  Compress init (replicate 288 x00) "YUYV" 11 12 80 "" 0 0 = None.
Proof.
  apply (Compress_packed_odd_width (replicate 288 x00) "YUYV" 11 12 80 ""
           0 0); [left | lia | lia | reflexivity | vm_compute; lia].
Defined.

End PackedExtra.

(** ** image.go: the planar 4:2:0 decoder, the other tags and short frames *)

Module PlanarExtra.
Import GoRt GoImage Image LoopLemmas LoopExtra PlanarSpec ImageSpec.

(** The planes of a fresh 4:2:0 image, when [NewYCbCr] returns. *)
Lemma NewYCbCr_420_planes (w h : Z) (img : YCbCr) :
  0 ≤ w < 2 ^ 32 → 0 ≤ h < 2 ^ 32 →
  NewYCbCr (Rect 0 0 (int w) (int h)) YCbCrSubsampleRatio420 = Some img →
  length (Y img) = luma_size w h
  ∧ length (Cb img) = chroma_size w h
  ∧ length (Cr img) = chroma_size w h.
Proof.
  intros Hw Hh. rewrite !int_small by lia.
  unfold NewYCbCr, Rect, luma_size, chroma_size.
  destruct (Z.gtb_spec 0 w) as [? | _]; [lia |].
  destruct (Z.gtb_spec 0 h) as [? | _]; [lia |].
  unfold yCbCrSize, Dx, Dy. cbn [MinX MinY MaxX MaxY].
  change (0 `quot` 2) with 0. rewrite !Z.sub_0_r.
  rewrite !Z.quot_div_nonneg by lia.
  destruct (_ <? 0); [discriminate |]. intros [= <-].
  cbn [Y Cb Cr]. rewrite !length_replicate. auto.
Qed.

Lemma setY_sized (ly lc i : nat) (v : byte) (s s' : YCbCr) :
  sized ly lc s → setY s i v = Some s' → sized ly lc s'.
Proof.
  intros (HY & HCb & HCr). unfold setY.
  destruct (store (Y s) i v) as [l |] eqn:E; [| discriminate].
  intros [= <-]. apply store_length in E. repeat split; cbn; congruence.
Qed.

Lemma setCb_sized (ly lc i : nat) (v : byte) (s s' : YCbCr) :
  sized ly lc s → setCb s i v = Some s' → sized ly lc s'.
Proof.
  intros (HY & HCb & HCr). unfold setCb.
  destruct (store (Cb s) i v) as [l |] eqn:E; [| discriminate].
  intros [= <-]. apply store_length in E. repeat split; cbn; congruence.
Qed.

Lemma setCr_sized (ly lc i : nat) (v : byte) (s s' : YCbCr) :
  sized ly lc s → setCr s i v = Some s' → sized ly lc s'.
Proof.
  intros (HY & HCb & HCr). unfold setCr.
  destruct (store (Cr s) i v) as [l |] eqn:E; [| discriminate].
  intros [= <-]. apply store_length in E. repeat split; cbn; congruence.
Qed.

(** Every loop body of [decodePlanarYUV] keeps the plane lengths. *)
Lemma planar_bodies_sized (frame : list byte) (ly lc i : nat)
    (s s' : YCbCr) :
  sized ly lc s →
  (luma_body frame i s = Some s'
   ∨ first_to_Cb frame i s = Some s' ∨ first_to_Cr frame i s = Some s'
   ∨ second_to_Cb frame i s = Some s' ∨ second_to_Cr frame i s = Some s'
   ∨ nv12_body frame i s = Some s' ∨ nv21_body frame i s = Some s') →
  sized ly lc s'.
Proof.
  intros Hs.
  unfold luma_body, first_to_Cb, first_to_Cr, second_to_Cb, second_to_Cr,
    nv12_body, nv21_body.
  intros [Hb | [Hb | [Hb | [Hb | [Hb | [Hb | Hb]]]]]];
    destruct (frame !! _) as [v |]; cbn [mbind option_bind] in Hb;
    try discriminate;
    eauto using setY_sized, setCb_sized, setCr_sized.
  - destruct (setCb s i v) as [s1 |] eqn:E1; cbn [mbind option_bind] in Hb;
      [| discriminate].
    destruct (frame !! _) as [v' |]; cbn [mbind option_bind] in Hb;
      [| discriminate].
    eauto using setCb_sized, setCr_sized.
  - destruct (setCb s i v) as [s1 |] eqn:E1; cbn [mbind option_bind] in Hb;
      [| discriminate].
    destruct (frame !! _) as [v' |]; cbn [mbind option_bind] in Hb;
      [| discriminate].
    eauto using setCb_sized, setCr_sized.
Qed.

(** A loop of [decodePlanarYUV] keeps the plane lengths. *)
Lemma planar_loop_sized (frame : list byte) (ly lc : nat)
    (body : list byte → nat → YCbCr → option YCbCr) (idx : list nat)
    (s s' : YCbCr) :
  body ∈ [luma_body; first_to_Cb; first_to_Cr; second_to_Cb; second_to_Cr;
          nv12_body; nv21_body] →
  sized ly lc s → for_each (body frame) idx s = Some s' → sized ly lc s'.
Proof.
  intros Hbody. apply (for_each_inv (sized ly lc)).
  intros i t t' Ht Hstep. apply (planar_bodies_sized frame ly lc i t t' Ht).
  repeat (apply elem_of_cons in Hbody as [-> | Hbody]; [tauto |]).
  by apply elem_of_nil in Hbody.
Qed.

(** After the luma loop the chroma planes are still the equal, zeroed
    planes of the fresh image. *)
Lemma luma_loop_chroma (frame : list byte) (r : Rectangle)
    (ratio : YCbCrSubsampleRatio) (yuv0 yuv1 : YCbCr) :
  NewYCbCr r ratio = Some yuv0 →
  for_range (length (Y yuv0)) (luma_body frame) yuv0 = Some yuv1 →
  Cb yuv1 = Cr yuv1.
Proof.
  intros Hnew Hluma.
  eapply (for_each_inv (λ s, Cb s = Cr s)); [| | exact Hluma].
  - intros i s s'. apply luma_body_chroma.
  - eapply NewYCbCr_chroma. exact Hnew.
Qed.

Lemma nv_mirrored (frame : list byte) (i : nat) (s t : YCbCr) :
  mirrored s t →
  option_Forall2 mirrored (nv12_body frame i s) (nv21_body frame i t).
Proof.
  intros [-> Hlen]. unfold nv12_body, nv21_body, setCb, setCr, store.
  cbn [swap_chroma Y Cb Cr]. rewrite <- Hlen.
  destruct (frame !! (length (Y s) + 2 * i)%nat) as [a |] eqn:Ea;
    destruct (frame !! (length (Y s) + 2 * i + 1)%nat) as [b |] eqn:Eb;
    destruct (i <? length (Cb s))%nat eqn:Hi;
    repeat (progress
              (cbn [mbind option_bind with_Cb with_Cr swap_chroma Y Cb Cr];
               rewrite ?length_insert, <- ?Hlen, ?Hi, ?Ea, ?Eb));
    constructor.
  split; [reflexivity |]. cbn. rewrite !length_insert. exact Hlen.
Qed.

(** X12: two relations between the tags of the planar decoder, for every
    frame and size, panics included: I420 is decoded exactly as YU12, and
    NV21 as NV12 with the two chroma planes exchanged. *)
Theorem decodePlanarYUV_tag_relations (frame : list byte)
    (width height : Z) :
  decodePlanarYUV_image frame "I420" width height
  = decodePlanarYUV_image frame "YU12" width height
  ∧ decodePlanarYUV_image frame "NV21" width height
    = swap_chroma <$> decodePlanarYUV_image frame "NV12" width height.
Proof.
  unfold decodePlanarYUV_image.
  destruct (NewYCbCr _ _) as [yuv0 |] eqn:Hnew; cbn; [| auto].
  destruct (for_range (length (Y yuv0)) (luma_body frame) yuv0)
    as [yuv1 |] eqn:Hluma; cbn; [| auto].
  pose proof (luma_loop_chroma frame _ _ yuv0 yuv1 Hnew Hluma) as Hchroma.
  assert (Hs1 : sized (length (Y yuv1)) (length (Cb yuv1)) yuv1)
    by (repeat split; rewrite Hchroma; reflexivity).
  split.
  - rewrite Hchroma at 1.
    destruct (for_range (length (Cr yuv1)) (first_to_Cb frame) yuv1)
      as [yuv2 |] eqn:Hfirst; cbn; [| reflexivity].
    assert (Hs2 : sized (length (Y yuv1)) (length (Cb yuv1)) yuv2).
    { apply (planar_loop_sized frame _ _ first_to_Cb
               (seq 0 (length (Cr yuv1))) yuv1 yuv2);
        [solve_elem | exact Hs1 | exact Hfirst]. }
    destruct Hs2 as (_ & -> & ->). reflexivity.
  - assert (Hm : mirrored yuv1 yuv1).
    { split; [| rewrite Hchroma; reflexivity].
      destruct yuv1; cbn in *. subst. reflexivity. }
    pose proof (for_each_sim mirrored (nv12_body frame) (nv21_body frame)
                  (seq 0 (length (Cr yuv1))) (nv_mirrored frame)
                  yuv1 yuv1 Hm) as Hsim.
    unfold for_range.
    inversion Hsim as [a b [-> _] Ha Hb | Ha Hb]; reflexivity.
Qed.

(** One pair of the NV12 loop, when the frame holds it. *)
Lemma nv12_step (frame y : list byte) (lc i : nat) (s : YCbCr) :
  (i < lc)%nat → (length y + 2 * lc ≤ length frame)%nat →
  pairs_done frame y lc i s →
  ∃ s', nv12_body frame i s = Some s'
        ∧ pairs_done frame y lc (Datatypes.S i) s'.
Proof.
  intros Hi Hframe (HY & HlCb & HlCr & Hdone).
  destruct (lookup_lt_is_Some_2 frame (length y + 2 * i)) as [a Ha];
    [lia |].
  destruct (lookup_lt_is_Some_2 frame (length y + 2 * i + 1)) as [b Hb];
    [lia |].
  unfold nv12_body, setCb, setCr. rewrite HY, Ha. cbn [mbind option_bind].
  rewrite store_Some by lia. cbn [mbind option_bind with_Cb Y Cb Cr].
  rewrite HY, Hb. cbn [mbind option_bind].
  rewrite store_Some by lia. cbn [mbind option_bind].
  eexists. split; [reflexivity |].
  unfold pairs_done. cbn [with_Cb with_Cr Y Cb Cr].
  rewrite !length_insert. repeat (split; [assumption |]).
  intros j Hj. destruct (decide (j = i)) as [-> | Hne].
  - rewrite !list_lookup_insert_eq by lia. auto.
  - rewrite !list_lookup_insert_ne by lia. apply Hdone. lia.
Qed.

(** X13: under NV12 a frame that holds the luma plane and the interleaved
    chroma plane is decoded without panic: the luma plane is the first
    [w*h] bytes, and chroma pair [i] after it gives [Cb[i]] and [Cr[i]],
    in this order. *)
Theorem decodePlanarYUV_NV12 (frame : list byte) (width height : Z) :
  0 ≤ width < 2 ^ 32 → 0 ≤ height < 2 ^ 32 →
  (luma_size width height + 2 * chroma_size width height
   ≤ length frame)%nat →
  Z.of_nat (length frame) < 2 ^ 63 →
  ∃ yuv : YCbCr,
    decodePlanarYUV frame "NV12" width height = Some (ImageYCbCr yuv, None)
    ∧ Y yuv = take (luma_size width height) frame
    ∧ length (Cb yuv) = chroma_size width height
    ∧ length (Cr yuv) = chroma_size width height
    ∧ ∀ i : nat, (i < chroma_size width height)%nat →
        Cb yuv !! i = frame !! (luma_size width height + 2 * i)%nat
        ∧ Cr yuv !! i = frame !! (luma_size width height + 2 * i + 1)%nat.
Proof.
  intros Hw Hh Hframe Hmax.
  assert (Hfit : width * height
                 + 2 * (((width + 1) / 2) * ((height + 1) / 2)) < 2 ^ 63).
  { unfold luma_size, chroma_size in Hframe.
    assert (0 ≤ (width + 1) / 2) by (apply Z.div_pos; lia).
    assert (0 ≤ (height + 1) / 2) by (apply Z.div_pos; lia).
    assert (0 ≤ width * height) by nia.
    assert (0 ≤ (width + 1) / 2 * ((height + 1) / 2)) by nia. lia. }
  destruct (NewYCbCr_420 width height Hw Hh Hfit)
    as (yuv0 & Hnew & _ & _ & _).
  destruct (NewYCbCr_420_planes width height yuv0 Hw Hh Hnew)
    as (HlY & HlCb & HlCr).
  set (n := luma_size width height) in *.
  set (c := chroma_size width height) in *.
  unfold decodePlanarYUV, decodePlanarYUV_image.
  rewrite Hnew. cbn [mbind option_bind].
  rewrite luma_loop by lia. cbn [mbind option_bind String.eqb Ascii.eqb
    Bool.eqb].
  set (yuv1 := with_Y (take (length (Y yuv0)) frame) yuv0).
  assert (HY1 : Y yuv1 = take n frame)
    by (unfold yuv1; cbn [with_Y Y]; rewrite HlY; reflexivity).
  assert (Hn : length (take n frame) = n) by (rewrite length_take; lia).
  destruct (for_each_seq_inv (pairs_done frame (take n frame) c)
              (nv12_body frame) c 0 yuv1) as (yuv & Hloop & Hdone).
  - repeat (split; [assumption |]). intros i Hi. lia.
  - intros i t Hi. apply nv12_step; [lia | rewrite Hn; lia].
  - exists yuv. unfold for_range.
    replace (length (Cr yuv1)) with c by (symmetry; exact HlCr).
    rewrite Hloop. cbn [mbind option_bind]. split; [reflexivity |].
    destruct Hdone as (H1 & H2 & H3 & H4). rewrite Hn in H4. auto.
Qed.

(** A 2x2 frame: four luma bytes and one chroma pair. *)
Lemma decodePlanarYUV_NV12_witness :
  ∃ yuv : YCbCr,
    decodePlanarYUV Examples.planar_2x2 "NV12" 2 2
    = Some (ImageYCbCr yuv, None)
    ∧ Cb yuv !! 0%nat = Some xa0 ∧ Cr yuv !! 0%nat = Some xb0.
Proof.
  destruct (decodePlanarYUV_NV12 Examples.planar_2x2 2 2)
    as (yuv & Hyuv & _ & _ & _ & Hpairs);
    [lia | lia | vm_compute; lia | vm_compute; reflexivity |].
  exists yuv. split; [exact Hyuv |].
  apply (Hpairs 0%nat). vm_compute. lia.
Defined.

(** The loop bodies that read the end of the frame panic when the frame
    stops before it. *)
Lemma second_plane_None (frame : list byte) (ly lc i : nat) (t : YCbCr) :
  sized ly lc t → (length frame ≤ i + ly + lc)%nat →
  second_to_Cr frame i t = None ∧ second_to_Cb frame i t = None.
Proof.
  intros (HY & HCb & HCr) Hshort. unfold second_to_Cr, second_to_Cb.
  rewrite HY, HCr. rewrite (lookup_ge_None_2 frame) by lia.
  split; reflexivity.
Qed.

Lemma nv_pair_None (frame : list byte) (ly lc i : nat) (t : YCbCr) :
  sized ly lc t → (length frame ≤ ly + 2 * i + 1)%nat →
  nv12_body frame i t = None ∧ nv21_body frame i t = None.
Proof.
  intros (HY & HCb & HCr) Hshort. unfold nv12_body, nv21_body.
  rewrite HY. rewrite (lookup_ge_None_2 frame (ly + 2 * i + 1)) by lia.
  split; [| reflexivity].
  destruct (frame !! _) as [v |]; cbn [mbind option_bind]; [| reflexivity].
  destruct (setCb t i v) as [t1 |] eqn:E1; cbn [mbind option_bind];
    [| reflexivity].
  apply (setCb_sized ly lc) in E1 as (-> & _ & _); [| repeat split; auto].
  rewrite (lookup_ge_None_2 frame (ly + 2 * i + 1)) by lia. reflexivity.
Qed.

(** The planar decoder panics on a frame that stops before the end of the
    chroma data, for each of the four registered tags. *)
Lemma decodePlanarYUV_panics (frame : list byte) (f : string)
    (width height : Z) :
  f ∈ planarYUV →
  0 ≤ width < 2 ^ 32 → 0 ≤ height < 2 ^ 32 →
  (1 ≤ chroma_size width height)%nat →
  (length frame
   < luma_size width height + 2 * chroma_size width height)%nat →
  decodePlanarYUV frame f width height = None.
Proof.
  intros Hf Hw Hh Hpos Hshort.
  unfold decodePlanarYUV, decodePlanarYUV_image.
  destruct (NewYCbCr _ _) as [yuv0 |] eqn:Hnew; cbn [mbind option_bind];
    [| reflexivity].
  destruct (NewYCbCr_420_planes width height yuv0 Hw Hh Hnew)
    as (HlY & HlCb & HlCr).
  set (n := luma_size width height) in *.
  set (c := chroma_size width height) in *.
  assert (Hs0 : sized n c yuv0) by (repeat split; assumption).
  destruct (for_range (length (Y yuv0)) (luma_body frame) yuv0)
    as [yuv1 |] eqn:Hluma; cbn [mbind option_bind]; [| reflexivity].
  assert (Hs1 : sized n c yuv1).
  { apply (planar_loop_sized frame n c luma_body
             (seq 0 (length (Y yuv0))) yuv0 yuv1);
      [solve_elem | exact Hs0 | exact Hluma]. }
  assert (Hlast : (c - 1)%nat ∈ seq 0 c) by (apply elem_of_seq; lia).
  assert (Hinv : ∀ body,
             body ∈ [luma_body; first_to_Cb; first_to_Cr; second_to_Cb;
                     second_to_Cr; nv12_body; nv21_body] →
             ∀ i s s', sized n c s → body frame i s = Some s' →
                       sized n c s').
  { intros body Hbody i s s' Hs Hstep.
    apply (planar_loop_sized frame n c body [i] s s' Hbody Hs).
    cbn [for_each]. rewrite Hstep. reflexivity. }
  unfold planarYUV in Hf.
  repeat (apply elem_of_cons in Hf as [-> | Hf]);
    [| | | | by apply elem_of_nil in Hf];
    cbn [String.eqb Ascii.eqb Bool.eqb].
  - destruct (for_range (length (Cr yuv1)) (first_to_Cb frame) yuv1)
      as [yuv2 |] eqn:Hfirst; cbn [mbind option_bind]; [| reflexivity].
    assert (Hs2 : sized n c yuv2).
    { apply (planar_loop_sized frame n c first_to_Cb
               (seq 0 (length (Cr yuv1))) yuv1 yuv2);
        [solve_elem | exact Hs1 | exact Hfirst]. }
    destruct Hs2 as (H2Y & H2Cb & H2Cr) eqn:E. clear E.
    unfold for_range. rewrite H2Cb.
    rewrite (for_each_fails (sized n c) (second_to_Cr frame) _ (c - 1));
      [reflexivity | apply Hinv; solve_elem | exact Hlast | |
       repeat split; assumption].
    intros t Ht. apply (second_plane_None frame n c); [exact Ht | lia].
  - destruct (for_range (length (Cb yuv1)) (first_to_Cr frame) yuv1)
      as [yuv2 |] eqn:Hfirst; cbn [mbind option_bind]; [| reflexivity].
    assert (Hs2 : sized n c yuv2).
    { apply (planar_loop_sized frame n c first_to_Cr
               (seq 0 (length (Cb yuv1))) yuv1 yuv2);
        [solve_elem | exact Hs1 | exact Hfirst]. }
    destruct Hs2 as (H2Y & H2Cb & H2Cr) eqn:E. clear E.
    unfold for_range. rewrite H2Cr.
    rewrite (for_each_fails (sized n c) (second_to_Cb frame) _ (c - 1));
      [reflexivity | apply Hinv; solve_elem | exact Hlast | |
       repeat split; assumption].
    intros t Ht. apply (second_plane_None frame n c); [exact Ht | lia].
  - destruct Hs1 as (H1Y & H1Cb & H1Cr) eqn:E. clear E.
    unfold for_range. rewrite H1Cr.
    rewrite (for_each_fails (sized n c) (nv12_body frame) _ (c - 1));
      [reflexivity | apply Hinv; solve_elem | exact Hlast | |
       repeat split; assumption].
    intros t Ht. apply (nv_pair_None frame n c); [exact Ht | lia].
  - destruct Hs1 as (H1Y & H1Cb & H1Cr) eqn:E. clear E.
    unfold for_range. rewrite H1Cr.
    rewrite (for_each_fails (sized n c) (nv21_body frame) _ (c - 1));
      [reflexivity | apply Hinv; solve_elem | exact Hlast | |
       repeat split; assumption].
    intros t Ht. apply (nv_pair_None frame n c); [exact Ht | lia].
Qed.

Section WithCodec.
Context `{Codec}.

(** X14: for the four planar tags, a frame that passes the input check but
    stops before the end of the chroma data makes the decoder index out of
    range: [Compress] panics instead of returning an error. *)
Theorem Compress_planar_short_frame (frame : list byte) (format : string)
    (width height quality : Z) (rotation : string) (rwidth rheight : Z) :
  format ∈ planarYUV →
  10 < width < 2 ^ 32 → 10 < height < 2 ^ 32 →
  (10 < length frame
   < luma_size width height + 2 * chroma_size width height)%nat →
  Compress init frame format width height quality rotation rwidth rheight
  = None.
Proof.
  intros Hin Hw Hh Hlen.
  assert (Hinit : init !! format = Some decodePlanarYUV).
  { pose proof (CompressExtra.init_dispatch format) as Hd.
    pose proof (CompressExtra.families_disjoint format) as (Hp & _).
    unfold decoder in *. rewrite Hd.
    rewrite decide_False by (intros Hpk; apply Hp in Hpk; tauto).
    rewrite decide_True by exact Hin. reflexivity. }
  apply (PackedExtra.Compress_decoder_panics _ _ decodePlanarYUV); try lia;
    [exact Hinit |].
  apply decodePlanarYUV_panics; try lia; [exact Hin |].
  unfold chroma_size.
  assert (1 ≤ (width + 1) / 2) by (Z.div_mod_to_equations; lia).
  assert (1 ≤ (height + 1) / 2) by (Z.div_mod_to_equations; lia).
  nia.
Qed.

End WithCodec.

(** A 12x12 NV12 frame of 215 bytes instead of 216. *)
Lemma Compress_planar_short_frame_witness :
  Compress init (replicate 215 x00) "NV12" 12 12 80 "" 0 0 = None.
Proof.
  apply (Compress_planar_short_frame (replicate 215 x00) "NV12" 12 12 80 ""
           0 0); [solve_elem | lia | lia | vm_compute; lia].
Defined.

End PlanarExtra.

(** ** image.go: the RGBA decoder on frames of any size *)

Module RGBAExtra.
Import GoRt GoImage Image LoopLemmas LoopExtra PlanarSpec ImageSpec.

(** The case of a known tag in [decodeRGBA] is the pixel copy at its
    offsets, which are a permutation of 0, 1, 2, 3. *)
Lemma rgba_order_body (frame : list byte) (f : string) (o0 o1 o2 o3 : nat) :
  rgba_order f = Some (o0, o1, o2, o3) →
  (o0 ≤ 3 ∧ o1 ≤ 3 ∧ o2 ≤ 3 ∧ o3 ≤ 3)%nat
  ∧ 3%nat ∈ [o0; o1; o2; o3]
  ∧ ∀ i buf, decodeRGBA_body frame f i buf
             = rgba_pixel frame o0 o1 o2 o3 i buf.
Proof.
  unfold rgba_order, decodeRGBA_body, rgba_pixel.
  repeat (destruct (String.eqb f _);
          [intros [= <- <- <- <-];
           (split; [lia |]); (split; [solve_elem |]);
           intros i buf; rewrite ?Nat.add_0_r; reflexivity |]).
  discriminate.
Qed.

Lemma mod4_split (i : nat) :
  ∃ q r : nat, i = (4 * q + r)%nat ∧ (r < 4)%nat ∧ (i mod 4)%nat = r.
Proof.
  exists (i / 4)%nat, (i mod 4)%nat.
  pose proof (Nat.div_mod_eq i 4). pose proof (Nat.mod_upper_bound i 4).
  lia.
Qed.

(** One index of the loop, when the frame is a whole number of pixels that
    fits in the buffer. *)
Lemma rgba_pixel_step (frame : list byte) (o0 o1 o2 o3 l i : nat)
    (buf : list byte) :
  (o0 ≤ 3 ∧ o1 ≤ 3 ∧ o2 ≤ 3 ∧ o3 ≤ 3)%nat →
  (length frame mod 4)%nat = 0%nat →
  (i < length frame)%nat → (length frame ≤ l)%nat →
  pixels_done frame o0 o1 o2 o3 l i buf →
  ∃ buf', rgba_pixel frame o0 o1 o2 o3 i buf = Some buf'
          ∧ pixels_done frame o0 o1 o2 o3 l (Datatypes.S i) buf'.
Proof.
  intros Hoff Hwhole Hi Hfit (Hlen & Hdone & Hzero).
  destruct (mod4_split i) as (q & r & -> & Hr & Hmod).
  destruct (mod4_split (length frame)) as (m & r' & Hm & _ & Hmod').
  rewrite Hwhole in Hmod'. subst r'.
  unfold rgba_pixel. rewrite Hmod.
  destruct (Nat.eqb_spec r 0) as [-> | Hne].
  - rewrite Nat.add_0_r in *.
    destruct (lookup_lt_is_Some_2 frame (4 * q + o0)) as [v0 Hv0]; [lia |].
    destruct (lookup_lt_is_Some_2 frame (4 * q + o1)) as [v1 Hv1]; [lia |].
    destruct (lookup_lt_is_Some_2 frame (4 * q + o2)) as [v2 Hv2]; [lia |].
    destruct (lookup_lt_is_Some_2 frame (4 * q + o3)) as [v3 Hv3]; [lia |].
    rewrite Hv0. cbn [mbind option_bind].
    rewrite store_Some by lia. cbn [mbind option_bind].
    rewrite Hv1. cbn [mbind option_bind].
    rewrite store_Some by (rewrite !length_insert; lia).
    cbn [mbind option_bind].
    rewrite Hv2. cbn [mbind option_bind].
    rewrite store_Some by (rewrite !length_insert; lia).
    cbn [mbind option_bind].
    rewrite Hv3. cbn [mbind option_bind].
    rewrite store_Some by (rewrite !length_insert; lia).
    eexists. split; [reflexivity |].
    unfold pixels_done. rewrite !length_insert.
    split; [exact Hlen |]. split.
    + intros p Hp. destruct (decide (p = q)) as [-> | Hpq].
      * repeat split.
        -- rewrite !list_lookup_insert_ne by lia.
           rewrite list_lookup_insert_eq by lia. congruence.
        -- rewrite !list_lookup_insert_ne by lia.
           rewrite list_lookup_insert_eq by (rewrite !length_insert; lia).
           congruence.
        -- rewrite !list_lookup_insert_ne by lia.
           rewrite list_lookup_insert_eq by (rewrite !length_insert; lia).
           congruence.
        -- rewrite list_lookup_insert_eq by (rewrite !length_insert; lia).
           congruence.
      * rewrite !list_lookup_insert_ne by lia. apply Hdone. lia.
    + intros j Hj Hbeyond. pose proof (Hbeyond q ltac:(lia)) as Hq.
      rewrite !list_lookup_insert_ne by lia.
      apply Hzero; [exact Hj |]. intros p Hp. apply Hbeyond. lia.
  - exists buf. split; [reflexivity |].
    split; [exact Hlen |]. split.
    + intros p Hp. apply Hdone. lia.
    + intros j Hj Hbeyond. apply Hzero; [exact Hj |].
      intros p Hp. apply Hbeyond. lia.
Qed.

(** The image and the buffer that [decodeRGBA] allocates. *)
Lemma NewRGBA_make (w h : Z) :
  0 ≤ w < 2 ^ 32 → 0 ≤ h < 2 ^ 32 →
  (2 ^ 63 ≤ 4 * (w * h) ∧ NewRGBA (Rect 0 0 (int w) (int h)) = None)
  ∨ (4 * (w * h) < 2 ^ 63
     ∧ is_Some (NewRGBA (Rect 0 0 (int w) (int h)))
     ∧ make (int (int (4 * int w) * int h))
       = Some (replicate (4 * Z.to_nat (w * h)) x00)
     ∧ int (4 * int w) = 4 * w).
Proof.
  intros Hw Hh. rewrite !(int_small w), !(int_small h) by lia.
  rewrite (int_small (4 * w)) by lia.
  unfold NewRGBA, Rect.
  destruct (Z.gtb_spec 0 w) as [? | _]; [lia |].
  destruct (Z.gtb_spec 0 h) as [? | _]; [lia |].
  unfold Dx, Dy. cbn [MinX MinY MaxX MaxY]. rewrite !Z.sub_0_r.
  assert (0 ≤ w * h) by nia.
  unfold mul3NonNeg.
  destruct (Z.ltb_spec 4 0); [lia |].
  destruct (Z.ltb_spec w 0); [lia |].
  destruct (Z.ltb_spec h 0); [lia |]. cbn [orb].
  destruct (Z.leb_spec (2 ^ 64) (4 * w)); [lia |].
  destruct (Z.leb_spec (2 ^ 64) (4 * w * h)); [left; split; [lia | reflexivity] |].
  destruct (Z.leb_spec (2 ^ 63) (4 * w * h));
    [left; split; [lia | reflexivity] |].
  right. split; [lia |].
  destruct (Z.ltb_spec (4 * w * h) 0); [lia |].
  split; [eexists; reflexivity |]. split; [| reflexivity].
  rewrite int_small by lia. unfold make.
  destruct (Z.ltb_spec (4 * w * h) 0); [lia |].
  do 2 f_equal. lia.
Qed.

(** X15: for the two tags of the later [decodeRGBA], a frame that is a
    whole number of four-byte pixels and is not longer than the image is
    decoded without panic.  Every pixel of the frame is in place, with
    bytes 0 and 2 exchanged under RGB4 and as they are under BGR4; the
    frame need not fill the image, whose remaining bytes stay zero. *)
Theorem decodeRGBA_pixels (frame : list byte) (f : string)
    (width height : Z) (o0 o1 o2 o3 : nat) :
  rgba_order f = Some (o0, o1, o2, o3) →
  0 ≤ width < 2 ^ 32 → 0 ≤ height < 2 ^ 32 →
  4 * (width * height) < 2 ^ 63 →
  (length frame mod 4)%nat = 0%nat →
  (length frame ≤ 4 * Z.to_nat (width * height))%nat →
  ∃ rgba : RGBA,
    decodeRGBA frame f width height = Some (ImageRGBA rgba, None)
    ∧ length (Pix rgba) = (4 * Z.to_nat (width * height))%nat
    ∧ Stride rgba = 4 * width
    ∧ (∀ p : nat, (4 * p < length frame)%nat →
         Pix rgba !! (4 * p)%nat = frame !! (4 * p + o0)%nat
         ∧ Pix rgba !! (4 * p + 1)%nat = frame !! (4 * p + o1)%nat
         ∧ Pix rgba !! (4 * p + 2)%nat = frame !! (4 * p + o2)%nat
         ∧ Pix rgba !! (4 * p + 3)%nat = frame !! (4 * p + o3)%nat)
    ∧ (∀ j : nat,
         (length frame ≤ j < 4 * Z.to_nat (width * height))%nat →
         Pix rgba !! j = Some x00).
Proof.
  intros Horder Hw Hh Hfit Hwhole Hlen.
  destruct (rgba_order_body frame f o0 o1 o2 o3 Horder)
    as (Hoff & _ & Hbody).
  destruct (NewRGBA_make width height Hw Hh)
    as [[Hbig _] | (_ & [rgba0 Hnew] & Hmake & Hstride)]; [lia |].
  set (l := (4 * Z.to_nat (width * height))%nat) in *.
  destruct (for_each_seq_inv (pixels_done frame o0 o1 o2 o3 l)
              (rgba_pixel frame o0 o1 o2 o3) (length frame) 0
              (replicate l x00)) as (buf & Hloop & Hdone).
  - split; [apply length_replicate |]. split; [intros p Hp; lia |].
    intros j Hj _. apply lookup_replicate_2. exact Hj.
  - intros i t Hi. apply rgba_pixel_step; [exact Hoff | exact Hwhole | lia
                                          | exact Hlen].
  - unfold decodeRGBA, decodeRGBA_image.
    rewrite Hnew, Hmake. cbn [mbind option_bind].
    unfold for_range.
    rewrite (for_each_ext _ (rgba_pixel frame o0 o1 o2 o3)) by exact Hbody.
    rewrite Hloop. cbn [mbind option_bind].
    eexists. split; [reflexivity |]. cbn [Pix Stride].
    destruct Hdone as (Hl & Hpix & Hzero).
    split; [exact Hl |]. split; [exact Hstride |]. split.
    + intros p Hp. apply Hpix. lia.
    + intros j Hj. apply Hzero; [lia |].
      destruct (mod4_split (length frame)) as (m & r & Hm & _ & Hmod).
      rewrite Hwhole in Hmod. subst r. intros p Hp. lia.
Qed.

(** One RGB4 pixel in a 1x2 image: the second pixel stays zero. *)
Lemma decodeRGBA_pixels_witness :
  ∃ rgba : RGBA,
    decodeRGBA Examples.one_pixel "RGB4" 1 2 = Some (ImageRGBA rgba, None)
    ∧ length (Pix rgba) = 8%nat.
Proof.
  destruct (decodeRGBA_pixels Examples.one_pixel "RGB4" 1 2 2 1 0 3)
    as (rgba & Hrun & Hl & _);
    [reflexivity | lia | lia | lia | reflexivity | vm_compute; lia |].
  exists rgba. split; [exact Hrun | exact Hl].
Defined.

(** The buffer length does not change in a pixel copy. *)
Lemma rgba_pixel_length (frame : list byte) (o0 o1 o2 o3 i : nat)
    (buf buf' : list byte) :
  rgba_pixel frame o0 o1 o2 o3 i buf = Some buf' →
  length buf' = length buf.
Proof.
  unfold rgba_pixel. destruct (i mod 4 =? 0)%nat; [| congruence].
  destruct (frame !! (i + o0)%nat) as [v0 |]; cbn [mbind option_bind];
    [| discriminate].
  destruct (store buf i v0) as [b0 |] eqn:E0; cbn [mbind option_bind];
    [| discriminate].
  destruct (frame !! (i + o1)%nat) as [v1 |]; cbn [mbind option_bind];
    [| discriminate].
  destruct (store b0 (i + 1) v1) as [b1 |] eqn:E1; cbn [mbind option_bind];
    [| discriminate].
  destruct (frame !! (i + o2)%nat) as [v2 |]; cbn [mbind option_bind];
    [| discriminate].
  destruct (store b1 (i + 2) v2) as [b2 |] eqn:E2; cbn [mbind option_bind];
    [| discriminate].
  destruct (frame !! (i + o3)%nat) as [v3 |]; cbn [mbind option_bind];
    [| discriminate].
  intros E3. apply store_length in E0, E1, E2, E3. congruence.
Qed.

(** A pixel that the frame does not hold, or that the buffer has no room
    for, makes the pixel copy panic. *)
Lemma rgba_pixel_None (frame : list byte) (o0 o1 o2 o3 i : nat)
    (buf : list byte) :
  3%nat ∈ [o0; o1; o2; o3] →
  (i mod 4)%nat = 0%nat →
  (length frame ≤ i + 3 ∨ length buf ≤ i + 3)%nat →
  rgba_pixel frame o0 o1 o2 o3 i buf = None.
Proof.
  intros Hthree Hmod Hout. unfold rgba_pixel. rewrite Hmod.
  cbn [Nat.eqb].
  destruct (frame !! (i + o0)%nat) as [v0 |] eqn:R0;
    cbn [mbind option_bind]; [| reflexivity].
  destruct (store buf i v0) as [b0 |] eqn:E0; cbn [mbind option_bind];
    [| reflexivity].
  destruct (frame !! (i + o1)%nat) as [v1 |] eqn:R1;
    cbn [mbind option_bind]; [| reflexivity].
  destruct (store b0 (i + 1) v1) as [b1 |] eqn:E1; cbn [mbind option_bind];
    [| reflexivity].
  destruct (frame !! (i + o2)%nat) as [v2 |] eqn:R2;
    cbn [mbind option_bind]; [| reflexivity].
  destruct (store b1 (i + 2) v2) as [b2 |] eqn:E2; cbn [mbind option_bind];
    [| reflexivity].
  destruct (frame !! (i + o3)%nat) as [v3 |] eqn:R3;
    cbn [mbind option_bind]; [| reflexivity].
  apply store_length in E0, E1, E2.
  apply lookup_lt_Some in R0, R1, R2, R3.
  unfold store. destruct (Nat.ltb_spec (i + 3) (length b2)); [| reflexivity].
  exfalso. destruct Hout as [Hshort | Hroom]; [| lia].
  repeat (apply elem_of_cons in Hthree as [Heq | Hthree]; [subst; lia |]).
  by apply elem_of_nil in Hthree.
Qed.

(** The decoder panics on a frame that is not a whole number of pixels, or
    that is longer than the image. *)
Lemma decodeRGBA_panics (frame : list byte) (f : string) (width height : Z)
    (o0 o1 o2 o3 : nat) :
  rgba_order f = Some (o0, o1, o2, o3) →
  0 ≤ width < 2 ^ 32 → 0 ≤ height < 2 ^ 32 →
  ((length frame mod 4)%nat ≠ 0%nat
   ∨ (4 * Z.to_nat (width * height) < length frame)%nat) →
  decodeRGBA frame f width height = None.
Proof.
  intros Horder Hw Hh Hbad.
  destruct (rgba_order_body frame f o0 o1 o2 o3 Horder)
    as (_ & Hthree & Hbody).
  unfold decodeRGBA, decodeRGBA_image.
  destruct (NewRGBA_make width height Hw Hh)
    as [[_ ->] | (_ & [rgba0 Hnew] & Hmake & _)]; [reflexivity |].
  rewrite Hnew, Hmake. cbn [mbind option_bind].
  set (l := (4 * Z.to_nat (width * height))%nat) in *.
  unfold for_range.
  rewrite (for_each_ext _ (rgba_pixel frame o0 o1 o2 o3)) by exact Hbody.
  destruct (mod4_split (length frame)) as (m & r & Hm & Hr & Hmod).
  assert (Hfail : ∃ i0 : nat,
             (i0 < length frame)%nat ∧ (i0 mod 4)%nat = 0%nat
             ∧ (length frame ≤ i0 + 3 ∨ l ≤ i0 + 3)%nat).
  { destruct Hbad as [Hpart | Hlong].
    - exists (4 * m)%nat. rewrite Hmod in Hpart.
      rewrite Nat.mul_comm, Nat.Div0.mod_mul. lia.
    - exists l. unfold l at 2.
      rewrite Nat.mul_comm, Nat.Div0.mod_mul. lia. }
  destruct Hfail as (i0 & Hi0 & Hmod0 & Hout).
  rewrite (for_each_fails (λ buf, length buf = l)
             (rgba_pixel frame o0 o1 o2 o3) _ i0).
  - reflexivity.
  - intros i s s' Hs Hstep. apply rgba_pixel_length in Hstep. congruence.
  - apply elem_of_seq. lia.
  - intros t Ht. apply rgba_pixel_None; [exact Hthree | exact Hmod0 |].
    rewrite Ht. exact Hout.
  - apply length_replicate.
Qed.

Section WithCodec.
Context `{Codec}.

(** X16: for the tags RGB4 and BGR4, a frame that passes the input check
    but is not a whole number of pixels, or is longer than the image, makes
    the decoder index out of range: [Compress] panics instead of returning
    an error. *)
Theorem Compress_rgba_bad_frame (frame : list byte) (format : string)
    (width height quality : Z) (rotation : string) (rwidth rheight : Z) :
  format ∈ rgba →
  10 < width < 2 ^ 32 → 10 < height < 2 ^ 32 →
  (10 < length frame)%nat →
  ((length frame mod 4)%nat ≠ 0%nat
   ∨ (4 * Z.to_nat (width * height) < length frame)%nat) →
  Compress init frame format width height quality rotation rwidth rheight
  = None.
Proof.
  intros Hin Hw Hh Hlen Hbad.
  assert (Hinit : init !! format = Some decodeRGBA).
  { pose proof (init_lookup format) as Hl.
    unfold decoder in *. rewrite Hl.
    rewrite decide_True by exact Hin. reflexivity. }
  assert (Horder : ∃ o0 o1 o2 o3, rgba_order format = Some (o0, o1, o2, o3)).
  { unfold rgba in Hin.
    repeat (apply elem_of_cons in Hin as [-> | Hin];
            [do 4 eexists; reflexivity |]).
    by apply elem_of_nil in Hin. }
  destruct Horder as (o0 & o1 & o2 & o3 & Horder).
  apply (PackedExtra.Compress_decoder_panics _ _ decodeRGBA); try lia;
    [exact Hinit |].
  apply (decodeRGBA_panics frame format width height o0 o1 o2 o3);
    [exact Horder | lia | lia | exact Hbad].
Qed.

End WithCodec.

(** A 12x12 BGR4 frame of 575 bytes instead of 576. *)
Lemma Compress_rgba_bad_frame_witness :
  Compress init (replicate 575 x00) "BGR4" 12 12 80 "" 0 0 = None.
Proof.
  apply (Compress_rgba_bad_frame (replicate 575 x00) "BGR4" 12 12 80 ""
           0 0); [solve_elem | lia | lia | vm_compute; lia |].
  left. vm_compute. discriminate.
Defined.

End RGBAExtra.

(** ** webcam.go: the life cycle of a streaming session *)

Module StreamingExtra.
Import Webcam Examples.

Section WithTransport.
Context {K : Type} `{Transport K}.

(** The mapping loop only queries buffers, in index order, and touches
    nothing of the session but its pool, whose length it keeps. *)
Lemma map_buffers_calls (idx : list nat) :
  ∀ (w w' : Camera) (world world' : World K) (err : option string),
    map_buffers w idx world = ((err, w'), world') →
    fd w' = fd w ∧ bufcount w' = bufcount w ∧ streaming w' = streaming w
    ∧ length (buffers w') = length (buffers w)
    ∧ ∃ n : nat,
        calls world'
        = calls world
          ++ map (λ i, CallQueryBuffer (fd w) (uint32 (Z.of_nat i)))
                 (take n idx)
        ∧ (err = None → n = length idx).
Proof.
  induction idx as [| index idx IH]; intros w w' world world' err;
    cbn [map_buffers].
  - intros [= <- <- <-]. repeat split; try reflexivity.
    exists 0%nat. cbn. rewrite app_nil_r. auto.
  - unfold mbind, M_bind, invoke at 1.
    destruct (mmapQueryBuffer _ _ _) as [[[buffer [e |]] len] k].
    + intros [= <- <- <-]. repeat split; try reflexivity.
      exists 1%nat. cbn. split; [reflexivity | discriminate].
    + intros Hrest. apply IH in Hrest
        as (Hfd & Hcount & Hstr & Hlen & n & Hcalls & Hn).
      cbn [fd bufcount streaming buffers with_buffers calls] in *.
      rewrite length_insert in Hlen. repeat (split; [assumption |]).
      exists (S n). cbn [take map]. rewrite Hcalls, <- app_assoc.
      split; [reflexivity |]. intros He. cbn [Datatypes.length]. f_equal. auto.
Qed.

(** The enqueue loop only enqueues buffers, in index order. *)
Lemma enqueue_buffers_calls (w : Camera) (idx : list nat) :
  ∀ (world world' : World K) (err : option string),
    enqueue_buffers w idx world = (err, world') →
    ∃ n : nat,
      calls world'
      = calls world
        ++ map (λ i, CallEnqueueBuffer (fd w) (uint32 (Z.of_nat i)))
               (take n idx)
      ∧ (err = None → n = length idx).
Proof.
  induction idx as [| index idx IH]; intros world world' err;
    cbn [enqueue_buffers].
  - intros [= <- <-]. exists 0%nat. cbn. rewrite app_nil_r. auto.
  - unfold mbind, M_bind, invoke at 1.
    destruct (mmapEnqueueBuffer _ _ _) as [[e |] k].
    + intros [= <- <-]. exists 1%nat. cbn.
      split; [reflexivity | discriminate].
    + intros Hrest. apply IH in Hrest as (n & Hcalls & Hn).
      cbn [calls] in Hcalls.
      exists (S n). cbn [take map]. rewrite Hcalls, <- app_assoc.
      split; [reflexivity |]. intros He. cbn [Datatypes.length]. f_equal. auto.
Qed.


(** [StartStreaming] never unmaps, and keeps an Idle session Idle unless
    it succeeds. *)
Lemma StartStreaming_calls (w w' : Camera) (world world' : World K)
    (err : option string) :
  StartStreaming w world = ((err, w'), world') →
  (∃ cs : list Call,
     calls world' = calls world ++ cs
     ∧ Forall (λ c, is_release c = false) cs)
  ∧ (is_Some err → streaming w' = streaming w).
Proof.
  unfold StartStreaming. destruct (streaming w) eqn:Hs.
  { intros [= <- <- <-]. split; [| auto].
    exists []. rewrite app_nil_r. auto. }
  unfold mbind, M_bind, invoke at 1.
  destruct (mmapRequestBuffers _ _ _) as [[[e1 |] count] k1].
  { intros [= <- <- <-]. split; [| auto].
    eexists. split; [reflexivity |]. repeat constructor. }
  destruct (map_buffers _ _ _) as [[e2 w2] world2] eqn:Hmap.
  apply map_buffers_calls in Hmap
    as (Hfd & Hcount & Hstr & Hlen & n & Hcalls2 & Hn).
  cbn [fd bufcount streaming buffers with_buffers with_bufcount calls
       kernel] in *.
  assert (Hq : ∀ (f : nat → Call) (l : list nat),
             (∀ i, is_release (f i) = false) →
             Forall (λ c, is_release c = false) (map f l)).
  { intros f l Hf. apply Forall_forall. intros c Hc.
    apply list_elem_of_fmap in Hc as (i & -> & _). apply Hf. }
  destruct e2 as [e2 |].
  { intros [= <- <- <-]. split; [| intros _; congruence].
    eexists. rewrite Hcalls2, <- app_assoc. split; [reflexivity |].
    apply Forall_app. split; [repeat constructor |].
    apply Hq. reflexivity. }
  destruct (enqueue_buffers _ _ _) as [e3 world3] eqn:Henq.
  apply enqueue_buffers_calls in Henq as (n3 & Hcalls3 & Hn3).
  destruct e3 as [e3 |].
  { intros [= <- <- <-]. split; [| intros _; congruence].
    eexists. rewrite Hcalls3, Hcalls2, <- !app_assoc.
    split; [reflexivity |].
    apply Forall_app. split; [repeat constructor |].
    apply Forall_app. split; apply Hq; reflexivity. }
  unfold invoke.
  destruct (startStreaming _ _) as [[e4 |] k4].
  - intros [= <- <- <-]. split; [| intros _; congruence].
    eexists. cbn [calls]. rewrite Hcalls3, Hcalls2, <- !app_assoc.
    split; [reflexivity |].
    apply Forall_app. split; [repeat constructor |].
    apply Forall_app. split; [apply Hq; reflexivity |].
    apply Forall_app. split; [apply Hq; reflexivity | repeat constructor].
  - intros [= <- <- <-]. split; [| intros [? [=]]].
    eexists. cbn [calls]. rewrite Hcalls3, Hcalls2, <- !app_assoc.
    split; [reflexivity |].
    apply Forall_app. split; [repeat constructor |].
    apply Forall_app. split; [apply Hq; reflexivity |].
    apply Forall_app. split; [apply Hq; reflexivity | repeat constructor].
Qed.

(** X18: a failed [StartStreaming] on an Idle session unmaps nothing of
    what it mapped and leaves the session Idle; so a following
    [StopStreaming] is refused, and the buffers mapped before the failure
    stay mapped. *)
Theorem StartStreaming_failure_leaks (w w' : Camera)
    (world world' : World K) (e : string) :
  streaming w = false →
  StartStreaming w world = ((Some e, w'), world') →
  streaming w' = false
  ∧ (∃ cs : list Call,
       calls world' = calls world ++ cs
       ∧ Forall (λ c, is_release c = false) cs)
  ∧ StopStreaming w' world'
    = ((Some "Request to stop streaming when not streaming", w'), world').
Proof.
  intros Hidle Hstart.
  apply StartStreaming_calls in Hstart as (Hcalls & Hstay).
  assert (Hs : streaming w' = false)
    by (rewrite Hstay by (eexists; reflexivity); exact Hidle).
  repeat split; [exact Hs | exact Hcalls |].
  unfold StopStreaming. rewrite Hs. reflexivity.
Qed.

(** X19: [StopStreaming] cannot be retried.  Whatever a first call on a
    Streaming session returned, a second call is refused without any
    transport call: the buffers that a failed first call left mapped are
    out of reach of [StopStreaming]. *)
Theorem StopStreaming_twice (w : Camera) (world : World K) :
  streaming w = true →
  StopStreaming (snd (fst (StopStreaming w world)))
                (snd (StopStreaming w world))
  = ((Some "Request to stop streaming when not streaming",
      snd (fst (StopStreaming w world))),
     snd (StopStreaming w world)).
Proof.
  intros Hs.
  assert (Hidle : streaming (snd (fst (StopStreaming w world))) = false).
  { unfold StopStreaming. rewrite Hs. cbn [negb].
    unfold mbind, M_bind.
    destruct (release_buffers _ world) as [[e |] world1]; [reflexivity |].
    destruct (invoke _ _ world1) as [err world2]. reflexivity. }
  unfold StopStreaming at 1. rewrite Hidle. reflexivity.
Qed.

End WithTransport.


(** On the device that fails to map its second buffer, the first buffer
    stays mapped in an Idle session. *)
Lemma StartStreaming_failure_leaks_witness :
  @StartStreaming unit faulty_device idle_camera boot
  = ((Some "Failed to map memory: out of memory",
      {| fd := 3; bufcount := 2; buffers := [buffer_at 4096; nil_slice];
         streaming := false |}),
     {| kernel := tt;
        calls := [CallRequestBuffers 3 256; CallQueryBuffer 3 0;
                  CallQueryBuffer 3 1] |})
  ∧ @StopStreaming unit faulty_device
      {| fd := 3; bufcount := 2; buffers := [buffer_at 4096; nil_slice];
         streaming := false |}
      {| kernel := tt;
         calls := [CallRequestBuffers 3 256; CallQueryBuffer 3 0;
                   CallQueryBuffer 3 1] |}
    = ((Some "Request to stop streaming when not streaming",
        {| fd := 3; bufcount := 2; buffers := [buffer_at 4096; nil_slice];
           streaming := false |}),
       {| kernel := tt;
          calls := [CallRequestBuffers 3 256; CallQueryBuffer 3 0;
                    CallQueryBuffer 3 1] |}).
Proof.
  assert (Hrun : @StartStreaming unit faulty_device idle_camera boot
                 = ((Some "Failed to map memory: out of memory",
                     {| fd := 3; bufcount := 2;
                        buffers := [buffer_at 4096; nil_slice];
                        streaming := false |}),
                    {| kernel := tt;
                       calls := [CallRequestBuffers 3 256;
                                 CallQueryBuffer 3 0;
                                 CallQueryBuffer 3 1] |}))
    by (vm_compute; reflexivity).
  split; [exact Hrun |].
  apply (@StartStreaming_failure_leaks unit faulty_device idle_camera _ boot
           _ _ eq_refl Hrun).
Defined.

(** The session whose second buffer does not unmap. *)
Lemma StopStreaming_twice_witness :
  StopStreaming (with_streaming false streaming_camera)
    {| kernel := tt;
       calls := [CallReleaseBuffer (buffer_at 4096);
                 CallReleaseBuffer nil_slice] |}
  = ((Some "Request to stop streaming when not streaming",
      with_streaming false streaming_camera),
     {| kernel := tt;
        calls := [CallReleaseBuffer (buffer_at 4096);
                  CallReleaseBuffer nil_slice] |}).
Proof.
  exact (StopStreaming_twice streaming_camera boot eq_refl).
Defined.

End StreamingExtra.

(** ** webcam.go: frames, waiting, enumeration, controls, open and close *)

Module SessionExtra.
Import Webcam Examples.

(** The map that a loop of insertions builds holds, for each key, the
    value of the last element with that key. *)
Lemma foldl_insert_lookup {A V : Type} (key : A → Z) (val : A → V)
    (l : list A) :
  ∀ (m : gmap Z V) (c : Z),
    foldl (λ m x, <[key x := val x]> m) m l !! c
    = match last (filter (λ x, key x = c) l) with
      | Some x => Some (val x)
      | None => m !! c
      end.
Proof.
  induction l as [| x l IH]; intros m c; cbn [foldl]; [reflexivity |].
  rewrite IH, filter_cons.
  destruct (decide (key x = c)) as [Hk | Hk].
  - destruct (filter (λ x, key x = c) l) as [| y l'] eqn:Hf.
    + cbn. rewrite Hk. apply lookup_insert_eq.
    + rewrite last_cons_cons.
      destruct (last (y :: l')) eqn:Hlast; [reflexivity |].
      apply last_None in Hlast. discriminate Hlast.
  - destruct (last (filter (λ x, key x = c) l)); [reflexivity |].
    apply lookup_insert_ne. exact Hk.
Qed.

Section WithDevice.
Context {K : Type} `{Transport K} `{Device K}.

Lemma with_streaming_idle (w : Camera) :
  streaming w = false → with_streaming false w = w.
Proof. destruct w. cbn. intros ->. reflexivity. Qed.

(** X20: [Close] always closes the descriptor and returns the error of
    that call alone.  On a Streaming session it runs [StopStreaming] first
    and drops its error: the close happens in the world that
    [StopStreaming] left, whether it succeeded or not, and the session is
    Idle afterwards. *)
Theorem Close_always_closes (w : Camera) (world : World K) :
  let world1 := if streaming w then snd (StopStreaming w world) else world in
  Close w world
  = ((fst (unix_Close (GoRt.int (fd w)) (kernel world1)),
      with_streaming false w),
     {| kernel := snd (unix_Close (GoRt.int (fd w)) (kernel world1));
        calls := calls world1 |}).
Proof.
  cbv zeta. unfold Close, mbind, M_bind, mret, M_ret, lift.
  destruct (streaming w) eqn:Hs.
  - unfold StopStreaming. rewrite Hs. cbn [negb].
    unfold mbind, M_bind, mret, M_ret.
    destruct (release_buffers _ world) as [[e |] world1].
    + cbn [fd with_streaming snd].
      destruct (unix_Close _ _) as [err k]. reflexivity.
    + destruct (invoke _ _ world1) as [err1 world2].
      cbn [fd with_streaming snd].
      destruct (unix_Close _ _) as [err k]. reflexivity.
  - rewrite (with_streaming_idle w Hs).
    destruct (unix_Close _ _) as [err k]. reflexivity.
Qed.

(** X21: when a buffer is ready, [ReadFrame] returns the first [length]
    bytes of the pool buffer with the dequeued index, hands the buffer
    back to the device with one enqueue call, and returns no error even
    when that enqueue fails. *)
Theorem ReadFrame_releases (w : Camera) (world : World K)
    (index length : Z) (k1 : K) (b : Slice) :
  mmapDequeueBuffer (fd w) 0 0 (kernel world) = ((None, (index, length)), k1) →
  buffers w !! Z.to_nat (GoRt.int index) = Some b →
  0 ≤ length ≤ Cap b →
  ReadFrame w world
  = (Some ({| Data := Data b; Len := length; Cap := Cap b |}, None),
     {| kernel := snd (mmapEnqueueBuffer (fd w) index k1);
        calls := calls world ++ [CallEnqueueBuffer (fd w) index] |}).
Proof.
  intros Hdq Hb Hlen.
  unfold ReadFrame, GetFrame, ReleaseFrame, mbind, M_bind, lift,
    invoke, mret, M_ret.
  rewrite Hdq, Hb. cbn [option_bind]. unfold reslice.
  destruct (Z.leb_spec 0 length); [| lia].
  destruct (Z.leb_spec length (Cap b)); [| lia].
  cbn [andb option_bind kernel calls].
  destruct (mmapEnqueueBuffer _ _ _) as [e k2]. reflexivity.
Qed.

(** X22: [GetFrame] trusts the index and the length that the transport
    reports.  An index outside the pool (any index at all before
    [StartStreaming] has filled the pool) or a length above the capacity
    of the buffer makes it panic, and [ReadFrame] with it, before any
    buffer is handed back. *)
Theorem GetFrame_panics (w : Camera) (world : World K)
    (index length : Z) (k1 : K) :
  mmapDequeueBuffer (fd w) 0 0 (kernel world) = ((None, (index, length)), k1) →
  (∀ b : Slice, buffers w !! Z.to_nat (GoRt.int index) = Some b →
                length < 0 ∨ Cap b < length) →
  GetFrame w world = (None, {| kernel := k1; calls := calls world |})
  ∧ ReadFrame w world = (None, {| kernel := k1; calls := calls world |}).
Proof.
  intros Hdq Hbad.
  unfold ReadFrame, GetFrame, mbind, M_bind, lift, mret, M_ret.
  rewrite Hdq.
  destruct (buffers w !! _) as [b |]; cbn [option_bind];
    [| split; reflexivity].
  specialize (Hbad b eq_refl). unfold reslice.
  destruct (Z.leb_spec 0 length); destruct (Z.leb_spec length (Cap b));
    try lia; split; reflexivity.
Qed.

(** X23: the three outcomes of [WaitForFrame].  It reports the transport's
    error when there is one, [Timeout] exactly when the transport counts
    zero ready descriptors without error, and success otherwise; a
    negative count without an error is success too. *)
Theorem WaitForFrame_outcomes (w : Camera) (timeout : Z) (world : World K) :
  let '(count, err) := fst (waitForFrame (fd w) timeout (kernel world)) in
  fst (WaitForFrame w timeout world)
  = match err with
    | Some e => Some (WaitFailed e)
    | None => if count =? 0 then Some Timeout else None
    end.
Proof.
  unfold WaitForFrame, mbind, M_bind, lift, mret, M_ret.
  destruct (waitForFrame _ _ _) as [[count [e |]] k]; cbn [fst].
  - rewrite orb_true_r. reflexivity.
  - rewrite orb_false_r.
    destruct (Z.ltb_spec count 0); destruct (Z.eqb_spec count 0);
      try lia; reflexivity.
Qed.

(** The enumeration loops run through the listed entries and stop at the
    first failed query. *)
Lemma formats_loop_listed (w : Camera) (l : list (Z * string)) :
  ∀ (fuel : nat) (index index' : Z) (result : gmap Z string)
    (world world1 : World K) (code : Z) (desc e : string) (k2 : K),
    formats_listed w index l world index' world1 →
    getPixelFormat (fd w) index' (kernel world1)
    = ((code, desc, Some e), k2) →
    (length l < fuel)%nat →
    formats_loop fuel w index result world
    = (Some (foldl (λ m cd, <[cd.1 := cd.2]> m) result l),
       {| kernel := k2; calls := calls world |}).
Proof.
  induction l as [| [c d] l IH];
    intros fuel index index' result world world1 code desc e k2 Hl Hend Hfuel;
    inversion Hl; subst; destruct fuel as [| fuel];
    cbn [length] in Hfuel; try lia;
    cbn [formats_loop]; unfold mbind, M_bind, lift at 1.
  - rewrite Hend. reflexivity.
  - match goal with Hq : getPixelFormat _ _ _ = _ |- _ => rewrite Hq end.
    erewrite IH; [reflexivity | eassumption | exact Hend | lia].
Qed.

Lemma sizes_loop_listed (w : Camera) (f : Z) (l : list Formats.FrameSize) :
  ∀ (fuel : nat) (index index' : Z) (result : list Formats.FrameSize)
    (world world1 : World K) (s : Formats.FrameSize) (e : string) (k2 : K),
    sizes_listed w f index l world index' world1 →
    getFrameSize (fd w) index' (uint32 f) (kernel world1)
    = ((s, Some e), k2) →
    (length l < fuel)%nat →
    sizes_loop fuel w f index result world
    = (Some (result ++ l), {| kernel := k2; calls := calls world |}).
Proof.
  induction l as [| s0 l IH];
    intros fuel index index' result world world1 s e k2 Hl Hend Hfuel;
    inversion Hl; subst; destruct fuel as [| fuel];
    cbn [length] in Hfuel; try lia;
    cbn [sizes_loop]; unfold mbind, M_bind, lift at 1.
  - rewrite Hend, app_nil_r. reflexivity.
  - match goal with Hq : getFrameSize _ _ _ _ = _ |- _ => rewrite Hq end.
    erewrite IH; [| eassumption | exact Hend | lia].
    rewrite <- app_assoc. reflexivity.
Qed.

(** X24: [GetSupportedFormats] queries the indices 0, 1, 2, ... and stops
    at the first query that fails, whose error it swallows.  With enough
    fuel for those queries the model returns, and the map holds, for each
    code, the description of the last query that reported it. *)
Theorem GetSupportedFormats_enumerates (w : Camera) (l : list (Z * string))
    (fuel : nat) (index' : Z) (world world1 : World K) (code : Z)
    (desc e : string) (k2 : K) :
  formats_listed w 0 l world index' world1 →
  getPixelFormat (fd w) index' (kernel world1) = ((code, desc, Some e), k2) →
  (length l < fuel)%nat →
  ∃ result : gmap Z string,
    GetSupportedFormats fuel w world
    = (Some result, {| kernel := k2; calls := calls world |})
    ∧ ∀ c : Z,
        result !! c = snd <$> last (filter (λ cd, cd.1 = c) l).
Proof.
  intros Hl Hend Hfuel. eexists. split.
  - unfold GetSupportedFormats.
    apply (formats_loop_listed w l fuel 0 index' ∅ world world1 code desc e
             k2 Hl Hend Hfuel).
  - intros c. rewrite (foldl_insert_lookup fst snd l ∅ c).
    destruct (last _); [reflexivity | apply lookup_empty].
Qed.

(** X25: [GetSupportedFrameSizes] returns the sizes of the queries at the
    indices 0, 1, 2, ... in that order, up to the first query that fails,
    whose error it swallows. *)
Theorem GetSupportedFrameSizes_enumerates (w : Camera) (f : Z)
    (l : list Formats.FrameSize) (fuel : nat) (index' : Z)
    (world world1 : World K) (s : Formats.FrameSize) (e : string) (k2 : K) :
  sizes_listed w f 0 l world index' world1 →
  getFrameSize (fd w) index' (uint32 f) (kernel world1) = ((s, Some e), k2) →
  (length l < fuel)%nat →
  GetSupportedFrameSizes fuel w f world
  = (Some l, {| kernel := k2; calls := calls world |}).
Proof.
  intros Hl Hend Hfuel. unfold GetSupportedFrameSizes.
  apply (sizes_loop_listed w f l fuel 0 index' [] world world1 s e k2 Hl
           Hend Hfuel).
Qed.

(** X26: on a device whose format query never fails, the loop of
    [GetSupportedFormats] has no exit: no amount of fuel lets the model
    return. *)
Theorem GetSupportedFormats_diverges (w : Camera) (fuel : nat) :
  (∀ (index : Z) (k : K),
     snd (fst (getPixelFormat (fd w) index k)) = None) →
  ∀ (index : Z) (result : gmap Z string) (world : World K),
    fst (formats_loop fuel w index result world) = None.
Proof.
  intros Hnever. induction fuel as [| fuel IH]; intros index result world;
    cbn [formats_loop]; [reflexivity |].
  unfold mbind, M_bind, lift at 1.
  pose proof (Hnever index (kernel world)) as Hq.
  destruct (getPixelFormat _ _ _) as [[[code desc] err] k].
  cbn [fst snd] in Hq. subst err. apply IH.
Qed.

(** X27: [GetControls] returns, for each control identifier, the name and
    the range of the last element of [queryControls] that carries it, and
    nothing for an identifier that no element carries. *)
Theorem GetControls_lookup (w : Camera) (world : World K) (id : Z) :
  fst (GetControls w world) !! id
  = Control_of
    <$> last (filter (λ c, uint32 (c_id c) = id)
                     (fst (queryControls (fd w) (kernel world)))).
Proof.
  unfold GetControls, mbind, M_bind, lift, mret, M_ret.
  destruct (queryControls _ _) as [cs k]. cbn [fst].
  rewrite (foldl_insert_lookup (λ c, uint32 (c_id c)) Control_of cs ∅ id).
  destruct (last _); [reflexivity | apply lookup_empty].
Qed.

(** X28: [Open] returns a session exactly when the node opens without
    error and the capability query reports, without error, both video
    capture and streaming.  The session then has the opened descriptor, a
    buffer count of 256, an empty pool, and is Idle. *)
Theorem Open_session (path : string) (world world' : World K) (w : Camera)
    (err : option string) :
  Open path world = ((Some w, err), world')
  ↔ ∃ (handle : Z) (k1 : K),
      unix_Open path (kernel world) = ((handle, None), k1)
      ∧ checkCapabilities (uintptr handle) k1
        = ((true, true, None), kernel world')
      ∧ calls world' = calls world
      ∧ w = {| fd := uintptr handle; bufcount := 256; buffers := [];
               streaming := false |}
      ∧ err = None.
Proof.
  unfold Open, mbind, M_bind, lift, mret, M_ret.
  destruct (unix_Open path (kernel world)) as [[handle oerr] k1].
  assert (Hfd : (uintptr handle <? 0) = false).
  { apply Z.ltb_ge. unfold uintptr. apply Z.mod_pos_bound. reflexivity. }
  assert (Hidem : uintptr (uintptr handle) = uintptr handle)
    by (unfold uintptr; apply Z.mod_mod; discriminate).
  rewrite Hfd. cbn [orb kernel calls].
  destruct oerr as [oe |].
  - rewrite bool_decide_eq_true_2 by (eexists; reflexivity).
    split; [discriminate |]. intros (h & k & [=] & _).
  - rewrite bool_decide_eq_false_2 by (intros [? [=]]).
    destruct (checkCapabilities _ _) as [[[cap str] cerr] k2] eqn:Hquery.
    split.
    + destruct cerr as [ce |]; [discriminate |].
      destruct cap; cbn [negb]; [| discriminate].
      destruct str; cbn [negb]; [| discriminate].
      intros [= <- <- <-]. exists handle, k1. rewrite Hidem.
      cbn [kernel calls]. auto.
    + intros (h & k & [= <- <-] & Hcaps & Hcalls & -> & ->).
      cbn [kernel] in Hquery. rewrite Hquery in Hcaps.
      injection Hcaps as -> -> -> Hk. cbn [negb]. rewrite Hidem.
      destruct world' as [k' cs']. cbn [kernel calls] in *. subst.
      reflexivity.
Qed.

End WithDevice.

(** On the example device buffer 1 is ready with 512 bytes. *)
Lemma ReadFrame_releases_witness :
  ReadFrame started_camera boot
  = (Some ({| Data := 8192; Len := 512; Cap := 1024 |}, None),
     {| kernel := tt; calls := [CallEnqueueBuffer 3 1] |}).
Proof.
  assert (Hlen : 0 ≤ 512 ≤ Cap (buffer_at 8192)) by (cbn; lia).
  exact (ReadFrame_releases started_camera boot 1 512 tt (buffer_at 8192)
           eq_refl eq_refl Hlen).
Defined.

(** Before [StartStreaming] the pool is empty. *)
Lemma GetFrame_panics_witness :
  GetFrame idle_camera boot = (None, boot)
  ∧ ReadFrame idle_camera boot = (None, boot).
Proof.
  assert (Hpool : ∀ b : Slice,
             buffers idle_camera !! Z.to_nat (GoRt.int 1) = Some b →
             512 < 0 ∨ Cap b < 512)
    by (intros b Hb; discriminate Hb).
  exact (GetFrame_panics idle_camera boot 1 512 tt eq_refl Hpool).
Defined.

(** The example device lists two formats and fails at index 2. *)
Lemma GetSupportedFormats_enumerates_witness :
  ∃ result : gmap Z string,
    GetSupportedFormats 3 idle_camera boot = (Some result, boot)
    ∧ ∀ c : Z,
        result !! c
        = snd <$> last (filter (λ cd, cd.1 = c)
                          [(0x56595559, "YUYV 4:2:2");
                           (0x47504a4d, "Motion-JPEG")]).
Proof.
  apply (GetSupportedFormats_enumerates idle_camera
           [(0x56595559, "YUYV 4:2:2"); (0x47504a4d, "Motion-JPEG")]
           3 2 boot boot 0 "" "invalid argument" tt).
  - eapply formats_listed_cons; [reflexivity |].
    eapply formats_listed_cons; [reflexivity |].
    apply formats_listed_nil.
  - reflexivity.
  - cbn. lia.
Defined.

(** The example device lists one frame size and fails at index 1. *)
Lemma GetSupportedFrameSizes_enumerates_witness :
  GetSupportedFrameSizes 2 idle_camera 0x56595559 boot
  = (Some [{| Formats.MinWidth := 640; Formats.MaxWidth := 640;
              Formats.StepWidth := 0; Formats.MinHeight := 480;
              Formats.MaxHeight := 480; Formats.StepHeight := 0 |}],
     boot).
Proof.
  eapply (GetSupportedFrameSizes_enumerates idle_camera 0x56595559 _ 2 1
            boot boot _ "invalid argument" tt).
  - eapply sizes_listed_cons; [reflexivity |]. apply sizes_listed_nil.
  - reflexivity.
  - cbn. lia.
Defined.

(** A thousand iterations on the device that never fails. *)
Lemma GetSupportedFormats_diverges_witness :
  fst (@formats_loop unit endless_node 1000 idle_camera 0 ∅ boot) = None.
Proof.
  apply (@GetSupportedFormats_diverges unit endless_node idle_camera 1000).
  intros index k. reflexivity.
Defined.

(** The node of the example device opens as descriptor 3. *)
Lemma Open_session_witness :
  Open "/dev/video0" boot
  = ((Some {| fd := 3; bufcount := 256; buffers := []; streaming := false |},
      None), boot).
Proof.
  apply (Open_session "/dev/video0" boot boot).
  exists 3, tt. repeat split; reflexivity.
Defined.

End SessionExtra.

(** ** image.go: the planar decoder in the two revisions *)

Module PlanarRevisions.
Import GoRt GoImage LoopLemmas PlanarSpec PlanarExtra.

(** X29: the earlier [decodePlanarYUV] has one and the same code for the
    tags YU12, YV12 and I420, and that code builds the image that the
    later revision builds under YV12, for every frame and size, panics
    included.  So of the three tags only YV12 kept its meaning between
    the revisions. *)
Theorem decodePlanarYUV_revisions (frame : list byte) (width height : Z) :
  ImageV1.decodePlanarYUV_image frame "YU12" width height
  = ImageV1.decodePlanarYUV_image frame "YV12" width height
  ∧ ImageV1.decodePlanarYUV_image frame "I420" width height
    = ImageV1.decodePlanarYUV_image frame "YV12" width height
  ∧ ImageV1.decodePlanarYUV_image frame "YV12" width height
    = Image.decodePlanarYUV_image frame "YV12" width height.
Proof.
  split; [reflexivity |]. split; [reflexivity |].
  unfold ImageV1.decodePlanarYUV_image, Image.decodePlanarYUV_image.
  change ImageV1.luma_body with Image.luma_body.
  change ImageV1.first_to_Cr with Image.first_to_Cr.
  change ImageV1.second_to_Cb with Image.second_to_Cb.
  destruct (NewYCbCr _ _) as [yuv0 |] eqn:Hnew; cbn; [| reflexivity].
  destruct (for_range (length (Y yuv0)) (Image.luma_body frame) yuv0)
    as [yuv1 |] eqn:Hluma; cbn; [| reflexivity].
  pose proof (luma_loop_chroma frame _ _ yuv0 yuv1 Hnew Hluma) as Hchroma.
  assert (Hs1 : Image.sized (length (Y yuv1)) (length (Cb yuv1)) yuv1)
    by (repeat split; rewrite Hchroma; reflexivity).
  rewrite <- Hchroma at 1.
  destruct (for_range (length (Cb yuv1)) (Image.first_to_Cr frame) yuv1)
    as [yuv2 |] eqn:Hfirst; cbn; [| reflexivity].
  assert (Hs2 : Image.sized (length (Y yuv1)) (length (Cb yuv1)) yuv2).
  { apply (planar_loop_sized frame _ _ Image.first_to_Cr
             (seq 0 (length (Cb yuv1))) yuv1 yuv2);
      [LoopExtra.solve_elem | exact Hs1 | exact Hfirst]. }
  destruct Hs2 as (_ & -> & ->). reflexivity.
Qed.

End PlanarRevisions.

(** ** image.go: the RGB decoder on frames of any size *)

Module RGBExtra.
Import GoRt GoImage Image LoopLemmas LoopExtra PlanarSpec.

Lemma rgb_order_body (frame : list byte) (f : string) (o0 o1 o2 : nat) :
  rgb_order f = Some (o0, o1, o2) →
  (o0 ≤ 2 ∧ o1 ≤ 2 ∧ o2 ≤ 2)%nat
  ∧ ∀ i pix, decodeRGB_body frame f i pix = rgb_pixel frame o0 o1 o2 i pix.
Proof.
  unfold rgb_order, decodeRGB_body, rgb_pixel.
  repeat (destruct (String.eqb f _);
          [intros [= <- <- <-]; (split; [lia |]);
           intros i pix; rewrite ?Nat.add_0_r; reflexivity |]).
  discriminate.
Qed.

Lemma mod3_split (i : nat) :
  ∃ q r : nat, i = (3 * q + r)%nat ∧ (r < 3)%nat ∧ (i mod 3)%nat = r.
Proof.
  exists (i / 3)%nat, (i mod 3)%nat.
  pose proof (Nat.div_mod_eq i 3). pose proof (Nat.mod_upper_bound i 3).
  lia.
Qed.

(** One index of the loop, when the frame is a whole number of pixels that
    fits in the buffer. *)
Lemma rgb_pixel_step (frame : list byte) (o0 o1 o2 l i : nat)
    (buf : list byte) :
  (o0 ≤ 2 ∧ o1 ≤ 2 ∧ o2 ≤ 2)%nat →
  (length frame mod 3)%nat = 0%nat →
  (i < length frame)%nat → (length frame ≤ l)%nat →
  triples_done frame o0 o1 o2 l i buf →
  ∃ buf', rgb_pixel frame o0 o1 o2 i buf = Some buf'
          ∧ triples_done frame o0 o1 o2 l (Datatypes.S i) buf'.
Proof.
  intros Hoff Hwhole Hi Hfit (Hlen & Hdone & Hzero).
  destruct (mod3_split i) as (q & r & -> & Hr & Hmod).
  destruct (mod3_split (length frame)) as (m & r' & Hm & _ & Hmod').
  rewrite Hwhole in Hmod'. subst r'.
  unfold rgb_pixel. rewrite Hmod.
  destruct (Nat.eqb_spec r 0) as [-> | Hne].
  - rewrite Nat.add_0_r in *.
    destruct (lookup_lt_is_Some_2 frame (3 * q + o0)) as [v0 Hv0]; [lia |].
    destruct (lookup_lt_is_Some_2 frame (3 * q + o1)) as [v1 Hv1]; [lia |].
    destruct (lookup_lt_is_Some_2 frame (3 * q + o2)) as [v2 Hv2]; [lia |].
    rewrite Hv0. cbn [mbind option_bind].
    rewrite store_Some by lia. cbn [mbind option_bind].
    rewrite Hv1. cbn [mbind option_bind].
    rewrite store_Some by (rewrite !length_insert; lia).
    cbn [mbind option_bind].
    rewrite Hv2. cbn [mbind option_bind].
    rewrite store_Some by (rewrite !length_insert; lia).
    eexists. split; [reflexivity |].
    unfold triples_done. rewrite !length_insert.
    split; [exact Hlen |]. split.
    + intros p Hp. destruct (decide (p = q)) as [-> | Hpq].
      * repeat split.
        -- rewrite !list_lookup_insert_ne by lia.
           rewrite list_lookup_insert_eq by lia. congruence.
        -- rewrite !list_lookup_insert_ne by lia.
           rewrite list_lookup_insert_eq by (rewrite !length_insert; lia).
           congruence.
        -- rewrite list_lookup_insert_eq by (rewrite !length_insert; lia).
           congruence.
      * rewrite !list_lookup_insert_ne by lia. apply Hdone. lia.
    + intros j Hj Hbeyond. pose proof (Hbeyond q ltac:(lia)) as Hq.
      rewrite !list_lookup_insert_ne by lia.
      apply Hzero; [exact Hj |]. intros p Hp. apply Hbeyond. lia.
  - exists buf. split; [reflexivity |].
    split; [exact Hlen |]. split.
    + intros p Hp. apply Hdone. lia.
    + intros j Hj Hbeyond. apply Hzero; [exact Hj |].
      intros p Hp. apply Hbeyond. lia.
Qed.

(** The image that [decodeRGB] allocates. *)
Lemma NewRGB_make (w h : Z) :
  0 ≤ w < 2 ^ 32 → 0 ≤ h < 2 ^ 32 → 3 * (w * h) < 2 ^ 63 →
  NewRGB (Rect 0 0 (int w) (int h))
  = Some {| RGBPix := replicate (3 * Z.to_nat (w * h)) x00;
            RGBStride := 3 * w;
            RGBRect := Rect 0 0 w h |}.
Proof.
  intros Hw Hh Hfit. rewrite !(int_small w), !(int_small h) by lia.
  unfold NewRGB, Rect.
  destruct (Z.gtb_spec 0 w) as [? | _]; [lia |].
  destruct (Z.gtb_spec 0 h) as [? | _]; [lia |].
  unfold Dx, Dy. cbn [MinX MinY MaxX MaxY]. rewrite !Z.sub_0_r.
  assert (0 ≤ w * h) by nia.
  rewrite (int_small (3 * w)) by lia.
  rewrite (int_small (3 * w * h)) by lia.
  unfold make. destruct (Z.ltb_spec (3 * w * h) 0); [lia |].
  cbn [mbind option_bind]. do 3 f_equal. lia.
Qed.

(** X30: for the two tags of [decodeRGB], a frame that is a whole number
    of three-byte pixels and is not longer than the image is decoded
    without panic.  Every pixel of the frame is in place, as it is under
    RGB3 and with bytes 0 and 2 exchanged under BGR3; the frame need not
    fill the image, whose remaining bytes stay zero. *)
Theorem decodeRGB_pixels (frame : list byte) (f : string)
    (width height : Z) (o0 o1 o2 : nat) :
  rgb_order f = Some (o0, o1, o2) →
  0 ≤ width < 2 ^ 32 → 0 ≤ height < 2 ^ 32 →
  3 * (width * height) < 2 ^ 63 →
  (length frame mod 3)%nat = 0%nat →
  (length frame ≤ 3 * Z.to_nat (width * height))%nat →
  ∃ rgb : RGB,
    decodeRGB frame f width height = Some (ImageRGB rgb, None)
    ∧ length (RGBPix rgb) = (3 * Z.to_nat (width * height))%nat
    ∧ RGBStride rgb = 3 * width
    ∧ (∀ p : nat, (3 * p < length frame)%nat →
         RGBPix rgb !! (3 * p)%nat = frame !! (3 * p + o0)%nat
         ∧ RGBPix rgb !! (3 * p + 1)%nat = frame !! (3 * p + o1)%nat
         ∧ RGBPix rgb !! (3 * p + 2)%nat = frame !! (3 * p + o2)%nat)
    ∧ (∀ j : nat,
         (length frame ≤ j < 3 * Z.to_nat (width * height))%nat →
         RGBPix rgb !! j = Some x00).
Proof.
  intros Horder Hw Hh Hfit Hwhole Hlen.
  destruct (rgb_order_body frame f o0 o1 o2 Horder) as (Hoff & Hbody).
  set (l := (3 * Z.to_nat (width * height))%nat) in *.
  destruct (for_each_seq_inv (triples_done frame o0 o1 o2 l)
              (rgb_pixel frame o0 o1 o2) (length frame) 0
              (replicate l x00)) as (buf & Hloop & Hdone).
  - split; [apply length_replicate |]. split; [intros p Hp; lia |].
    intros j Hj _. apply lookup_replicate_2. exact Hj.
  - intros i t Hi. apply rgb_pixel_step; [exact Hoff | exact Hwhole | lia
                                         | exact Hlen].
  - unfold decodeRGB.
    rewrite (NewRGB_make width height Hw Hh Hfit).
    cbn [mbind option_bind RGBPix RGBStride RGBRect]. fold l.
    unfold for_range.
    rewrite (for_each_ext _ (rgb_pixel frame o0 o1 o2)) by exact Hbody.
    rewrite Hloop. cbn [mbind option_bind].
    eexists. split; [reflexivity |]. cbn [RGBPix RGBStride].
    destruct Hdone as (Hl & Hpix & Hzero).
    split; [exact Hl |]. split; [reflexivity |]. split.
    + intros p Hp. apply Hpix. lia.
    + intros j Hj. apply Hzero; [lia |].
      destruct (mod3_split (length frame)) as (m & r & Hm & _ & Hmod).
      rewrite Hwhole in Hmod. subst r. intros p Hp. lia.
Qed.

(** One BGR3 pixel in a 1x2 image: the second pixel stays zero. *)
Lemma decodeRGB_pixels_witness :
  ∃ rgb : RGB,
    decodeRGB [x01; x02; x03] "BGR3" 1 2 = Some (ImageRGB rgb, None)
    ∧ length (RGBPix rgb) = 6%nat.
Proof.
  destruct (decodeRGB_pixels [x01; x02; x03] "BGR3" 1 2 2 1 0)
    as (rgb & Hrun & Hl & _);
    [reflexivity | lia | lia | lia | reflexivity | vm_compute; lia |].
  exists rgb. split; [exact Hrun | exact Hl].
Defined.

End RGBExtra.
